(** * FFXV Unlocker: the process patch engine

    A shallow embedding of [MemoryEditor.cpp], [PatternScanner.cpp] and of
    the individual-toggle slot of [MainWindow.cpp], with the properties the
    specification states about them.

    The Win32 calls the engine makes are an interface ([Win32]); the engine
    is written once over that interface.  Properties that only depend on the
    control flow of the engine are proved for every implementation of the
    interface; properties that speak about the bytes and the page protection
    of the target are proved on [Machine], a reference model of one target
    process that follows the documented behaviour of the calls. *)

From Stdlib Require Import ZArith List Bool Lia Ascii String.
From Stdlib Require Import Init.Byte.
From stdpp Require Import base gmap strings pretty list.

Open Scope Z_scope.

(** ** Machine integers and containers *)

(** [uintptr_t] and [size_t] are 64-bit unsigned on the x64 target. *)
Definition wrap64 (z : Z) : Z := z mod 2 ^ 64.

(** [DWORD] is 32-bit unsigned. *)
Definition wrap32 (z : Z) : Z := z mod 2 ^ 32.

(** [std::vector::size()]. *)
Definition vsize {A} (v : list A) : Z := Z.of_nat (length v).

(** [v[i]] on a byte buffer; the engine only indexes below the size. *)
Definition at_index (v : list byte) (i : Z) : byte := nth (Z.to_nat i) v x00.

(** [_wcsicmp(a, b) == 0]: equality up to the case of ASCII letters. *)
Definition towlower (c : ascii) : ascii :=
  let n := N_of_ascii c in
  if ((65 <=? n) && (n <=? 90))%N then ascii_of_N (n + 32) else c.

Fixpoint wcslwr (s : string) : string :=
  match s with
  | EmptyString => EmptyString
  | String c rest => String (towlower c) (wcslwr rest)
  end.

Definition wcsicmp_eq (a b : string) : bool := String.eqb (wcslwr a) (wcslwr b).

(** ** The Win32 calls used by the engine

    [World] is the state of the operating system as far as the engine can
    observe or change it.  A call that cannot change it takes the world and
    returns its result; a call that can returns the new world too.
    Handles, process ids, addresses and protection constants are integers;
    the null handle is [0]. *)

Class Win32 (World : Type) := {
  (** [CreateToolhelp32Snapshot] with [Process32FirstW]/[Process32NextW]:
      the entries [(szExeFile, th32ProcessID)] in enumeration order, or
      [None] for [INVALID_HANDLE_VALUE]. *)
  CreateToolhelp32Snapshot : World -> option (list (string * Z));
  (** [OpenProcess(VM_READ|VM_WRITE|VM_OPERATION|QUERY_INFORMATION, FALSE, pid)]:
      the handle, [0] when the call fails. *)
  OpenProcess : World -> Z -> Z * World;
  GetLastError : World -> Z;
  CloseHandle : World -> Z -> World;
  (** [GetExitCodeProcess(h, &code)]: [Some code] when the call succeeds. *)
  GetExitCodeProcess : World -> Z -> option Z;
  (** [VirtualProtectEx(h, address, size, newProtect, &old)]: [Some old]
      when the call succeeds. *)
  VirtualProtectEx : World -> Z -> Z -> Z -> Z -> option Z * World;
  (** [WriteProcessMemory(h, address, data, size, &written)]: the [BOOL]
      and the count of bytes written. *)
  WriteProcessMemory : World -> Z -> Z -> list byte -> (bool * Z) * World;
  (** [ReadProcessMemory(h, address, buffer, size, &read)]: the bytes
      copied to the buffer when the call succeeds; their count is what the
      call stores in [read]. *)
  ReadProcessMemory : World -> Z -> Z -> Z -> option (list byte);
  (** [EnumProcessModulesEx(h, modules, ..., LIST_MODULES_ALL)]. *)
  EnumProcessModulesEx : World -> Z -> option (list Z);
  GetModuleBaseNameW : World -> Z -> Z -> option string;
  (** [GetModuleInformation]: [(lpBaseOfDll, SizeOfImage)]. *)
  GetModuleInformation : World -> Z -> Z -> option (Z * Z);
}.

Definition STILL_ACTIVE : Z := 259.
Definition PAGE_NOACCESS : Z := 0x01.
Definition PAGE_READONLY : Z := 0x02.
Definition PAGE_READWRITE : Z := 0x04.
Definition PAGE_WRITECOPY : Z := 0x08.
Definition PAGE_EXECUTE : Z := 0x10.
Definition PAGE_EXECUTE_READ : Z := 0x20.
Definition PAGE_EXECUTE_READWRITE : Z := 0x40.
Definition PAGE_EXECUTE_WRITECOPY : Z := 0x80.

(** ** PatternScanner *)

Module PatternScanner.

(** [constexpr size_t CHUNK_SIZE = 0x10000]. *)
Definition CHUNK_SIZE : Z := 0x10000.

(** The comparison loop of [matchPattern]: [pattern] is what is left of the
    signature from index [i] on. *)
Fixpoint matchBytes (data : list byte) (offset : Z) (pattern : list byte) (i : Z) : bool :=
  match pattern with
  | [] => true
  | p :: rest =>
      if negb (Byte.eqb (at_index data (offset + i)) p) then false
      else matchBytes data offset rest (i + 1)
  end.

(** [offset + pattern.size()] is a sum of two [size_t]: it wraps around at
    [2 ^ 64], and the guard compares what is left of it.  When the guard
    lets an [offset] through because the sum wrapped, the bytes compared
    lie outside the buffer. *)
Definition matchPattern (data : list byte) (dataSize : Z) (pattern : list byte)
    (offset : Z) : bool :=
  if wrap64 (offset + vsize pattern) >? dataSize then false
  else matchBytes data offset pattern 0.

(** [for (i = 0; i + pattern.size() <= bytesRead; ++i)]: [count] is the
    number of indices the loop still has to visit. *)
Fixpoint searchChunk (buffer : list byte) (bytesRead : Z) (pattern : list byte)
    (count : nat) (i : Z) : option Z :=
  match count with
  | O => None
  | S count' =>
      if matchPattern buffer bytesRead pattern i then Some i
      else searchChunk buffer bytesRead pattern count' (i + 1)
  end.

(** [ReadProcessMemory] into the reused [buffer]: the bytes read replace its
    front, what lies behind them stays from earlier chunks. *)
Definition fill (buffer data : list byte) : list byte :=
  data ++ skipn (length data) buffer.

Section Scan.
Context {World : Type} `{Win32 World}.

(** The chunk loop of [findPattern].  The result is [None] when [fuel]
    iterations were not enough, [Some r] when the loop returned [r]. *)
Fixpoint scanChunks (fuel : nat) (w : World) (processHandle startAddress searchSize : Z)
    (pattern buffer : list byte) (offset : Z) : option (option Z) :=
  if offset <? searchSize then
    match fuel with
    | O => None
    | S fuel' =>
        let bytesToRead := Z.min (CHUNK_SIZE + vsize pattern) (searchSize - offset) in
        match ReadProcessMemory w processHandle (wrap64 (startAddress + offset)) bytesToRead with
        | None =>
            scanChunks fuel' w processHandle startAddress searchSize pattern buffer
              (wrap64 (offset + CHUNK_SIZE))
        | Some data =>
            let buffer' := fill buffer data in
            let bytesRead := vsize data in
            match searchChunk buffer' bytesRead pattern
                    (Z.to_nat (bytesRead - vsize pattern + 1)) 0 with
            | Some i => Some (Some (wrap64 (startAddress + offset + i)))
            | None =>
                scanChunks fuel' w processHandle startAddress searchSize pattern buffer'
                  (wrap64 (offset + CHUNK_SIZE))
            end
        end
    end
  else Some None.

(** The loop visits one chunk per [CHUNK_SIZE] bytes of the range: this
    many iterations are enough whenever [offset] does not wrap around
    ([scanChunks_returns] below). *)
Definition chunkCount (searchSize : Z) : nat := Z.to_nat (searchSize / CHUNK_SIZE + 1).

Definition findPattern (w : World) (processHandle startAddress searchSize : Z)
    (pattern : list byte) : option (option Z) :=
  if (processHandle =? 0) || (vsize pattern =? 0) then Some None
  else
    scanChunks (chunkCount searchSize) w processHandle startAddress searchSize pattern
      (repeat x00 (Z.to_nat (CHUNK_SIZE + vsize pattern))) 0.

(** The module loop of [getModuleInfo]. *)
Fixpoint findModule (w : World) (processHandle : Z) (moduleName : string)
    (modules : list Z) : option (Z * Z) :=
  match modules with
  | [] => None
  | m :: rest =>
      match GetModuleBaseNameW w processHandle m with
      | Some modName =>
          if wcsicmp_eq modName moduleName then
            match GetModuleInformation w processHandle m with
            | Some (lpBaseOfDll, SizeOfImage) => Some (wrap64 lpBaseOfDll, wrap32 SizeOfImage)
            | None => findModule w processHandle moduleName rest
            end
          else findModule w processHandle moduleName rest
      | None => findModule w processHandle moduleName rest
      end
  end.

(** [getModuleInfo]: [Some (baseAddress, moduleSize)] for [true].  The
    array of the source holds 1024 handles; the loop is followed as far as
    the array goes. *)
Definition getModuleInfo (w : World) (processHandle : Z) (moduleName : string)
    : option (Z * Z) :=
  match EnumProcessModulesEx w processHandle with
  | None => None
  | Some modules => findModule w processHandle moduleName (firstn 1024 modules)
  end.

(** [findPatternInModule].  [SizeOfImage] is a [DWORD], so the chunk loop
    always returns ([findPattern_returns] below) and the case of exhausted
    fuel is never taken. *)
Definition findPatternInModule (w : World) (processHandle : Z) (moduleName : string)
    (pattern : list byte) : option Z :=
  match getModuleInfo w processHandle moduleName with
  | None => None
  | Some (baseAddress, moduleSize) =>
      match findPattern w processHandle baseAddress moduleSize pattern with
      | Some r => r
      | None => None
      end
  end.

End Scan.

(** *** What the scanner is compared with *)

(** The signature [pattern] lies in [image] at index [k]. *)
Definition occurs_at (image pattern : list byte) (k : Z) : Prop :=
  0 <= k /\ firstn (length pattern) (skipn (Z.to_nat k) image) = pattern.

(** The range of [vsize image] bytes at [startAddress] is readable through
    [processHandle] and holds [image]. *)
Definition readable_range {World} `{Win32 World} (w : World)
    (processHandle startAddress : Z) (image : list byte) : Prop :=
  forall off n, 0 <= off -> 0 < n -> off + n <= vsize image ->
    ReadProcessMemory w processHandle (startAddress + off) n
    = Some (firstn (Z.to_nat n) (skipn (Z.to_nat off) image)).

(** What [findPattern] has to return on [image]: the address of the lowest
    occurrence, or nothing when there is none. *)
Definition lowest_match (image pattern : list byte) (startAddress : Z) (r : option Z) : Prop :=
  match r with
  | Some a =>
      exists k, a = startAddress + k /\ occurs_at image pattern k /\
                forall j, occurs_at image pattern j -> k <= j
  | None => forall k, ~ occurs_at image pattern k
  end.

End PatternScanner.

(** ** The configuration data of [Patches.h] *)

(** Modelled from the spec: [Patches.h] is not part of the sources.  Its
    three structs are taken from section 6 of the specification and from
    the fields the engine reads; [offset] is an integer added to a
    [uintptr_t]. *)
Module Patch.
Record t := mk {
  name : string;
  pattern : list byte;
  offset : Z;
  original : list byte;
  patched : list byte;
  enabled : bool;
}.
Definition set_enabled (b : bool) (p : t) : t :=
  mk (name p) (pattern p) (offset p) (original p) (patched p) b.
End Patch.

Module UnlockItem.
Record t := mk {
  name : string;
  address : Z;
  description : string;
  selectable : bool;
  enabled : bool;
}.
Definition set_enabled (b : bool) (i : t) : t :=
  mk (name i) (address i) (description i) (selectable i) b.
End UnlockItem.

Module UnlockBundle.
Record t := mk {
  name : string;
  description : string;
  addresses : list Z;
  enabled : bool;
}.
Definition set_enabled (b : bool) (u : t) : t :=
  mk (name u) (description u) (addresses u) b.
End UnlockBundle.

(** ** MemoryEditor *)

(** The private members of the class. *)
Record MemoryEditor := mkEditor {
  m_processHandle : Z;
  m_processId : Z;
  m_processName : string;
  m_lastError : string;
  m_patternCache : gmap string Z;
}.

(** The state of a freshly constructed engine. *)
Definition newEditor : MemoryEditor := mkEditor 0 0 "" "" ∅.

(** The Qt signals of the class. *)
Inductive Signal :=
| processAttached (processName : string) (pid : Z)
| processDetached
| patchApplied (patchName : string)
| patchRemoved (patchName : string)
| unlockEnabled (itemName : string)
| unlockDisabled (itemName : string)
| bundleEnabled (bundleName : string)
| bundleDisabled (bundleName : string)
| errorOccurred (error : string).

(** The calls that act on the target or start a scan of its module, kept
    in the order the engine makes them. *)
Inductive Call :=
| OpenProcess_call (pid : Z)
| CloseHandle_call (handle : Z)
| VirtualProtectEx_call (address size newProtection : Z)
| WriteProcessMemory_call (address : Z) (data : list byte)
| findPatternInModule_call (pattern : list byte).

(** What one run of the engine carries: the operating system, the members
    of the object, the signals emitted so far and the calls made so far. *)
Record Run (World : Type) := mkRun {
  world : World;
  self : MemoryEditor;
  emitted : list Signal;
  calls : list Call;
}.
Arguments mkRun {World}.
Arguments world {World}.
Arguments self {World}.
Arguments emitted {World}.
Arguments calls {World}.

(** A method of the engine: a result and the run after it. *)
Definition M (World A : Type) : Type := Run World -> A * Run World.

Definition ret {World A} (a : A) : M World A := fun r => (a, r).

Definition bind {World A B} (c : M World A) (k : A -> M World B) : M World B :=
  fun r => let (a, r') := c r in k a r'.

Declare Scope engine_scope.
Delimit Scope engine_scope with engine.
Notation "x <- c ;; k" := (bind c (fun x => k))
  (at level 20, c at level 99, k at level 200, only parsing) : engine_scope.
Notation "' x <- c ;; k" := (bind c (fun x => k))
  (at level 20, x pattern, c at level 99, k at level 200, only parsing) : engine_scope.
Notation "c ;; k" := (bind c (fun _ => k))
  (at level 100, k at level 200, only parsing, right associativity) : engine_scope.

(** [for (x : items) body]: [body] sees the running [allSuccess] flag. *)
Fixpoint for_each {World A} (body : A -> M World bool) (items : list A)
    (allSuccess : bool) : M World bool :=
  match items with
  | [] => ret allSuccess
  | x :: rest =>
      bind (body x) (fun ok => for_each body rest (if ok then allSuccess else false))
  end.

(** The same loop over objects held by pointer, for a vector of pointers to
    distinct objects: the objects are handed over by value and each comes
    back as the loop body left it.  The loop over any vector of pointers,
    also one that holds a pointer twice, is [ByPointer.for_each_ptr]; on
    distinct pointers the two agree ([for_each_ptr_distinct]). *)
Fixpoint for_each_ref {World A} (body : A -> M World (bool * A)) (items : list A)
    (allSuccess : bool) : M World (bool * list A) :=
  match items with
  | [] => ret (allSuccess, [])
  | x :: rest =>
      bind (body x) (fun '(ok, x') =>
      bind (for_each_ref body rest (if ok then allSuccess else false)) (fun '(res, rest') =>
      ret (res, x' :: rest')))
  end.

Module Engine.
Section Methods.
Context {World : Type} `{Win32 World}.
Local Open Scope engine_scope.

Definition get_self : M World MemoryEditor := fun r => (self r, r).

Definition put_self (me : MemoryEditor) : M World unit :=
  fun r => (tt, mkRun (world r) me (emitted r) (calls r)).

Definition emit (s : Signal) : M World unit :=
  fun r => (tt, mkRun (world r) (self r) (emitted r ++ [s]) (calls r)).

Definition log (c : Call) : M World unit :=
  fun r => (tt, mkRun (world r) (self r) (emitted r) (calls r ++ [c])).

Definition set_lastError (msg : string) : M World unit :=
  me <- get_self ;;
  put_self (mkEditor (m_processHandle me) (m_processId me) (m_processName me) msg
              (m_patternCache me)).

(** Queries of the operating system. *)
Definition query {A} (f : World -> A) : M World A := fun r => (f (world r), r).

(** Calls that change it. *)
Definition call {A} (c : Call) (f : World -> A * World) : M World A :=
  fun r => let (a, w') := f (world r) in
           (a, mkRun w' (self r) (emitted r) (calls r ++ [c])).

(** *** Process attachment *)

(** The loop of [findProcessByName] over the snapshot. *)
Fixpoint firstProcess (processName : string) (entries : list (string * Z)) : Z :=
  match entries with
  | [] => 0
  | (szExeFile, th32ProcessID) :: rest =>
      if wcsicmp_eq szExeFile processName then wrap32 th32ProcessID
      else firstProcess processName rest
  end.

Definition findProcessByName (processName : string) : M World Z :=
  snapshot <- query CreateToolhelp32Snapshot ;;
  match snapshot with
  | None =>
      set_lastError "Failed to create process snapshot" ;;
      emit (errorOccurred "Failed to create process snapshot") ;;
      ret 0
  | Some entries => ret (firstProcess processName entries)
  end.

Definition detach : M World unit :=
  me <- get_self ;;
  if negb (m_processHandle me =? 0) then
    call (CloseHandle_call (m_processHandle me))
         (fun w => (tt, CloseHandle w (m_processHandle me))) ;;
    put_self (mkEditor 0 0 "" (m_lastError me) ∅) ;;
    emit processDetached
  else ret tt.

(** [processName] is a [std::wstring]; the narrowing copy of it in the
    error message keeps the characters as they are. *)
Definition attachToProcess (processName : string) : M World bool :=
  me <- get_self ;;
  (if negb (m_processHandle me =? 0) then detach else ret tt) ;;
  pid <- findProcessByName processName ;;
  if pid =? 0 then
    set_lastError ("Process not found: " +:+ processName) ;;
    ret false
  else
    handle <- call (OpenProcess_call pid) (fun w => OpenProcess w pid) ;;
    me <- get_self ;;
    put_self (mkEditor handle (m_processId me) (m_processName me) (m_lastError me)
                (m_patternCache me)) ;;
    if handle =? 0 then
      code <- query GetLastError ;;
      let msg := "Failed to open process. Run as administrator? Error: " +:+ pretty code in
      set_lastError msg ;;
      emit (errorOccurred msg) ;;
      ret false
    else
      me <- get_self ;;
      put_self (mkEditor handle pid processName (m_lastError me) ∅) ;;
      emit (processAttached processName pid) ;;
      ret true.

Definition isAttached : M World bool :=
  me <- get_self ;;
  if m_processHandle me =? 0 then ret false
  else
    exitCode <- query (fun w => GetExitCodeProcess w (m_processHandle me)) ;;
    match exitCode with
    | Some code => ret (code =? STILL_ACTIVE)
    | None => ret false
    end.

(** *** Low-level memory operations *)

(** [setMemoryProtection]: [Some oldProtection] for [true]. *)
Definition setMemoryProtection (address size newProtection : Z) : M World (option Z) :=
  me <- get_self ;;
  call (VirtualProtectEx_call address size newProtection)
       (fun w => VirtualProtectEx w (m_processHandle me) address size newProtection).

Definition writeMemory (address : Z) (data : list byte) : M World bool :=
  me <- get_self ;;
  '(ok, bytesWritten) <- call (WriteProcessMemory_call address data)
       (fun w => WriteProcessMemory w (m_processHandle me) address data) ;;
  ret (ok && (bytesWritten =? vsize data)).

Definition writeByte (address : Z) (value : byte) : M World bool :=
  attached <- isAttached ;;
  if negb attached then ret false
  else
    oldProtection <- setMemoryProtection address 1 PAGE_EXECUTE_READWRITE ;;
    match oldProtection with
    | None => ret false
    | Some oldProtection =>
        me <- get_self ;;
        '(ok, bytesWritten) <- call (WriteProcessMemory_call address [value])
             (fun w => WriteProcessMemory w (m_processHandle me) address [value]) ;;
        let success := ok && (bytesWritten =? 1) in
        (* Always restore protection, even if write failed *)
        setMemoryProtection address 1 oldProtection ;;
        ret success
    end.

Definition readByte (address : Z) : M World byte :=
  attached <- isAttached ;;
  if negb attached then ret x00
  else
    me <- get_self ;;
    data <- query (fun w => ReadProcessMemory w (m_processHandle me) address 1) ;;
    match data with
    | Some (value :: _) => ret value
    | _ => ret x00
    end.

Definition readMemory (address size : Z) : M World (list byte) :=
  me <- get_self ;;
  data <- query (fun w => ReadProcessMemory w (m_processHandle me) address size) ;;
  match data with
  | Some buffer => ret buffer
  | None => ret []
  end.

Definition writeProtectedMemory (address : Z) (data : list byte) : M World bool :=
  oldProtection <- setMemoryProtection address (vsize data) PAGE_EXECUTE_READWRITE ;;
  match oldProtection with
  | None =>
      set_lastError "Failed to change memory protection" ;;
      ret false
  | Some oldProtection =>
      success <- writeMemory address data ;;
      (* Always restore protection *)
      setMemoryProtection address (vsize data) oldProtection ;;
      ret success
  end.

(** *** AOB pattern-based patches *)

Definition findPatternAddress (patch : Patch.t) : M World Z :=
  me <- get_self ;;
  match m_patternCache me !! Patch.name patch with
  | Some address => ret address
  | None =>
      log (findPatternInModule_call (Patch.pattern patch)) ;;
      result <- query (fun w => PatternScanner.findPatternInModule w (m_processHandle me)
                                  "ffxv_s.exe" (Patch.pattern patch)) ;;
      match result with
      | Some address =>
          put_self (mkEditor (m_processHandle me) (m_processId me) (m_processName me)
                      (m_lastError me) (<[Patch.name patch := address]> (m_patternCache me))) ;;
          ret address
      | None => ret 0
      end
  end.

Definition fail (msg : string) : M World unit :=
  set_lastError msg ;; emit (errorOccurred msg).

Definition applyPatch (patch : Patch.t) : M World (bool * Patch.t) :=
  attached <- isAttached ;;
  if negb attached then
    fail "Not attached to process" ;; ret (false, patch)
  else
    address <- findPatternAddress patch ;;
    if address =? 0 then
      fail ("Pattern not found: " +:+ Patch.name patch) ;; ret (false, patch)
    else
      let address := wrap64 (address + Patch.offset patch) in
      ok <- writeProtectedMemory address (Patch.patched patch) ;;
      if negb ok then
        fail ("Failed to write patch: " +:+ Patch.name patch) ;; ret (false, patch)
      else
        emit (patchApplied (Patch.name patch)) ;;
        ret (true, Patch.set_enabled true patch).

Definition removePatch (patch : Patch.t) : M World (bool * Patch.t) :=
  attached <- isAttached ;;
  if negb attached then
    fail "Not attached to process" ;; ret (false, patch)
  else
    me <- get_self ;;
    address <- match m_patternCache me !! Patch.name patch with
               | Some address => ret address
               | None => findPatternAddress patch
               end ;;
    if address =? 0 then
      fail ("Cannot find patch location: " +:+ Patch.name patch) ;; ret (false, patch)
    else
      let address := wrap64 (address + Patch.offset patch) in
      ok <- writeProtectedMemory address (Patch.original patch) ;;
      if negb ok then
        fail ("Failed to restore original bytes: " +:+ Patch.name patch) ;;
        ret (false, patch)
      else
        emit (patchRemoved (Patch.name patch)) ;;
        ret (true, Patch.set_enabled false patch).

Definition togglePatch (patch : Patch.t) : M World (bool * Patch.t) :=
  if Patch.enabled patch then removePatch patch else applyPatch patch.

(** The flag [allSuccess] is cleared when a patch that is not enabled fails
    to apply: the body reports [false] exactly then. *)
Definition applyAllPatches (patches : list Patch.t) : M World (bool * list Patch.t) :=
  for_each_ref (fun patch =>
    if negb (Patch.enabled patch) then applyPatch patch else ret (true, patch))
    patches true.

Definition removeAllPatches (patches : list Patch.t) : M World (bool * list Patch.t) :=
  for_each_ref (fun patch =>
    if Patch.enabled patch then removePatch patch else ret (true, patch))
    patches true.

Definition isPatchApplied (patch : Patch.t) : bool := Patch.enabled patch.

(** *** Direct memory unlock operations (byte table) *)

Definition enableUnlock (item : UnlockItem.t) : M World (bool * UnlockItem.t) :=
  attached <- isAttached ;;
  if negb attached then
    fail "Not attached to process" ;; ret (false, item)
  else
    ok <- writeByte (UnlockItem.address item) x01 ;;
    if negb ok then
      fail ("Failed to enable unlock: " +:+ UnlockItem.name item) ;; ret (false, item)
    else
      emit (unlockEnabled (UnlockItem.name item)) ;;
      ret (true, UnlockItem.set_enabled true item).

Definition disableUnlock (item : UnlockItem.t) : M World (bool * UnlockItem.t) :=
  attached <- isAttached ;;
  if negb attached then
    fail "Not attached to process" ;; ret (false, item)
  else
    ok <- writeByte (UnlockItem.address item) x00 ;;
    if negb ok then
      fail ("Failed to disable unlock: " +:+ UnlockItem.name item) ;; ret (false, item)
    else
      emit (unlockDisabled (UnlockItem.name item)) ;;
      ret (true, UnlockItem.set_enabled false item).

Definition toggleUnlock (item : UnlockItem.t) : M World (bool * UnlockItem.t) :=
  if UnlockItem.enabled item then disableUnlock item else enableUnlock item.

Definition enableAllUnlocks (items : list UnlockItem.t) : M World (bool * list UnlockItem.t) :=
  for_each_ref (fun item =>
    if negb (UnlockItem.enabled item) then enableUnlock item else ret (true, item))
    items true.

Definition disableAllUnlocks (items : list UnlockItem.t) : M World (bool * list UnlockItem.t) :=
  for_each_ref (fun item =>
    if UnlockItem.enabled item then disableUnlock item else ret (true, item))
    items true.

Definition isUnlockEnabled (item : UnlockItem.t) : bool := UnlockItem.enabled item.

(** *** Bundle operations (multiple addresses per unlock) *)

Definition enableBundle (bundle : UnlockBundle.t) : M World (bool * UnlockBundle.t) :=
  attached <- isAttached ;;
  if negb attached then
    fail "Not attached to process" ;; ret (false, bundle)
  else
    allSuccess <- for_each (fun addr => writeByte addr x01)
                    (UnlockBundle.addresses bundle) true ;;
    if allSuccess then
      emit (bundleEnabled (UnlockBundle.name bundle)) ;;
      ret (allSuccess, UnlockBundle.set_enabled true bundle)
    else
      fail ("Failed to enable bundle (partial): " +:+ UnlockBundle.name bundle) ;;
      ret (allSuccess, bundle).

Definition disableBundle (bundle : UnlockBundle.t) : M World (bool * UnlockBundle.t) :=
  attached <- isAttached ;;
  if negb attached then
    fail "Not attached to process" ;; ret (false, bundle)
  else
    allSuccess <- for_each (fun addr => writeByte addr x00)
                    (UnlockBundle.addresses bundle) true ;;
    if allSuccess then
      emit (bundleDisabled (UnlockBundle.name bundle)) ;;
      ret (allSuccess, UnlockBundle.set_enabled false bundle)
    else
      fail ("Failed to disable bundle (partial): " +:+ UnlockBundle.name bundle) ;;
      ret (allSuccess, bundle).

Definition toggleBundle (bundle : UnlockBundle.t) : M World (bool * UnlockBundle.t) :=
  if UnlockBundle.enabled bundle then disableBundle bundle else enableBundle bundle.

Definition enableAllBundles (bundles : list UnlockBundle.t)
    : M World (bool * list UnlockBundle.t) :=
  for_each_ref (fun bundle =>
    if negb (UnlockBundle.enabled bundle) then enableBundle bundle else ret (true, bundle))
    bundles true.

Definition disableAllBundles (bundles : list UnlockBundle.t)
    : M World (bool * list UnlockBundle.t) :=
  for_each_ref (fun bundle =>
    if UnlockBundle.enabled bundle then disableBundle bundle else ret (true, bundle))
    bundles true.

Definition isBundleEnabled (bundle : UnlockBundle.t) : bool := UnlockBundle.enabled bundle.

End Methods.
End Engine.

(** ** A reference model of the target

    One target process and its address space, following the documented
    behaviour of the Win32 calls.  Protection is kept per page.
    [VirtualProtectEx] needs a range of committed pages; the pages it
    changes are all the pages that hold one or more bytes of the range, and
    what it stores in [lpflOldProtect] is the previous protection of the
    first page of the range.  [WriteProcessMemory] needs the whole range to
    be writable and writes all of it or nothing; a write can also be made to
    fail at chosen addresses.  [ReadProcessMemory] needs the whole range to
    be readable.  The target does not exit and does not change its memory
    by itself while the engine works. *)

Module Target.

Definition PAGE_SIZE : Z := 4096.

Record Machine := mkMachine {
  (** the process list of the snapshot; [None]: no snapshot can be made *)
  snapshot : option (list (string * Z));
  (** the handle [OpenProcess] grants for a process id, [0] when denied *)
  grant : Z -> Z;
  last_error : Z;
  (** the handles that are open *)
  handles : list Z;
  (** the exit status of the target, [STILL_ACTIVE] while it runs *)
  exit_code : Z;
  (** the loaded modules: [(HMODULE, (base name, (lpBaseOfDll, SizeOfImage)))] *)
  modules : list (Z * (string * (Z * Z)));
  memory : Z -> byte;
  (** page number to protection; [None]: the page is not committed *)
  protection : Z -> option Z;
  (** addresses at which a write into the target fails (fault injection) *)
  write_fault : Z -> bool;
}.

Definition set_handles (hs : list Z) (m : Machine) : Machine :=
  mkMachine (snapshot m) (grant m) (last_error m) hs (exit_code m) (modules m)
    (memory m) (protection m) (write_fault m).

Definition set_memory (mem : Z -> byte) (m : Machine) : Machine :=
  mkMachine (snapshot m) (grant m) (last_error m) (handles m) (exit_code m) (modules m)
    mem (protection m) (write_fault m).

Definition set_protection (prot : Z -> option Z) (m : Machine) : Machine :=
  mkMachine (snapshot m) (grant m) (last_error m) (handles m) (exit_code m) (modules m)
    (memory m) prot (write_fault m).

Definition valid (m : Machine) (h : Z) : bool :=
  negb (h =? 0) && existsb (Z.eqb h) (handles m).

Definition first_page (address : Z) : Z := address / PAGE_SIZE.
Definition last_page (address size : Z) : Z := (address + size - 1) / PAGE_SIZE.

(** The pages that hold a byte of [[address, address + size)]. *)
Definition pages (address size : Z) : list Z :=
  seqZ (first_page address) (last_page address size - first_page address + 1).

Definition in_range (address size : Z) : bool :=
  (0 <=? address) && (address + size <=? 2 ^ 64).

Definition committed (m : Machine) (page : Z) : bool :=
  match protection m page with Some _ => true | None => false end.

Definition readable (m : Machine) (page : Z) : bool :=
  match protection m page with
  | Some p => negb (p =? PAGE_NOACCESS)
  | None => false
  end.

Definition writable (m : Machine) (page : Z) : bool :=
  match protection m page with
  | Some p => existsb (Z.eqb p)
                [PAGE_READWRITE; PAGE_WRITECOPY; PAGE_EXECUTE_READWRITE; PAGE_EXECUTE_WRITECOPY]
  | None => false
  end.

(** [page] holds a byte of the range. *)
Definition in_region (address size page : Z) : bool :=
  (first_page address <=? page) && (page <=? last_page address size).

(** The protection of the range can be changed through [h]. *)
Definition can_protect (m : Machine) (h address size : Z) : bool :=
  valid m h && (0 <? size) && in_range address size
  && forallb (committed m) (pages address size).

(** No injected fault lies in the range. *)
Definition no_fault (m : Machine) (address size : Z) : bool :=
  forallb (fun a => negb (write_fault m a)) (seqZ address size).

(** The memory with [data] stored at [address]. *)
Definition poke (address : Z) (data : list byte) (mem : Z -> byte) : Z -> byte :=
  fun a =>
    if (address <=? a) && (a <? address + vsize data)
    then at_index data (a - address) else mem a.

Definition protect (m : Machine) (h address size newProtect : Z) : option Z * Machine :=
  if can_protect m h address size then
    (protection m (first_page address),
     set_protection (fun page =>
       if in_region address size page then Some newProtect else protection m page) m)
  else (None, m).

Definition write (m : Machine) (h address : Z) (data : list byte) : (bool * Z) * Machine :=
  if valid m h && in_range address (vsize data)
     && forallb (writable m) (pages address (vsize data))
     && no_fault m address (vsize data)
  then ((true, vsize data), set_memory (poke address data (memory m)) m)
  else ((false, 0), m).

Definition read (m : Machine) (h address size : Z) : option (list byte) :=
  if valid m h && in_range address size && forallb (readable m) (pages address size)
  then Some (map (memory m) (seqZ address size))
  else None.

Definition module_entry (m : Machine) (hmodule : Z) : option (string * (Z * Z)) :=
  snd <$> List.find (fun e => fst e =? hmodule) (modules m).

#[global] Instance machine_win32 : Win32 Machine := {
  CreateToolhelp32Snapshot m := snapshot m;
  OpenProcess m pid :=
    let h := grant m pid in
    (h, if h =? 0 then m else set_handles (h :: handles m) m);
  GetLastError m := last_error m;
  CloseHandle m h := set_handles (List.filter (fun x => negb (x =? h)) (handles m)) m;
  GetExitCodeProcess m h := if valid m h then Some (exit_code m) else None;
  VirtualProtectEx := protect;
  WriteProcessMemory := write;
  ReadProcessMemory := read;
  EnumProcessModulesEx m h := if valid m h then Some (map fst (modules m)) else None;
  GetModuleBaseNameW m h hmodule :=
    if valid m h then fst <$> module_entry m hmodule else None;
  GetModuleInformation m h hmodule :=
    if valid m h then snd <$> module_entry m hmodule else None;
}.

(** The bytes of the target at [[address, address + size)]. *)
Definition bytes_at (m : Machine) (address size : Z) : list byte :=
  map (memory m) (seqZ address size).

(** Every page of the range has the protection of the first one. *)
Definition uniform (m : Machine) (address size : Z) : Prop :=
  forall page, in_region address size page = true ->
    protection m page = protection m (first_page address).

(** The two machines grant the same accesses: same open handles, same exit
    status, same protection of every page, same injected faults. *)
Definition same_access (m m' : Machine) : Prop :=
  handles m' = handles m /\ exit_code m' = exit_code m /\
  (forall page, protection m' page = protection m page) /\
  (forall a, write_fault m' a = write_fault m a).

(** A write of one byte at [address] succeeds in the run [r]. *)
Definition can_poke (r : Run Machine) (address : Z) : bool :=
  valid (world r) (m_processHandle (self r))
  && (exit_code (world r) =? STILL_ACTIVE)
  && can_protect (world r) (m_processHandle (self r)) address 1
  && negb (write_fault (world r) address).

End Target.

(** ** The individual-toggle slot of MainWindow *)

Module MainWindow.

(** What the slot uses of a [QCheckBox]: its check state and the two
    dynamic properties that [createUnlockCategoryGroup] attaches.  Objects
    are named by their address; [None] is the null pointer. *)
Record QCheckBox := mkCheck {
  isChecked : bool;
  unlockItem : option nat;
  categoryCheck : option nat;
}.

Record t := mk {
  (** the [QCheckBox] objects *)
  checkboxes : gmap nat QCheckBox;
  (** the [UnlockItem] objects the checkboxes point to *)
  unlockItems : gmap nat UnlockItem.t;
  (** [std::map<UnlockItem*, QCheckBox*>] *)
  m_unlockCheckboxes : list (nat * nat);
  m_allCategoryChecks : list nat;
  m_unlockAllCheck : nat;
}.

(** [box->blockSignals(true); box->setChecked(b); box->blockSignals(false)]:
    the state changes and no [toggled] is delivered. *)
Definition setChecked (box : nat) (b : bool) (ui : t) : t :=
  mk (alter (fun c => mkCheck b (unlockItem c) (categoryCheck c)) box (checkboxes ui))
     (unlockItems ui) (m_unlockCheckboxes ui) (m_allCategoryChecks ui) (m_unlockAllCheck ui).

Definition set_item (ptr : nat) (item : UnlockItem.t) (ui : t) : t :=
  mk (checkboxes ui) (<[ptr := item]> (unlockItems ui)) (m_unlockCheckboxes ui)
     (m_allCategoryChecks ui) (m_unlockAllCheck ui).

Definition checkedOf (ui : t) (box : nat) : bool :=
  match checkboxes ui !! box with
  | Some c => isChecked c
  | None => false
  end.

Definition categoryOf (ui : t) (box : nat) : option nat :=
  match checkboxes ui !! box with
  | Some c => categoryCheck c
  | None => None
  end.

Section Slot.
Context {World : Type} `{Win32 World}.
Local Open Scope engine_scope.

(** [sender] is the result of [qobject_cast<QCheckBox*>(QObject::sender())];
    [checked] is the argument of the [toggled] signal. *)
Definition onIndividualUnlockToggled (sender : option nat) (checked : bool) (ui : t)
    : M World t :=
  attached <- Engine.isAttached ;;
  if negb attached then ret ui
  else
    match sender with
    | None => ret ui
    | Some box =>
        match unlockItem <$> checkboxes ui !! box with
        | Some (Some itemPtr) =>
            match unlockItems ui !! itemPtr with
            | None => ret ui
            | Some item =>
                (* Non-selectable items cannot be individually toggled *)
                if negb (UnlockItem.selectable item) then ret (setChecked box false ui)
                else
                  '(_, item') <- (if checked then Engine.enableUnlock item
                                  else Engine.disableUnlock item) ;;
                  let ui := set_item itemPtr item' ui in
                  (* Update category checkbox state *)
                  let ui :=
                    match categoryOf ui box with
                    | Some catPtr =>
                        let allInCategoryChecked :=
                          forallb (fun '(_, cb) =>
                            negb (bool_decide (categoryOf ui cb = Some catPtr)
                                  && negb (checkedOf ui cb)))
                            (m_unlockCheckboxes ui) in
                        setChecked catPtr allInCategoryChecked ui
                    | None => ui
                    end in
                  (* Update master checkbox *)
                  let allChecked := forallb (checkedOf ui) (m_allCategoryChecks ui) in
                  ret (setChecked (m_unlockAllCheck ui) allChecked ui)
            end
        | _ => ret ui
        end
    end.

End Slot.
End MainWindow.

(** ** A small target for the examples

    One module of 512 bytes that lies across a page boundary: its first
    half is the end of a page of code, its second half the start of a page
    of data.  The two bytes [74 4F] of the conditional jump lie in the
    code. *)

Module Demo.
Import Target.

Definition base : Z := 0x140000F00.
Definition handle : Z := 0x1a4.

Definition machine : Machine := {|
  snapshot := Some [("explorer.exe", 812); ("FFXV_S.EXE", 4242)];
  grant := fun pid => if pid =? 4242 then handle else 0;
  last_error := 5;
  handles := [handle];
  exit_code := STILL_ACTIVE;
  modules := [(base, ("ffxv_s.exe", (base, 0x200)))];
  memory := fun a =>
    if a =? base + 0x5C then x74 else if a =? base + 0x5D then x4f else x00;
  protection := fun page =>
    if page =? 0x140000 then Some PAGE_EXECUTE_READ
    else if page =? 0x140001 then Some PAGE_READWRITE
    else None;
  write_fault := fun _ => false;
|}.

(** The engine attached to the target, before any patch is resolved. *)
Definition session : Run Machine :=
  mkRun machine (mkEditor handle 4242 "ffxv_s.exe" "" ∅) [] [].

(** The engine before it attaches, the target running. *)
Definition fresh : Run Machine :=
  mkRun (set_handles [] machine) newEditor [] [].

Definition nop_patch : Patch.t :=
  Patch.mk "Unlock 1" [x74; x4f] 0 [x74; x4f] [x90; x90] false.

(** A patch whose two bytes are the last byte of the code page and the
    first byte of the data page. *)
Definition edge_patch : Patch.t :=
  Patch.mk "Edge" [x74; x4f] 0xA3 [x00; x00] [x90; x90] false.

(** A patch whose signature the module does not hold. *)
Definition absent_patch : Patch.t :=
  Patch.mk "Unlock 0" [xde; xad] 0 [xde; xad] [x90; x90] false.

(** An item of a category that cannot be selected one by one. *)
Definition steam_item : UnlockItem.t :=
  UnlockItem.mk "Steam item" (base + 0x138) "Steam exclusive" false false.

Definition bundle : UnlockBundle.t :=
  UnlockBundle.mk "Twitch drop" "two flags" [base + 0x140; base + 0x141] false.

(** A window with one item checkbox (1), its category checkbox (2) and the
    master checkbox (3); the item is the one that cannot be selected. *)
Definition window : MainWindow.t :=
  MainWindow.mk
    (<[1%nat := MainWindow.mkCheck true (Some 10%nat) (Some 2%nat)]>
       (<[2%nat := MainWindow.mkCheck false None None]>
          (<[3%nat := MainWindow.mkCheck false None None]> ∅)))
    (<[10%nat := steam_item]> ∅)
    [(10%nat, 1%nat)] [2%nat] 3%nat.

End Demo.

(** ** What the methods amount to

    Each method written out as the calls it makes on a run, for the proofs
    to rewrite with, and the notions the properties are stated with. *)

Module Runs.
Section Runs.
Context {World : Type} `{Win32 World}.

(** The handle is open and the target has not exited: what [isAttached]
    answers. *)
Definition attached (r : Run World) : bool :=
  if m_processHandle (self r) =? 0 then false
  else match GetExitCodeProcess (world r) (m_processHandle (self r)) with
       | Some code => code =? STILL_ACTIVE
       | None => false
       end.

(** The failure path of every operation: the message is stored and one
    [errorOccurred] is emitted. *)
Definition failed (msg : string) (r : Run World) : Run World :=
  mkRun (world r)
    (mkEditor (m_processHandle (self r)) (m_processId (self r)) (m_processName (self r))
       msg (m_patternCache (self r)))
    (emitted r ++ [errorOccurred msg]) (calls r).

Definition signalled (s : Signal) (r : Run World) : Run World :=
  mkRun (world r) (self r) (emitted r ++ [s]) (calls r).

(** [writeProtectedMemory] as the calls it makes. *)
Definition protectedWrite (address : Z) (data : list byte) (r : Run World)
    : bool * Run World :=
  let h := m_processHandle (self r) in
  let n := vsize data in
  match VirtualProtectEx (world r) h address n PAGE_EXECUTE_READWRITE with
  | (None, w1) =>
      (false,
       mkRun w1
         (mkEditor h (m_processId (self r)) (m_processName (self r))
            "Failed to change memory protection" (m_patternCache (self r)))
         (emitted r)
         (calls r ++ [VirtualProtectEx_call address n PAGE_EXECUTE_READWRITE]))
  | (Some old, w1) =>
      let '((ok, written), w2) := WriteProcessMemory w1 h address data in
      let '(_, w3) := VirtualProtectEx w2 h address n old in
      (ok && (written =? n),
       mkRun w3 (self r) (emitted r)
         (calls r ++ [VirtualProtectEx_call address n PAGE_EXECUTE_READWRITE;
                      WriteProcessMemory_call address data;
                      VirtualProtectEx_call address n old]))
  end.

(** [writeByte] as the calls it makes. *)
Definition byteWrite (address : Z) (value : byte) (r : Run World) : bool * Run World :=
  if attached r then
    let h := m_processHandle (self r) in
    match VirtualProtectEx (world r) h address 1 PAGE_EXECUTE_READWRITE with
    | (None, w1) =>
        (false, mkRun w1 (self r) (emitted r)
                  (calls r ++ [VirtualProtectEx_call address 1 PAGE_EXECUTE_READWRITE]))
    | (Some old, w1) =>
        let '((ok, written), w2) := WriteProcessMemory w1 h address [value] in
        let '(_, w3) := VirtualProtectEx w2 h address 1 old in
        (ok && (written =? 1),
         mkRun w3 (self r) (emitted r)
           (calls r ++ [VirtualProtectEx_call address 1 PAGE_EXECUTE_READWRITE;
                        WriteProcessMemory_call address [value];
                        VirtualProtectEx_call address 1 old]))
    end
  else (false, r).

(** One resolution of a patch address: the cache first, else one scan of the
    module, whose result is cached when it found the signature. *)
Definition resolve (patch : Patch.t) (r : Run World) : Z * Run World :=
  match m_patternCache (self r) !! Patch.name patch with
  | Some address => (address, r)
  | None =>
      let scanned := calls r ++ [findPatternInModule_call (Patch.pattern patch)] in
      match PatternScanner.findPatternInModule (world r) (m_processHandle (self r))
              "ffxv_s.exe" (Patch.pattern patch) with
      | Some address =>
          (address,
           mkRun (world r)
             (mkEditor (m_processHandle (self r)) (m_processId (self r))
                (m_processName (self r)) (m_lastError (self r))
                (<[Patch.name patch := address]> (m_patternCache (self r))))
             (emitted r) scanned)
      | None => (0, mkRun (world r) (self r) (emitted r) scanned)
      end
  end.

(** [r'] follows [r] by one reported failure. *)
Definition reports_failure (r r' : Run World) : Prop :=
  exists msg, emitted r' = emitted r ++ [errorOccurred msg] /\ m_lastError (self r') = msg.

Definition is_error (s : Signal) : bool :=
  match s with errorOccurred _ => true | _ => false end.

Definition is_scan (c : Call) : bool :=
  match c with findPatternInModule_call _ => true | _ => false end.

(** How many scans of the module the run has started. *)
Definition scans (r : Run World) : nat := length (List.filter is_scan (calls r)).

(** From the words of the specification: a bulk operation goes through the
    collection in order, skips an item that is already in the target state
    (a success), runs the operation on every other item whether or not an
    earlier one failed, and answers whether all of them succeeded. *)
Fixpoint bulk {A} (inTarget : A -> bool) (op : A -> M World (bool * A)) (items : list A)
    : M World (bool * list A) :=
  match items with
  | [] => ret (true, [])
  | x :: rest => fun r =>
      let '((ok, x'), r1) := if inTarget x then ((true, x), r) else op x r in
      let '((oks, rest'), r2) := bulk inTarget op rest r1 in
      ((ok && oks, x' :: rest'), r2)
  end.

(** An operation reports its outcome: a success leaves the item in the
    target state and emits its own signal; a failure leaves the item as it
    was and emits one [errorOccurred]. *)
Definition reporting {A} (inTarget : A -> bool) (op : A -> M World (bool * A)) : Prop :=
  forall x r,
    match op x r with
    | ((true, x'), r') =>
        inTarget x' = true /\
        exists s, is_error s = false /\ emitted r' = emitted r ++ [s]
    | ((false, x'), r') =>
        x' = x /\ exists msg, emitted r' = emitted r ++ [errorOccurred msg]
    end.

End Runs.
End Runs.
(** ** The accessors of MemoryEditor *)

Module Accessors.
Section Accessors.
Context {World : Type}.

Definition getProcessName (r : Run World) : string := m_processName (self r).
Definition getProcessId (r : Run World) : Z := m_processId (self r).
Definition getLastError (r : Run World) : string := m_lastError (self r).

End Accessors.
End Accessors.

(** ** Notions for the module lookup *)

Module ModuleLookup.
Section ModuleLookup.
Context {World : Type} `{Win32 World}.

(** The module [hModule] carries the base name [moduleName], up to the case
    of the letters, and its information can be queried. *)
Definition is_module (w : World) (processHandle : Z) (moduleName : string)
    (hModule : Z) : bool :=
  match GetModuleBaseNameW w processHandle hModule with
  | Some modName =>
      wcsicmp_eq modName moduleName
      && match GetModuleInformation w processHandle hModule with
         | Some _ => true
         | None => false
         end
  | None => false
  end.

End ModuleLookup.
End ModuleLookup.

(** ** What belongs to a session *)

Module Session.
Section Session.
Context {World : Type}.

(** [r'] is a later state of the session of [r]: the same handle, process
    id and process name, and every address that was cached still cached. *)
Definition continues (r r' : Run World) : Prop :=
  m_processHandle (self r') = m_processHandle (self r) /\
  m_processId (self r') = m_processId (self r) /\
  m_processName (self r') = m_processName (self r) /\
  m_patternCache (self r) ⊆ m_patternCache (self r').

End Session.
End Session.

(** ** The bulk methods on vectors of pointers *)

Module ByPointer.
Section ByPointer.
Context {World : Type} `{Win32 World}.

(** [for (auto* x : items)] with a body that works on [*x].  The objects
    live in [objects], by address; the body sees the object a pointer
    points to as the iterations before it left it, and what the body
    leaves is the object from then on.  A vector may hold a pointer more
    than once.  The source dereferences every pointer of the vector; a
    pointer to no object is passed over here. *)
Fixpoint for_each_ptr {A} (body : A -> M World (bool * A)) (items : list nat)
    (objects : gmap nat A) (allSuccess : bool) : M World (bool * gmap nat A) :=
  match items with
  | [] => ret (allSuccess, objects)
  | p :: rest =>
      match objects !! p with
      | Some x =>
          bind (body x) (fun '(ok, x') =>
            for_each_ptr body rest (<[p := x']> objects)
              (if ok then allSuccess else false))
      | None => for_each_ptr body rest objects allSuccess
      end
  end.

Definition applyAllPatches (patches : list nat) (objects : gmap nat Patch.t)
    : M World (bool * gmap nat Patch.t) :=
  for_each_ptr (fun patch =>
    if negb (Patch.enabled patch) then Engine.applyPatch patch else ret (true, patch))
    patches objects true.

Definition removeAllPatches (patches : list nat) (objects : gmap nat Patch.t)
    : M World (bool * gmap nat Patch.t) :=
  for_each_ptr (fun patch =>
    if Patch.enabled patch then Engine.removePatch patch else ret (true, patch))
    patches objects true.

Definition enableAllUnlocks (items : list nat) (objects : gmap nat UnlockItem.t)
    : M World (bool * gmap nat UnlockItem.t) :=
  for_each_ptr (fun item =>
    if negb (UnlockItem.enabled item) then Engine.enableUnlock item else ret (true, item))
    items objects true.

Definition disableAllUnlocks (items : list nat) (objects : gmap nat UnlockItem.t)
    : M World (bool * gmap nat UnlockItem.t) :=
  for_each_ptr (fun item =>
    if UnlockItem.enabled item then Engine.disableUnlock item else ret (true, item))
    items objects true.

Definition enableAllBundles (bundles : list nat) (objects : gmap nat UnlockBundle.t)
    : M World (bool * gmap nat UnlockBundle.t) :=
  for_each_ptr (fun bundle =>
    if negb (UnlockBundle.enabled bundle) then Engine.enableBundle bundle
    else ret (true, bundle))
    bundles objects true.

Definition disableAllBundles (bundles : list nat) (objects : gmap nat UnlockBundle.t)
    : M World (bool * gmap nat UnlockBundle.t) :=
  for_each_ptr (fun bundle =>
    if UnlockBundle.enabled bundle then Engine.disableBundle bundle
    else ret (true, bundle))
    bundles objects true.

(** From the words of the specification: a bulk operation goes through the
    collection in order, skips an item that is already in the target state
    (a success), runs the operation on every other item whether or not an
    earlier one failed, and answers whether all of them succeeded and
    which items failed, in the order in which they failed. *)
Fixpoint bulk {A} (inTarget : A -> bool) (op : A -> M World (bool * A))
    (items : list nat) (objects : gmap nat A)
    : M World ((bool * list nat) * gmap nat A) :=
  match items with
  | [] => ret ((true, []), objects)
  | p :: rest => fun r =>
      match objects !! p with
      | None => bulk inTarget op rest objects r
      | Some x =>
          if inTarget x then bulk inTarget op rest objects r
          else
            let '((ok, x'), r1) := op x r in
            let '(((oks, failed), objects'), r2) :=
              bulk inTarget op rest (<[p := x']> objects) r1 in
            (((ok && oks, if ok then failed else p :: failed), objects'), r2)
      end
  end.

(** The object [p] points to is in the target state. *)
Definition in_target {A} (inTarget : A -> bool) (objects : gmap nat A) (p : nat) : bool :=
  match objects !! p with
  | Some x => inTarget x
  | None => false
  end.

(** A bulk operation on a vector of pointers to objects is best effort: it
    is [bulk]; its answer is [true] exactly when no item failed; the
    items that failed are items of the vector, in its order; an object
    the vector does not point to is left alone; an item that is not in
    the target state afterwards has failed, and on a vector without
    repetition the items that failed are exactly the items that are not
    in the target state afterwards; one [errorOccurred] was emitted for
    each failure. *)
Definition best_effort {A} (inTarget : A -> bool) (op : A -> M World (bool * A))
    (bulkOp : list nat -> gmap nat A -> M World (bool * gmap nat A)) : Prop :=
  forall items objects r,
    Forall (fun p => is_Some (objects !! p)) items ->
    let '(((ok, failed), objects'), r') := bulk inTarget op items objects r in
    bulkOp items objects r = ((ok, objects'), r') /\
    ok = bool_decide (failed = []) /\
    sublist failed items /\
    (forall q, ~ In q items -> objects' !! q = objects !! q) /\
    (forall q, is_Some (objects' !! q) <-> is_Some (objects !! q)) /\
    (forall p, In p items -> in_target inTarget objects' p = false -> In p failed) /\
    (List.NoDup items ->
     failed = List.filter (fun p => negb (in_target inTarget objects' p)) items) /\
    exists new,
      emitted r' = emitted r ++ new /\
      length (List.filter Runs.is_error new) = length failed.

End ByPointer.
End ByPointer.

(** ** More of the small target *)

Module Scenario.
Import Target.

(** An item that can be selected one by one. *)
Definition item : UnlockItem.t :=
  UnlockItem.mk "Decal" (Demo.base + 0x138) "Regalia decal" true false.

(** A window with the checkbox of that item (1, checked by the user), its
    category checkbox (2) and the master checkbox (3). *)
Definition window : MainWindow.t :=
  MainWindow.mk
    (<[1%nat := MainWindow.mkCheck true (Some 10%nat) (Some 2%nat)]>
       (<[2%nat := MainWindow.mkCheck false None None]>
          (<[3%nat := MainWindow.mkCheck false None None]> ∅)))
    (<[10%nat := item]> ∅)
    [(10%nat, 1%nat)] [2%nat] 3%nat.

(** The target with a second module loaded before the game's. *)
Definition two_modules : Machine :=
  mkMachine (snapshot Demo.machine) (grant Demo.machine) (last_error Demo.machine)
    (handles Demo.machine) (exit_code Demo.machine)
    ((0x7FF0000, ("ntdll.dll", (0x7FF0000, 0x100))) :: modules Demo.machine)
    (memory Demo.machine) (protection Demo.machine) (write_fault Demo.machine).

(** The target with a fault injected at the first flag of [Demo.bundle]:
    a write that covers this address fails. *)
Definition faulty : Machine :=
  mkMachine (snapshot Demo.machine) (grant Demo.machine) (last_error Demo.machine)
    (handles Demo.machine) (exit_code Demo.machine) (modules Demo.machine)
    (memory Demo.machine) (protection Demo.machine)
    (fun a => a =? Demo.base + 0x140).

(** The engine attached to that target. *)
Definition faulty_session : Run Machine :=
  mkRun faulty (mkEditor Demo.handle 4242 "ffxv_s.exe" "" ∅) [] [].

(** Two patches by address: the one whose signature is absent (1) and
    the patch of the jump (2). *)
Definition patches : gmap nat Patch.t :=
  <[1%nat := Demo.absent_patch]> (<[2%nat := Demo.nop_patch]> ∅).

End Scenario.

(** * Properties *)

(** ** The scanner *)

Module ScannerFacts.
Import PatternScanner.

Lemma vsize_nonneg {A} (v : list A) : 0 <= vsize v.
Proof. unfold vsize. lia. Qed.

Lemma drop_nth_cons (l : list byte) (n : nat) :
  (n < length l)%nat -> skipn n l = nth n l x00 :: skipn (S n) l.
Proof.
  revert n. induction l as [|b l IH]; intros n Hn; simpl in Hn.
  - lia.
  - destruct n as [|n]; simpl.
    + reflexivity.
    + apply IH. lia.
Qed.

(** The comparison loop accepts exactly when the signature is what the
    buffer holds from [offset + i] on. *)
Lemma matchBytes_spec (data : list byte) (offset : Z) (pattern : list byte) (i : Z) :
  0 <= offset + i -> offset + i + vsize pattern <= vsize data ->
  matchBytes data offset pattern i = true <->
  firstn (length pattern) (skipn (Z.to_nat (offset + i)) data) = pattern.
Proof.
  revert i. induction pattern as [|p rest IH]; intros i Hlo Hhi.
  - simpl. split; reflexivity.
  - unfold vsize in *. simpl length in *.
    rewrite (drop_nth_cons data (Z.to_nat (offset + i))) by lia.
    simpl. unfold at_index.
    destruct (Byte.eqb (nth (Z.to_nat (offset + i)) data x00) p) eqn:E; simpl.
    + apply Byte.byte_dec_bl in E. rewrite E.
      rewrite IH by lia.
      replace (Z.to_nat (offset + (i + 1))) with (S (Z.to_nat (offset + i))) by lia.
      split; [intros ->; reflexivity | intros Heq; injection Heq; auto].
    + apply Byte.eqb_false in E.
      split; [discriminate | intros Heq; injection Heq; intros; contradiction].
Qed.

(** A match is a match of the bytes, whatever the guard compared. *)
Lemma matchPattern_bytes (data : list byte) (dataSize : Z) (pattern : list byte) (i : Z) :
  matchPattern data dataSize pattern i = true -> matchBytes data i pattern 0 = true.
Proof.
  unfold matchPattern. destruct (_ >? _); [discriminate | auto].
Qed.

Lemma matchPattern_spec (data : list byte) (dataSize : Z) (pattern : list byte) (i : Z) :
  0 <= i -> i + vsize pattern < 2 ^ 64 -> dataSize <= vsize data ->
  matchPattern data dataSize pattern i = true <->
  i + vsize pattern <= dataSize /\
  firstn (length pattern) (skipn (Z.to_nat i) data) = pattern.
Proof.
  intros Hi Hsum Hsize. unfold matchPattern.
  assert (Hw : wrap64 (i + vsize pattern) = i + vsize pattern).
  { unfold wrap64. apply Z.mod_small. unfold vsize in *. lia. }
  rewrite Hw.
  destruct (i + vsize pattern >? dataSize) eqn:E.
  - apply Z.gtb_lt in E. split; [discriminate | lia].
  - assert (i + vsize pattern <= dataSize) by (rewrite Z.gtb_ltb in E; apply Z.ltb_ge in E; lia).
    pose proof (matchBytes_spec data i pattern 0) as M.
    rewrite Z.add_0_r in M. rewrite M by lia. tauto.
Qed.

(** The index loop returns the first index it accepts. *)
Lemma searchChunk_spec (buffer : list byte) (bytesRead : Z) (pattern : list byte)
    (count : nat) (i : Z) :
  match searchChunk buffer bytesRead pattern count i with
  | Some i' =>
      i <= i' < i + Z.of_nat count /\
      matchPattern buffer bytesRead pattern i' = true /\
      forall j, i <= j < i' -> matchPattern buffer bytesRead pattern j = false
  | None =>
      forall j, i <= j < i + Z.of_nat count ->
        matchPattern buffer bytesRead pattern j = false
  end.
Proof.
  revert i. induction count as [|count IH]; intros i; simpl searchChunk.
  - intros j Hj. lia.
  - destruct (matchPattern buffer bytesRead pattern i) eqn:E.
    + repeat split; try lia. exact E.
    + specialize (IH (i + 1)).
      destruct (searchChunk buffer bytesRead pattern count (i + 1)) as [i'|].
      * destruct IH as (Hr & Hm & Hb). repeat split; try lia; [exact Hm|].
        intros j Hj. destruct (Z.eq_dec j i) as [->|]; [exact E | apply Hb; lia].
      * intros j Hj. destruct (Z.eq_dec j i) as [->|]; [exact E | apply IH; lia].
Qed.

(** A window of a chunk is the window of the image at the same place. *)
Lemma chunk_window (image : list byte) (off n i p : nat) (stale : list byte) :
  (i + p <= n)%nat -> (off + n <= length image)%nat ->
  firstn p (skipn i (firstn n (skipn off image) ++ stale))
  = firstn p (skipn (off + i) image).
Proof.
  intros Hip Hn.
  assert (Hlen : length (firstn n (skipn off image)) = n).
  { rewrite length_firstn, length_skipn. lia. }
  rewrite skipn_app, firstn_app, length_skipn, Hlen.
  replace (i - n)%nat with 0%nat by lia.
  replace (p - (n - i))%nat with 0%nat by lia.
  simpl. rewrite app_nil_r.
  rewrite skipn_firstn_comm, firstn_firstn, skipn_skipn.
  f_equal; [lia | f_equal; lia].
Qed.

Section Scan.
Context {World : Type} `{Win32 World}.
Variables (w : World) (processHandle startAddress : Z) (image pattern : list byte).
Hypothesis Hpattern : pattern <> [].
Hypothesis Hstart : 0 <= startAddress.
Hypothesis Hend : startAddress + vsize image <= 2 ^ 64.
Hypothesis Hroom : vsize image + CHUNK_SIZE <= 2 ^ 64.
Hypothesis Hread : readable_range w processHandle startAddress image.

Lemma occurs_at_bound k : occurs_at image pattern k -> k + vsize pattern <= vsize image.
Proof.
  intros [Hk Heq]. apply (f_equal (@length byte)) in Heq.
  rewrite length_firstn, length_skipn in Heq.
  assert (length pattern <> 0%nat) by (rewrite length_zero_iff_nil; exact Hpattern).
  unfold vsize. lia.
Qed.

(** The chunk loop: when no occurrence lies below [offset], the loop
    returns the lowest occurrence of the whole image. *)
Lemma scanChunks_spec (fuel : nat) : forall (buffer : list byte) (offset : Z),
  0 <= offset ->
  vsize image <= offset + Z.of_nat fuel * CHUNK_SIZE ->
  (forall k, occurs_at image pattern k -> offset <= k) ->
  exists r,
    scanChunks fuel w processHandle startAddress (vsize image) pattern buffer offset = Some r
    /\ lowest_match image pattern startAddress r.
Proof.
  assert (HC : 0 < CHUNK_SIZE) by (unfold CHUNK_SIZE; lia).
  assert (HP : 0 < vsize pattern).
  { assert (length pattern <> 0%nat) by (rewrite length_zero_iff_nil; exact Hpattern).
    unfold vsize. lia. }
  induction fuel as [|fuel IH]; intros buffer offset Hoff Hfuel Hbelow.
  - simpl. destruct (offset <? vsize image) eqn:E; [apply Z.ltb_lt in E; lia|].
    apply Z.ltb_ge in E. exists None. split; [reflexivity|].
    intros k Hk. pose proof (occurs_at_bound k Hk). specialize (Hbelow k Hk). lia.
  - simpl scanChunks. destruct (offset <? vsize image) eqn:E.
    2:{ apply Z.ltb_ge in E. exists None. split; [reflexivity|].
        intros k Hk. pose proof (occurs_at_bound k Hk). specialize (Hbelow k Hk). lia. }
    apply Z.ltb_lt in E.
    set (n := Z.min (CHUNK_SIZE + vsize pattern) (vsize image - offset)).
    assert (Hn : 0 < n /\ offset + n <= vsize image) by (unfold n; lia).
    assert (Hw1 : wrap64 (startAddress + offset) = startAddress + offset).
    { unfold wrap64. apply Z.mod_small. lia. }
    assert (Hw2 : wrap64 (offset + CHUNK_SIZE) = offset + CHUNK_SIZE).
    { unfold wrap64. apply Z.mod_small. lia. }
    rewrite Hw1, Hw2, (Hread offset n) by lia.
    set (data := firstn (Z.to_nat n) (skipn (Z.to_nat offset) image)).
    assert (Hdata : vsize data = n).
    { unfold data, vsize in *. rewrite length_firstn, length_skipn. lia. }
    assert (Hfill : vsize data <= vsize (fill buffer data)).
    { unfold fill, vsize. rewrite length_app. lia. }
    (* a window of the buffer is a window of the image *)
    assert (Hwin : forall i, 0 <= i -> i + vsize pattern < 2 ^ 64 ->
      matchPattern (fill buffer data) (vsize data) pattern i = true <->
      i + vsize pattern <= n /\ occurs_at image pattern (offset + i)).
    { intros i Hi Hsum. rewrite matchPattern_spec by lia. rewrite Hdata.
      unfold occurs_at. split.
      - intros [Hb Heq]. split; [exact Hb|]. split; [lia|].
        rewrite <- Heq at 2. unfold fill, data, vsize in *.
        rewrite chunk_window by lia. f_equal. f_equal. lia.
      - intros [Hb [_ Heq]]. split; [exact Hb|].
        rewrite <- Heq at 2. unfold fill, data, vsize in *.
        rewrite chunk_window by lia. f_equal. f_equal. lia. }
    pose proof (searchChunk_spec (fill buffer data) (vsize data) pattern
                  (Z.to_nat (vsize data - vsize pattern + 1)) 0) as Hs.
    destruct (searchChunk (fill buffer data) (vsize data) pattern
                (Z.to_nat (vsize data - vsize pattern + 1)) 0) as [i|].
    + destruct Hs as (Hr & Hm & Hfirst).
      apply Hwin in Hm; [|lia|lia]. destruct Hm as [Hb Hocc].
      exists (Some (wrap64 (startAddress + offset + i))). split; [reflexivity|].
      exists (offset + i). split; [|split; [exact Hocc|]].
      * unfold wrap64. rewrite Z.mod_small by lia. lia.
      * intros j Hj. specialize (Hbelow j Hj).
        destruct (Z_lt_le_dec j (offset + i)) as [Hlt|]; [|lia].
        exfalso. specialize (Hfirst (j - offset) ltac:(lia)).
        assert (matchPattern (fill buffer data) (vsize data) pattern (j - offset) = true).
        { apply Hwin; [lia|lia|]. split; [lia|].
          replace (offset + (j - offset)) with j by lia. exact Hj. }
        congruence.
    + apply IH; [lia | lia |].
      intros k Hk. specialize (Hbelow k Hk). pose proof (occurs_at_bound k Hk) as Hkb.
      destruct (Z_lt_le_dec k (offset + CHUNK_SIZE)) as [Hlt|]; [|lia].
      exfalso.
      assert (Hkn : (k - offset) + vsize pattern <= n) by (unfold n; lia).
      specialize (Hs (k - offset) ltac:(lia)).
      assert (matchPattern (fill buffer data) (vsize data) pattern (k - offset) = true).
      { apply Hwin; [lia|lia|]. split; [lia|].
        replace (offset + (k - offset)) with k by lia. exact Hk. }
      congruence.
Qed.

End Scan.
End ScannerFacts.

(** *** C4 *)

Module ScannerTheorems.
Import PatternScanner ScannerFacts.

(** The chunk loop returns within [chunkCount] iterations whenever the range
    leaves room for one more chunk below [2 ^ 64], whatever the reads do. *)
Lemma scanChunks_returns {World} `{Win32 World} (w : World) (h start size : Z)
    (pattern : list byte) (fuel : nat) :
  forall (buffer : list byte) (offset : Z),
  0 <= offset -> size + CHUNK_SIZE <= 2 ^ 64 ->
  size <= offset + Z.of_nat fuel * CHUNK_SIZE ->
  scanChunks fuel w h start size pattern buffer offset <> None.
Proof.
  assert (HC : 0 < CHUNK_SIZE) by (unfold CHUNK_SIZE; lia).
  induction fuel as [|fuel IH]; intros buffer offset Hoff Hroom Hfuel; simpl.
  - destruct (offset <? size) eqn:E; [apply Z.ltb_lt in E; lia | discriminate].
  - destruct (offset <? size) eqn:E; [|discriminate].
    apply Z.ltb_lt in E.
    assert (Hw : wrap64 (offset + CHUNK_SIZE) = offset + CHUNK_SIZE).
    { unfold wrap64. apply Z.mod_small. lia. }
    rewrite Hw.
    destruct (ReadProcessMemory w h (wrap64 (start + offset)) _) as [data|].
    + destruct (searchChunk _ _ _ _ _); [discriminate | apply IH; lia].
    + apply IH; lia.
Qed.

Lemma chunkCount_enough (size : Z) :
  0 <= size -> size <= 0 + Z.of_nat (chunkCount size) * CHUNK_SIZE.
Proof.
  intros Hsize. unfold chunkCount.
  assert (HC : 0 < CHUNK_SIZE) by (unfold CHUNK_SIZE; lia).
  pose proof (Z.div_pos size CHUNK_SIZE Hsize HC).
  rewrite Z2Nat.id by lia.
  pose proof (Z.mul_succ_div_gt size CHUNK_SIZE HC). lia.
Qed.

(** [findPattern] returns for every module size a [DWORD] can hold. *)
Lemma findPattern_returns {World} `{Win32 World} (w : World) (h start size : Z)
    (pattern : list byte) :
  0 <= size -> size + CHUNK_SIZE <= 2 ^ 64 ->
  findPattern w h start size pattern <> None.
Proof.
  intros Hsize Hroom. unfold findPattern.
  destruct ((h =? 0) || (vsize pattern =? 0)); [discriminate|].
  apply scanChunks_returns; [lia | exact Hroom | apply chunkCount_enough; exact Hsize].
Qed.

Lemma findModule_size {World} `{Win32 World} (w : World) (h : Z) (moduleName : string)
    (modules : list Z) (baseAddress moduleSize : Z) :
  findModule w h moduleName modules = Some (baseAddress, moduleSize) ->
  0 <= moduleSize < 2 ^ 32.
Proof.
  induction modules as [|m rest IH]; simpl; [discriminate|].
  destruct (GetModuleBaseNameW w h m) as [modName|]; [|exact IH].
  destruct (wcsicmp_eq modName moduleName); [|exact IH].
  destruct (GetModuleInformation w h m) as [[lpBaseOfDll SizeOfImage]|]; [|exact IH].
  intros [= _ <-]. unfold wrap32. apply Z.mod_pos_bound. lia.
Qed.

(** The scan of a module always returns: [findPatternInModule] is what
    [findPattern] returns on the range of the module. *)
Lemma findPatternInModule_returns {World} `{Win32 World} (w : World) (h : Z)
    (moduleName : string) (pattern : list byte) (baseAddress moduleSize : Z) :
  getModuleInfo w h moduleName = Some (baseAddress, moduleSize) ->
  findPattern w h baseAddress moduleSize pattern
  = Some (findPatternInModule w h moduleName pattern).
Proof.
  intros Hinfo. unfold findPatternInModule. rewrite Hinfo.
  assert (Hsize : 0 <= moduleSize < 2 ^ 32).
  { unfold getModuleInfo in Hinfo.
    destruct (EnumProcessModulesEx w h); [|discriminate].
    eapply findModule_size. exact Hinfo. }
  pose proof (findPattern_returns w h baseAddress moduleSize pattern) as Hr.
  destruct (findPattern w h baseAddress moduleSize pattern); [reflexivity|].
  exfalso. apply Hr; [lia | unfold CHUNK_SIZE; lia | reflexivity].
Qed.

(** C4.  On a readable range that holds [image], [findPattern] with a
    non-empty signature returns, and what it returns is the address of the
    lowest occurrence of the signature in the range, wherever that
    occurrence lies with respect to the 64 KiB chunks; it returns nothing
    exactly when the range holds no occurrence. *)
Theorem findPattern_lowest_match {World} `{Win32 World} (w : World)
    (processHandle startAddress : Z) (image pattern : list byte) :
  processHandle <> 0 -> pattern <> [] ->
  0 <= startAddress -> startAddress + vsize image <= 2 ^ 64 ->
  vsize image + CHUNK_SIZE <= 2 ^ 64 ->
  readable_range w processHandle startAddress image ->
  exists r,
    findPattern w processHandle startAddress (vsize image) pattern = Some r /\
    lowest_match image pattern startAddress r.
Proof.
  intros Hh Hp Hstart Hend Hroom Hread. unfold findPattern.
  assert (E1 : (processHandle =? 0) = false) by (apply Z.eqb_neq; exact Hh).
  assert (E2 : (vsize pattern =? 0) = false).
  { apply Z.eqb_neq. unfold vsize.
    assert (length pattern <> 0%nat) by (rewrite length_zero_iff_nil; exact Hp). lia. }
  rewrite E1, E2. simpl orb. cbv iota.
  apply scanChunks_spec; try assumption.
  - lia.
  - apply chunkCount_enough. apply vsize_nonneg.
  - intros k [Hk _]. exact Hk.
Qed.

End ScannerTheorems.

(** ** The engine over any implementation of the Win32 calls *)

Module EngineFacts.
Import Engine Runs.

Ltac run :=
  unfold bind, ret, fail, set_lastError, get_self, put_self, emit, log, query, call;
  cbn [fst snd world self emitted calls].

Section Generic.
Context {World : Type} `{Win32 World}.

Lemma isAttached_run (r : Run World) : isAttached r = (attached r, r).
Proof.
  unfold isAttached, attached. run.
  destruct (m_processHandle (self r) =? 0); [reflexivity|].
  destruct (GetExitCodeProcess (world r) (m_processHandle (self r))); reflexivity.
Qed.

Lemma fail_run (msg : string) (r : Run World) : fail msg r = (tt, failed msg r).
Proof. reflexivity. Qed.

Lemma writeProtectedMemory_run (address : Z) (data : list byte) (r : Run World) :
  writeProtectedMemory address data r = protectedWrite address data r.
Proof.
  unfold writeProtectedMemory, protectedWrite, setMemoryProtection, writeMemory. run.
  destruct (VirtualProtectEx (world r) _ address _ _) as [[old|] w1]; [|reflexivity].
  cbn [fst snd world self emitted calls].
  destruct (WriteProcessMemory w1 _ address data) as [[ok written] w2].
  cbn [fst snd world self emitted calls].
  destruct (VirtualProtectEx w2 _ address _ old) as [x w3].
  cbn [fst snd world self emitted calls].
  rewrite <- !app_assoc. reflexivity.
Qed.

Lemma writeByte_run (address : Z) (value : byte) (r : Run World) :
  writeByte address value r = byteWrite address value r.
Proof.
  unfold writeByte, byteWrite. unfold bind at 1. rewrite isAttached_run.
  destruct (attached r); [|reflexivity]. cbn [negb].
  unfold setMemoryProtection. run.
  destruct (VirtualProtectEx (world r) _ address _ _) as [[old|] w1]; [|reflexivity].
  cbn [fst snd world self emitted calls].
  destruct (WriteProcessMemory w1 _ address [value]) as [[ok written] w2].
  cbn [fst snd world self emitted calls].
  destruct (VirtualProtectEx w2 _ address _ old) as [x w3].
  cbn [fst snd world self emitted calls].
  rewrite <- !app_assoc. reflexivity.
Qed.


Lemma findPatternAddress_run (patch : Patch.t) (r : Run World) :
  findPatternAddress patch r = resolve patch r.
Proof.
  unfold findPatternAddress, resolve. run.
  destruct (m_patternCache (self r) !! Patch.name patch); [reflexivity|].
  destruct (PatternScanner.findPatternInModule _ _ _ _); reflexivity.
Qed.

Lemma applyPatch_run (patch : Patch.t) (r : Run World) :
  applyPatch patch r =
  if attached r then
    let (address, r1) := resolve patch r in
    if address =? 0 then
      ((false, patch), failed ("Pattern not found: " +:+ Patch.name patch) r1)
    else
      let (ok, r2) :=
        protectedWrite (wrap64 (address + Patch.offset patch)) (Patch.patched patch) r1 in
      if ok then
        ((true, Patch.set_enabled true patch), signalled (patchApplied (Patch.name patch)) r2)
      else ((false, patch), failed ("Failed to write patch: " +:+ Patch.name patch) r2)
  else ((false, patch), failed "Not attached to process" r).
Proof.
  unfold applyPatch. unfold bind at 1. rewrite isAttached_run.
  destruct (attached r); cbn [negb]; [|reflexivity].
  unfold bind at 1. rewrite findPatternAddress_run.
  destruct (resolve patch r) as [address r1].
  destruct (address =? 0); [reflexivity|].
  unfold bind at 1. rewrite writeProtectedMemory_run.
  destruct (protectedWrite _ _ r1) as [[|] r2]; reflexivity.
Qed.

(** The address [removePatch] uses: the cache first, else [findPatternAddress]. *)
Lemma removePatch_run (patch : Patch.t) (r : Run World) :
  removePatch patch r =
  if attached r then
    let (address, r1) := resolve patch r in
    if address =? 0 then
      ((false, patch), failed ("Cannot find patch location: " +:+ Patch.name patch) r1)
    else
      let (ok, r2) :=
        protectedWrite (wrap64 (address + Patch.offset patch)) (Patch.original patch) r1 in
      if ok then
        ((true, Patch.set_enabled false patch), signalled (patchRemoved (Patch.name patch)) r2)
      else
        ((false, patch), failed ("Failed to restore original bytes: " +:+ Patch.name patch) r2)
  else ((false, patch), failed "Not attached to process" r).
Proof.
  unfold removePatch. unfold bind at 1. rewrite isAttached_run.
  destruct (attached r); cbn [negb]; [|reflexivity].
  unfold bind at 1. unfold get_self at 1. unfold bind at 1.
  assert (E : (match m_patternCache (self r) !! Patch.name patch with
               | Some address => ret address
               | None => findPatternAddress patch
               end) r = resolve patch r).
  { destruct (m_patternCache (self r) !! Patch.name patch) eqn:Hc.
    - unfold resolve. rewrite Hc. reflexivity.
    - apply findPatternAddress_run. }
  rewrite E. destruct (resolve patch r) as [address r1].
  destruct (address =? 0); [reflexivity|].
  unfold bind at 1. rewrite writeProtectedMemory_run.
  destruct (protectedWrite _ _ r1) as [[|] r2]; reflexivity.
Qed.


Lemma enableUnlock_run (item : UnlockItem.t) (r : Run World) :
  enableUnlock item r =
  if attached r then
    let (ok, r1) := byteWrite (UnlockItem.address item) x01 r in
    if ok then
      ((true, UnlockItem.set_enabled true item),
       signalled (unlockEnabled (UnlockItem.name item)) r1)
    else ((false, item), failed ("Failed to enable unlock: " +:+ UnlockItem.name item) r1)
  else ((false, item), failed "Not attached to process" r).
Proof.
  unfold enableUnlock. unfold bind at 1. rewrite isAttached_run.
  destruct (attached r); cbn [negb]; [|reflexivity].
  unfold bind at 1. rewrite writeByte_run.
  destruct (byteWrite _ _ r) as [[|] r1]; reflexivity.
Qed.

Lemma disableUnlock_run (item : UnlockItem.t) (r : Run World) :
  disableUnlock item r =
  if attached r then
    let (ok, r1) := byteWrite (UnlockItem.address item) x00 r in
    if ok then
      ((true, UnlockItem.set_enabled false item),
       signalled (unlockDisabled (UnlockItem.name item)) r1)
    else ((false, item), failed ("Failed to disable unlock: " +:+ UnlockItem.name item) r1)
  else ((false, item), failed "Not attached to process" r).
Proof.
  unfold disableUnlock. unfold bind at 1. rewrite isAttached_run.
  destruct (attached r); cbn [negb]; [|reflexivity].
  unfold bind at 1. rewrite writeByte_run.
  destruct (byteWrite _ _ r) as [[|] r1]; reflexivity.
Qed.

Lemma enableBundle_run (bundle : UnlockBundle.t) (r : Run World) :
  enableBundle bundle r =
  if attached r then
    let (allSuccess, r1) :=
      for_each (fun addr => writeByte addr x01) (UnlockBundle.addresses bundle) true r in
    if allSuccess then
      ((true, UnlockBundle.set_enabled true bundle),
       signalled (bundleEnabled (UnlockBundle.name bundle)) r1)
    else
      ((false, bundle),
       failed ("Failed to enable bundle (partial): " +:+ UnlockBundle.name bundle) r1)
  else ((false, bundle), failed "Not attached to process" r).
Proof.
  unfold enableBundle. unfold bind at 1. rewrite isAttached_run.
  destruct (attached r); cbn [negb]; [|reflexivity].
  unfold bind at 1.
  destruct (for_each _ _ true r) as [[|] r1]; reflexivity.
Qed.

Lemma disableBundle_run (bundle : UnlockBundle.t) (r : Run World) :
  disableBundle bundle r =
  if attached r then
    let (allSuccess, r1) :=
      for_each (fun addr => writeByte addr x00) (UnlockBundle.addresses bundle) true r in
    if allSuccess then
      ((true, UnlockBundle.set_enabled false bundle),
       signalled (bundleDisabled (UnlockBundle.name bundle)) r1)
    else
      ((false, bundle),
       failed ("Failed to disable bundle (partial): " +:+ UnlockBundle.name bundle) r1)
  else ((false, bundle), failed "Not attached to process" r).
Proof.
  unfold disableBundle. unfold bind at 1. rewrite isAttached_run.
  destruct (attached r); cbn [negb]; [|reflexivity].
  unfold bind at 1.
  destruct (for_each _ _ true r) as [[|] r1]; reflexivity.
Qed.

Lemma detach_run (r : Run World) :
  detach r =
  if m_processHandle (self r) =? 0 then (tt, r)
  else
    (tt, mkRun (CloseHandle (world r) (m_processHandle (self r)))
           (mkEditor 0 0 "" (m_lastError (self r)) ∅)
           (emitted r ++ [processDetached])
           (calls r ++ [CloseHandle_call (m_processHandle (self r))])).
Proof.
  unfold detach. run. destruct (m_processHandle (self r) =? 0); reflexivity.
Qed.

(** *** What the low-level operations leave alone *)

Lemma resolve_frame (patch : Patch.t) (r : Run World) :
  world (snd (resolve patch r)) = world r /\
  emitted (snd (resolve patch r)) = emitted r /\
  m_processHandle (self (snd (resolve patch r))) = m_processHandle (self r).
Proof.
  unfold resolve. destruct (m_patternCache (self r) !! Patch.name patch); [auto|].
  destruct (PatternScanner.findPatternInModule _ _ _ _); auto.
Qed.

Lemma protectedWrite_emitted (address : Z) (data : list byte) (r : Run World) :
  emitted (snd (protectedWrite address data r)) = emitted r.
Proof.
  unfold protectedWrite.
  destruct (VirtualProtectEx (world r) _ address _ _) as [[old|] w1]; [|reflexivity].
  destruct (WriteProcessMemory w1 _ address data) as [[ok written] w2].
  destruct (VirtualProtectEx w2 _ address _ old) as [x w3]. reflexivity.
Qed.

Lemma byteWrite_frame (address : Z) (value : byte) (r : Run World) :
  emitted (snd (byteWrite address value r)) = emitted r /\
  self (snd (byteWrite address value r)) = self r.
Proof.
  unfold byteWrite. destruct (attached r); [|auto].
  destruct (VirtualProtectEx (world r) _ address _ _) as [[old|] w1]; [|auto].
  destruct (WriteProcessMemory w1 _ address [value]) as [[ok written] w2].
  destruct (VirtualProtectEx w2 _ address _ old) as [x w3]. auto.
Qed.

Lemma for_each_writeByte_frame (value : byte) (addresses : list Z) :
  forall (acc : bool) (r : Run World),
    emitted (snd (for_each (fun addr => writeByte addr value) addresses acc r)) = emitted r /\
    self (snd (for_each (fun addr => writeByte addr value) addresses acc r)) = self r.
Proof.
  induction addresses as [|a rest IH]; intros acc r; simpl.
  - auto.
  - unfold bind. rewrite writeByte_run.
    destruct (byteWrite a value r) as [ok r1] eqn:E.
    destruct (IH (if ok then acc else false) r1) as [He Hs].
    pose proof (byteWrite_frame a value r) as [He1 Hs1]. rewrite E in He1, Hs1.
    simpl in He1, Hs1. rewrite He, Hs. auto.
Qed.

End Generic.
End EngineFacts.

(** ** Patches: the flag follows the write *)

Module PatchTheorems.
Import Engine Runs EngineFacts.

Section Generic.
Context {World : Type} `{Win32 World}.




End Generic.
End PatchTheorems.

(** ** The pattern cache and the attach session *)

Module SessionTheorems.
Import Engine Runs EngineFacts.

Section Generic.
Context {World : Type} `{Win32 World}.

Lemma scans_app (r : Run World) (w : World) (me : MemoryEditor) (e : list Signal)
    (c : Call) :
  scans (mkRun w me e (calls r ++ [c])) = (scans r + (if is_scan c then 1 else 0))%nat.
Proof.
  unfold scans. simpl. rewrite List.filter_app, length_app. simpl.
  destruct (is_scan c); reflexivity.
Qed.

(** A resolution that found an address answers the next one from the cache. *)
Lemma resolve_again (patch : Patch.t) (r : Run World) :
  fst (resolve patch r) <> 0 ->
  resolve patch (snd (resolve patch r)) = resolve patch r.
Proof.
  unfold resolve at 1 3 4.
  destruct (m_patternCache (self r) !! Patch.name patch) as [a|] eqn:Hc.
  - intros _. simpl. unfold resolve. rewrite Hc. reflexivity.
  - destruct (PatternScanner.findPatternInModule _ _ _ _) as [a|]; simpl.
    + intros _. unfold resolve. simpl. rewrite lookup_insert_eq. reflexivity.
    + intros Hz. contradiction.
Qed.

Lemma attach_clears_run (processName : string) (r : Run World) (ok : bool)
    (r' : Run World) :
  attachToProcess processName r = (ok, r') -> ok = true ->
  m_patternCache (self r') = ∅.
Proof.
  unfold attachToProcess. unfold bind at 1. unfold get_self at 1.
  unfold bind at 1.
  destruct ((if negb (m_processHandle (self r) =? 0) then detach else ret ()) r)
    as [[] r0].
  unfold bind at 1. destruct (findProcessByName processName r0) as [pid r1].
  destruct (pid =? 0).
  - run. intros [= <- <-]. discriminate.
  - run. destruct (OpenProcess (world r1) pid) as [handle w1]. simpl.
    destruct (handle =? 0); simpl; intros [= <- <-]; [discriminate | reflexivity].
Qed.

Lemma attach_clears (processName : string) (r : Run World) :
  fst (attachToProcess processName r) = true ->
  m_patternCache (self (snd (attachToProcess processName r))) = ∅.
Proof.
  destruct (attachToProcess processName r) as [ok r'] eqn:E. simpl.
  apply (attach_clears_run processName r ok r' E).
Qed.

(** A resolution that finds nothing caches nothing: the next one scans
    again. *)
Lemma unresolved_rescans (patch : Patch.t) (r : Run World) :
  m_patternCache (self r) !! Patch.name patch = None ->
  PatternScanner.findPatternInModule (world r) (m_processHandle (self r)) "ffxv_s.exe"
    (Patch.pattern patch) = None ->
  let r1 := snd (findPatternAddress patch r) in
  fst (findPatternAddress patch r) = 0 /\
  self r1 = self r /\
  scans (snd (findPatternAddress patch r1)) = (scans r + 2)%nat.
Proof.
  intros Hc Hs. cbv zeta. rewrite !findPatternAddress_run.
  assert (E : resolve patch r
              = (0, mkRun (world r) (self r) (emitted r)
                      (calls r ++ [findPatternInModule_call (Patch.pattern patch)]))).
  { unfold resolve. rewrite Hc, Hs. reflexivity. }
  rewrite E. simpl. split; [reflexivity|]. split; [reflexivity|].
  unfold resolve. simpl. rewrite Hc, Hs. simpl.
  unfold scans. simpl. rewrite !List.filter_app, !length_app. simpl. lia.
Qed.

(** C9, as the code has it.  While attached, a second resolution of a
    patch whose first resolution found its address is answered from the
    cache without a scan, so the two together start at most one scan, and
    exactly one when the cache did not hold the name.  A resolution that
    does not find the signature caches nothing: the second resolution
    scans again, as does every later one.  [detach] empties the cache, and
    so does a successful [attachToProcess]; after a detach and a new
    attach the next resolution starts a scan. *)
Theorem cache_serves_second_resolution (patch : Patch.t) (r : Run World) :
  (fst (findPatternAddress patch r) <> 0 ->
     let r1 := snd (findPatternAddress patch r) in
     let r2 := snd (findPatternAddress patch r1) in
     fst (findPatternAddress patch r1) = fst (findPatternAddress patch r) /\
     calls r2 = calls r1 /\
     (scans r2 <= scans r + 1)%nat /\
     (m_patternCache (self r) !! Patch.name patch = None -> scans r2 = (scans r + 1)%nat)) /\
  (m_patternCache (self r) !! Patch.name patch = None ->
   PatternScanner.findPatternInModule (world r) (m_processHandle (self r)) "ffxv_s.exe"
     (Patch.pattern patch) = None ->
     let r1 := snd (findPatternAddress patch r) in
     let r2 := snd (findPatternAddress patch r1) in
     fst (findPatternAddress patch r) = 0 /\
     fst (findPatternAddress patch r1) = 0 /\
     m_patternCache (self r2) = m_patternCache (self r) /\
     calls r2 = calls r ++ [findPatternInModule_call (Patch.pattern patch);
                            findPatternInModule_call (Patch.pattern patch)] /\
     scans r2 = (scans r + 2)%nat) /\
  (m_processHandle (self r) <> 0 -> m_patternCache (self (snd (detach r))) = ∅) /\
  (forall processName,
     fst (attachToProcess processName r) = true ->
     m_patternCache (self (snd (attachToProcess processName r))) = ∅) /\
  (forall processName,
     m_processHandle (self r) <> 0 ->
     let r1 := snd (detach r) in
     fst (attachToProcess processName r1) = true ->
     let r2 := snd (attachToProcess processName r1) in
     calls (snd (findPatternAddress patch r2))
     = calls r2 ++ [findPatternInModule_call (Patch.pattern patch)]).
Proof.
  split; [|split; [|split; [|split]]].
  - rewrite !findPatternAddress_run. intros Hfound. cbn zeta.
    rewrite findPatternAddress_run, (resolve_again patch r Hfound).
    split; [reflexivity|]. split; [reflexivity|].
    unfold resolve in *.
    destruct (m_patternCache (self r) !! Patch.name patch) as [a|] eqn:Hc.
    + simpl. split; [lia | discriminate].
    + destruct (PatternScanner.findPatternInModule _ _ _ _) as [a|]; simpl in *.
      * rewrite scans_app. simpl. split; [lia | reflexivity].
      * contradiction.
  - intros Hc Hs. cbv zeta. rewrite !findPatternAddress_run.
    assert (E : resolve patch r
                = (0, mkRun (world r) (self r) (emitted r)
                        (calls r ++ [findPatternInModule_call (Patch.pattern patch)]))).
    { unfold resolve. rewrite Hc, Hs. reflexivity. }
    rewrite E. simpl. unfold resolve. simpl. rewrite Hc, Hs. simpl.
    split; [reflexivity|]. split; [reflexivity|]. split; [reflexivity|].
    split; [rewrite <- app_assoc; reflexivity|].
    unfold scans. simpl. rewrite !List.filter_app, !length_app. simpl. lia.
  - intros Hh. rewrite detach_run.
    destruct (m_processHandle (self r) =? 0) eqn:E; [apply Z.eqb_eq in E; contradiction|].
    reflexivity.
  - intros processName. apply attach_clears.
  - intros processName Hh r1 Hok r2.
    rewrite findPatternAddress_run. unfold resolve.
    unfold r2. rewrite (attach_clears processName r1 Hok), lookup_empty.
    destruct (PatternScanner.findPatternInModule _ _ _ _); reflexivity.
Qed.

(** C10.  [attachToProcess] on an engine that holds a handle closes that
    handle and empties the cache before it looks for the new process; when
    the attach then fails, the engine is left without a handle, that is,
    not attached. *)
Theorem attach_detaches_first (processName : string) (r : Run World) :
  m_processHandle (self r) <> 0 ->
  let '(ok, r') := attachToProcess processName r in
  exists laterCalls laterSignals,
    calls r' = calls r ++ CloseHandle_call (m_processHandle (self r)) :: laterCalls /\
    Forall (fun c => exists pid, c = OpenProcess_call pid) laterCalls /\
    emitted r' = emitted r ++ processDetached :: laterSignals /\
    m_patternCache (self r') = ∅ /\
    (ok = false ->
       m_processHandle (self r') = 0 /\ attached r' = false /\
       fst (isAttached r') = false).
Proof.
  intros Hh. unfold attachToProcess. unfold bind at 1. unfold get_self at 1.
  unfold bind at 1.
  assert (E : (m_processHandle (self r) =? 0) = false) by (apply Z.eqb_neq; exact Hh).
  rewrite E. cbn [negb]. rewrite detach_run, E.
  unfold bind at 1. unfold findProcessByName. run.
  destruct (CreateToolhelp32Snapshot _) as [entries|]; cbn [fst snd world self emitted calls].
  - destruct (firstProcess processName entries =? 0) eqn:Ep; simpl.
    + exists [], []. repeat split; auto.
    + destruct (OpenProcess _ _) as [handle w1]; simpl.
      destruct (handle =? 0) eqn:Eh; simpl.
      * apply Z.eqb_eq in Eh. subst handle.
        eexists [_], [_]. rewrite <- !app_assoc. simpl.
        repeat split; eauto.
      * eexists [_], [_]. rewrite <- !app_assoc. simpl.
        repeat split; eauto; discriminate.
  - simpl. eexists [], [_]. rewrite <- !app_assoc. simpl.
    repeat split; auto.
Qed.

End Generic.
End SessionTheorems.

(** ** Bulk operations *)

Module BulkTheorems.
Import Engine Runs EngineFacts.

Section Generic.
Context {World : Type} `{Win32 World}.

(** The loop of a bulk method is [bulk]; the flag it starts with is only
    ever cleared. *)
Lemma for_each_ref_bulk {A} (inTarget : A -> bool) (op body : A -> M World (bool * A)) :
  (forall x r, body x r = if inTarget x then ((true, x), r) else op x r) ->
  forall items acc r,
    for_each_ref body items acc r =
    let '((res, items'), r') := bulk inTarget op items r in ((acc && res, items'), r').
Proof.
  intros Hbody. induction items as [|x rest IH]; intros acc r; simpl.
  - unfold ret. rewrite andb_true_r. reflexivity.
  - unfold bind at 1. rewrite Hbody.
    destruct (if inTarget x then ((true, x), r) else op x r) as [[ok x'] r1].
    unfold bind at 1. rewrite IH.
    destruct (bulk inTarget op rest r1) as [[oks rest'] r2].
    unfold ret. destruct ok, acc; reflexivity.
Qed.

Lemma bulk_app {A} (inTarget : A -> bool) (op : A -> M World (bool * A))
    (before after : list A) (r : Run World) :
  bulk inTarget op (before ++ after) r =
  let '((ok1, before'), r1) := bulk inTarget op before r in
  let '((ok2, after'), r2) := bulk inTarget op after r1 in
  ((ok1 && ok2, before' ++ after'), r2).
Proof.
  revert r. induction before as [|x rest IH]; intros r; simpl.
  - unfold ret. destruct (bulk inTarget op after r) as [[ok2 after'] r2]. reflexivity.
  - destruct (if inTarget x then ((true, x), r) else op x r) as [[ok x'] r1].
    rewrite IH.
    destruct (bulk inTarget op rest r1) as [[ok1 rest'] r2].
    destruct (bulk inTarget op after r2) as [[ok2 after'] r3].
    rewrite andb_assoc. reflexivity.
Qed.

(** What a reporting operation gives when run in bulk. *)
Lemma bulk_reports {A} (inTarget : A -> bool) (op : A -> M World (bool * A)) :
  reporting inTarget op ->
  forall items r,
    match bulk inTarget op items r with
    | ((ok, items'), r') =>
        length items' = length items /\
        ok = forallb inTarget items' /\
        exists new,
          emitted r' = emitted r ++ new /\
          length (List.filter is_error new)
          = length (List.filter (fun x => negb (inTarget x)) items')
    end.
Proof.
  intros Hop. induction items as [|x rest IH]; intros r; simpl.
  - repeat split. exists []. rewrite app_nil_r. auto.
  - destruct (inTarget x) eqn:Ex.
    + specialize (IH r).
      destruct (bulk inTarget op rest r) as [[oks rest'] r2].
      destruct IH as (Hlen & Hok & new & He & Hcount).
      simpl. rewrite Ex. simpl. repeat split; [lia | exact Hok |].
      exists new. auto.
    + pose proof (Hop x r) as Hx.
      destruct (op x r) as [[ok x'] r1].
      specialize (IH r1).
      destruct (bulk inTarget op rest r1) as [[oks rest'] r2].
      destruct IH as (Hlen & Hok & new & He & Hcount).
      destruct ok.
      * destruct Hx as (Hx' & s & Hs & He1).
        simpl. rewrite Hx'. simpl. repeat split; [lia | exact Hok |].
        exists (s :: new). rewrite He, He1, <- app_assoc. simpl. rewrite Hs. auto.
      * destruct Hx as (-> & msg & He1).
        simpl. rewrite Ex. simpl. repeat split; [lia |].
        exists (errorOccurred msg :: new). rewrite He, He1, <- app_assoc. simpl.
        rewrite Hcount. auto.
Qed.

(** *** The six operations report their outcome *)

Lemma applyPatch_reporting : reporting Patch.enabled applyPatch.
Proof.
  intros patch r. rewrite applyPatch_run.
  destruct (attached r); [|split; [reflexivity | eexists; reflexivity]].
  pose proof (resolve_frame patch r) as (_ & He & _).
  destruct (resolve patch r) as [address r1]. simpl in He.
  destruct (address =? 0).
  { split; [reflexivity|]. eexists. simpl. rewrite He. reflexivity. }
  pose proof (protectedWrite_emitted (wrap64 (address + Patch.offset patch))
                (Patch.patched patch) r1) as Hw.
  destruct (protectedWrite _ _ r1) as [[|] r2]; simpl in Hw.
  - split; [reflexivity|]. eexists. split; [|simpl; rewrite Hw, He; reflexivity]. reflexivity.
  - split; [reflexivity|]. eexists. simpl. rewrite Hw, He. reflexivity.
Qed.

Lemma removePatch_reporting : reporting (fun p => negb (Patch.enabled p)) removePatch.
Proof.
  intros patch r. rewrite removePatch_run.
  destruct (attached r); [|split; [reflexivity | eexists; reflexivity]].
  pose proof (resolve_frame patch r) as (_ & He & _).
  destruct (resolve patch r) as [address r1]. simpl in He.
  destruct (address =? 0).
  { split; [reflexivity|]. eexists. simpl. rewrite He. reflexivity. }
  pose proof (protectedWrite_emitted (wrap64 (address + Patch.offset patch))
                (Patch.original patch) r1) as Hw.
  destruct (protectedWrite _ _ r1) as [[|] r2]; simpl in Hw.
  - split; [reflexivity|]. eexists. split; [|simpl; rewrite Hw, He; reflexivity]. reflexivity.
  - split; [reflexivity|]. eexists. simpl. rewrite Hw, He. reflexivity.
Qed.

Lemma enableUnlock_reporting : reporting UnlockItem.enabled enableUnlock.
Proof.
  intros item r. rewrite enableUnlock_run.
  destruct (attached r); [|split; [reflexivity | eexists; reflexivity]].
  pose proof (byteWrite_frame (UnlockItem.address item) x01 r) as [He _].
  destruct (byteWrite _ _ r) as [[|] r1]; simpl in He.
  - split; [reflexivity|]. eexists. split; [|simpl; rewrite He; reflexivity]. reflexivity.
  - split; [reflexivity|]. eexists. simpl. rewrite He. reflexivity.
Qed.

Lemma disableUnlock_reporting :
  reporting (fun i => negb (UnlockItem.enabled i)) disableUnlock.
Proof.
  intros item r. rewrite disableUnlock_run.
  destruct (attached r); [|split; [reflexivity | eexists; reflexivity]].
  pose proof (byteWrite_frame (UnlockItem.address item) x00 r) as [He _].
  destruct (byteWrite _ _ r) as [[|] r1]; simpl in He.
  - split; [reflexivity|]. eexists. split; [|simpl; rewrite He; reflexivity]. reflexivity.
  - split; [reflexivity|]. eexists. simpl. rewrite He. reflexivity.
Qed.

Lemma enableBundle_reporting : reporting UnlockBundle.enabled enableBundle.
Proof.
  intros bundle r. rewrite enableBundle_run.
  destruct (attached r); [|split; [reflexivity | eexists; reflexivity]].
  pose proof (for_each_writeByte_frame x01 (UnlockBundle.addresses bundle) true r) as [He _].
  destruct (for_each _ _ true r) as [[|] r1]; simpl in He.
  - split; [reflexivity|]. eexists. split; [|simpl; rewrite He; reflexivity]. reflexivity.
  - split; [reflexivity|]. eexists. simpl. rewrite He. reflexivity.
Qed.

Lemma disableBundle_reporting :
  reporting (fun b => negb (UnlockBundle.enabled b)) disableBundle.
Proof.
  intros bundle r. rewrite disableBundle_run.
  destruct (attached r); [|split; [reflexivity | eexists; reflexivity]].
  pose proof (for_each_writeByte_frame x00 (UnlockBundle.addresses bundle) true r) as [He _].
  destruct (for_each _ _ true r) as [[|] r1]; simpl in He.
  - split; [reflexivity|]. eexists. split; [|simpl; rewrite He; reflexivity]. reflexivity.
  - split; [reflexivity|]. eexists. simpl. rewrite He. reflexivity.
Qed.

(** *** The loops on vectors of pointers *)

(** The loop of a bulk method is [ByPointer.bulk], but for the list of the
    items that failed. *)
Lemma for_each_ptr_bulk {A} (inTarget : A -> bool) (op body : A -> M World (bool * A)) :
  (forall x r, body x r = if inTarget x then ((true, x), r) else op x r) ->
  forall items objects acc r,
    ByPointer.for_each_ptr body items objects acc r =
    let '(((ok, failed), objects'), r') := ByPointer.bulk inTarget op items objects r in
    ((acc && ok, objects'), r').
Proof.
  intros Hbody. induction items as [|p rest IH]; intros objects acc r; simpl.
  - unfold ret. rewrite andb_true_r. reflexivity.
  - destruct (objects !! p) as [x|] eqn:Hp; [|apply IH].
    unfold bind at 1. rewrite Hbody.
    destruct (inTarget x).
    + rewrite insert_id by exact Hp. apply IH.
    + destruct (op x r) as [[ok x'] r1]. rewrite IH.
      destruct (ByPointer.bulk inTarget op rest (<[p:=x']> objects) r1)
        as [[[oks failed] objects'] r2].
      destruct ok, acc; reflexivity.
Qed.

(** What a reporting operation gives when run over a vector of pointers. *)
Lemma bulk_ptr_reports {A} (inTarget : A -> bool) (op : A -> M World (bool * A)) :
  reporting inTarget op ->
  forall items objects r,
    Forall (fun p => is_Some (objects !! p)) items ->
    let '(((ok, failed), objects'), r') := ByPointer.bulk inTarget op items objects r in
    ok = bool_decide (failed = []) /\
    sublist failed items /\
    (forall q, ~ In q items -> objects' !! q = objects !! q) /\
    (forall q, is_Some (objects' !! q) <-> is_Some (objects !! q)) /\
    (forall p, In p items ->
       ByPointer.in_target inTarget objects' p = false -> In p failed) /\
    (List.NoDup items ->
     failed
     = List.filter (fun p => negb (ByPointer.in_target inTarget objects' p)) items) /\
    exists new,
      emitted r' = emitted r ++ new /\
      length (List.filter is_error new) = length failed.
Proof.
  intros Hop. induction items as [|p rest IH]; intros objects r Hvalid.
  - simpl. split; [reflexivity|]. split; [constructor|].
    split; [reflexivity|]. split; [reflexivity|].
    split; [intros p []|]. split; [reflexivity|].
    exists []. rewrite app_nil_r. auto.
  - apply Forall_cons_iff in Hvalid. destruct Hvalid as [[x Hx] Hrest].
    simpl. rewrite Hx.
    destruct (inTarget x) eqn:Ex.
    + specialize (IH objects r Hrest).
      destruct (ByPointer.bulk inTarget op rest objects r)
        as [[[oks failed] objects'] r2].
      destruct IH as (Hok & Hsub & Hframe & Hdom & Hleft & Hnodup & Hnew).
      assert (Hp : In p rest \/
                   ByPointer.in_target inTarget objects' p = true).
      { destruct (in_dec Nat.eq_dec p rest) as [Hin|Hout]; [left; exact Hin|].
        right. unfold ByPointer.in_target. rewrite (Hframe p Hout), Hx. exact Ex. }
      split; [exact Hok|]. split; [apply sublist_cons; exact Hsub|].
      split; [intros q Hq; apply Hframe; intros Hin; apply Hq; right; exact Hin|].
      split; [exact Hdom|]. split; [|split; [|exact Hnew]].
      * intros q [<-|Hq] Hout; [|apply Hleft; assumption].
        destruct Hp as [Hin|Hin]; [apply Hleft; assumption | congruence].
      * intros Hnd. apply NoDup_cons_iff in Hnd. destruct Hnd as [Hnotin Hnd].
        simpl. destruct Hp as [Hin|Hin]; [contradiction|].
        rewrite Hin. simpl. apply Hnodup. exact Hnd.
    + pose proof (Hop x r) as Hxr.
      destruct (op x r) as [[ok x'] r1].
      assert (Hrest1 : Forall (fun q => is_Some (<[p:=x']> objects !! q)) rest).
      { eapply Forall_impl; [exact Hrest|]. simpl. intros q Hq.
        destruct (decide (q = p)) as [->|Hne].
        - rewrite lookup_insert_eq. eexists. reflexivity.
        - rewrite lookup_insert_ne by congruence. exact Hq. }
      specialize (IH (<[p:=x']> objects) r1 Hrest1).
      destruct (ByPointer.bulk inTarget op rest (<[p:=x']> objects) r1)
        as [[[oks failed] objects'] r2].
      destruct IH as (Hok & Hsub & Hframe & Hdom & Hleft & Hnodup & new & Hnew & Hcount).
      assert (Hp : ~ In p rest -> objects' !! p = Some x').
      { intros Hout. rewrite (Hframe p Hout). apply lookup_insert_eq. }
      split; [|split; [|split; [|split; [|split; [|split]]]]].
      * destruct ok; simpl; [exact Hok | reflexivity].
      * destruct ok; [apply sublist_cons | apply sublist_skip]; exact Hsub.
      * intros q Hq. rewrite Hframe by (intros Hin; apply Hq; right; exact Hin).
        apply lookup_insert_ne. intros ->. apply Hq. left. reflexivity.
      * intros q. rewrite Hdom.
        destruct (decide (q = p)) as [->|Hne].
        -- rewrite lookup_insert_eq, Hx. split; intros _; eexists; reflexivity.
        -- rewrite lookup_insert_ne by congruence. reflexivity.
      * intros q Hq Hout.
        assert (Hcase : In q rest \/ (q = p /\ ~ In p rest)).
        { destruct (in_dec Nat.eq_dec q rest) as [Hin|Hnin]; [left; exact Hin|].
          right. destruct Hq as [<-|Hq]; [split; [reflexivity | exact Hnin]|].
          contradiction. }
        destruct Hcase as [Hin|[-> Hnin]].
        -- destruct ok; [|right]; apply Hleft; assumption.
        -- unfold ByPointer.in_target in Hout. rewrite (Hp Hnin) in Hout.
           destruct ok; [|left; reflexivity].
           destruct Hxr as [Hx' _]. congruence.
      * intros Hnd. apply NoDup_cons_iff in Hnd. destruct Hnd as [Hnotin Hnd].
        simpl. unfold ByPointer.in_target at 1. rewrite (Hp Hnotin).
        destruct ok.
        -- destruct Hxr as [Hx' _]. rewrite Hx'. simpl. apply Hnodup. exact Hnd.
        -- destruct Hxr as [-> _]. rewrite Ex. simpl. f_equal. apply Hnodup. exact Hnd.
      * destruct ok.
        -- destruct Hxr as (_ & s & Hs & He).
           exists (s :: new). rewrite Hnew, He, <- app_assoc. simpl. rewrite Hs. auto.
        -- destruct Hxr as (_ & msg & He).
           exists (errorOccurred msg :: new). rewrite Hnew, He, <- app_assoc. simpl.
           rewrite Hcount. auto.
Qed.

Lemma best_effort_ptr_intro {A} (inTarget : A -> bool) (op body : A -> M World (bool * A)) :
  (forall x r, body x r = if inTarget x then ((true, x), r) else op x r) ->
  reporting inTarget op ->
  ByPointer.best_effort inTarget op
    (fun items objects => ByPointer.for_each_ptr body items objects true).
Proof.
  intros Hbody Hop items objects r Hvalid.
  pose proof (bulk_ptr_reports inTarget op Hop items objects r Hvalid) as Hr.
  pose proof (for_each_ptr_bulk inTarget op body Hbody items objects true r) as He.
  destruct (ByPointer.bulk inTarget op items objects r) as [[[ok failed] objects'] r'].
  split; [exact He | exact Hr].
Qed.

(** On a vector of pointers to distinct objects the loop is the loop over
    the objects themselves: the same answer, the same run, each object
    left as [for_each_ref] hands it back, and the other objects as they
    were. *)
Lemma for_each_ptr_distinct {A} (body : A -> M World (bool * A)) (items : list nat) :
  forall (xs : list A) (objects : gmap nat A) (acc : bool) (r : Run World),
    List.NoDup items ->
    Forall2 (fun p x => objects !! p = Some x) items xs ->
    let '((ok, objects'), r') := ByPointer.for_each_ptr body items objects acc r in
    let '((ok2, xs'), r2) := for_each_ref body xs acc r in
    ok = ok2 /\ r' = r2 /\
    Forall2 (fun p x' => objects' !! p = Some x') items xs' /\
    (forall q, ~ In q items -> objects' !! q = objects !! q).
Proof.
  induction items as [|p rest IH]; intros xs objects acc r Hnd Hall.
  - apply Forall2_nil_inv_l in Hall. subst xs. simpl.
    repeat split; auto.
  - apply Forall2_cons_inv_l in Hall. destruct Hall as (x & xs0 & Hx & Hall & ->).
    apply NoDup_cons_iff in Hnd. destruct Hnd as [Hnotin Hnd].
    simpl. rewrite Hx. unfold bind.
    destruct (body x r) as [[ok x'] r1].
    assert (Hall1 : Forall2 (fun q y => <[p:=x']> objects !! q = Some y) rest xs0).
    { clear IH Hnd. induction Hall as [|q y rest0 ys Hy Hall IHall]; constructor.
      - rewrite lookup_insert_ne; [exact Hy|]. intros ->. apply Hnotin. left. reflexivity.
      - apply IHall. intros Hin. apply Hnotin. right. exact Hin. }
    specialize (IH xs0 (<[p:=x']> objects) (if ok then acc else false) r1 Hnd Hall1).
    destruct (ByPointer.for_each_ptr body rest (<[p:=x']> objects) _ r1)
      as [[res objects'] r'].
    destruct (for_each_ref body xs0 (if ok then acc else false) r1) as [[res2 xs'] r2].
    unfold ret. destruct IH as (-> & -> & Hf & Hframe).
    split; [reflexivity|]. split; [reflexivity|]. split.
    + constructor; [|exact Hf]. rewrite (Hframe p Hnotin). apply lookup_insert_eq.
    + intros q Hq. rewrite Hframe by (intros Hin; apply Hq; right; exact Hin).
      apply lookup_insert_ne. intros ->. apply Hq. left. reflexivity.
Qed.

(** C8.  Each of the six bulk operations, on any vector of pointers to
    objects, also one that holds a pointer more than once, goes through
    the vector in order, skips an item that is already in the target
    state without counting it as a failure, runs the operation on every
    other item also after a failure, and answers [true] exactly when no
    item failed.  The items that failed are told by the objects and the
    signals: an item that is not in the target state afterwards has
    failed, on a vector without repetition the items that failed are
    exactly those, and one [errorOccurred] was emitted for each failure;
    an object the vector does not point to is left alone. *)
Theorem bulk_operations_best_effort :
  ByPointer.best_effort Patch.enabled applyPatch ByPointer.applyAllPatches /\
  ByPointer.best_effort (fun p => negb (Patch.enabled p)) removePatch
    ByPointer.removeAllPatches /\
  ByPointer.best_effort UnlockItem.enabled enableUnlock ByPointer.enableAllUnlocks /\
  ByPointer.best_effort (fun i => negb (UnlockItem.enabled i)) disableUnlock
    ByPointer.disableAllUnlocks /\
  ByPointer.best_effort UnlockBundle.enabled enableBundle ByPointer.enableAllBundles /\
  ByPointer.best_effort (fun b => negb (UnlockBundle.enabled b)) disableBundle
    ByPointer.disableAllBundles.
Proof.
  split; [|split; [|split; [|split; [|split]]]].
  - apply best_effort_ptr_intro; [|apply applyPatch_reporting].
    intros x r. destruct (Patch.enabled x); reflexivity.
  - apply best_effort_ptr_intro; [|apply removePatch_reporting].
    intros x r. destruct (Patch.enabled x); reflexivity.
  - apply best_effort_ptr_intro; [|apply enableUnlock_reporting].
    intros x r. destruct (UnlockItem.enabled x); reflexivity.
  - apply best_effort_ptr_intro; [|apply disableUnlock_reporting].
    intros x r. destruct (UnlockItem.enabled x); reflexivity.
  - apply best_effort_ptr_intro; [|apply enableBundle_reporting].
    intros x r. destruct (UnlockBundle.enabled x); reflexivity.
  - apply best_effort_ptr_intro; [|apply disableBundle_reporting].
    intros x r. destruct (UnlockBundle.enabled x); reflexivity.
Qed.

Lemma applyAllPatches_bulk (patches : list Patch.t) (r : Run World) :
  applyAllPatches patches r = bulk Patch.enabled applyPatch patches r.
Proof.
  unfold applyAllPatches.
  rewrite (for_each_ref_bulk Patch.enabled applyPatch).
  - destruct (bulk Patch.enabled applyPatch patches r) as [[res items'] r']. reflexivity.
  - intros x r0. destruct (Patch.enabled x); reflexivity.
Qed.

(** C7, as the code has it.  [applyAllPatches] goes through the list in the
    given order and does not stop at a failure: when a patch of the list
    fails to apply, the patches after it are applied all the same, from
    the state the failed attempt left, and only the answer of the whole
    call becomes [false]. *)
Theorem applyAllPatches_continues_after_failure (before after : list Patch.t)
    (patch : Patch.t) (r : Run World) :
  let done := applyAllPatches before r in
  let attempt := applyPatch patch (snd done) in
  Patch.enabled patch = false ->
  fst (fst attempt) = false ->
  applyAllPatches (before ++ patch :: after) r =
  let rest := applyAllPatches after (snd attempt) in
  ((false, snd (fst done) ++ snd (fst attempt) :: snd (fst rest)), snd rest).
Proof.
  cbv zeta. rewrite !applyAllPatches_bulk, bulk_app.
  destruct (bulk Patch.enabled applyPatch before r) as [[ok0 before'] r0].
  intros Hen Hfail. simpl in *. rewrite Hen.
  destruct (applyPatch patch r0) as [[ok p'] r1]. simpl in Hfail. subst ok. simpl.
  destruct (bulk Patch.enabled applyPatch after r1) as [[oks after'] r2].
  rewrite andb_false_r. reflexivity.
Qed.

End Generic.
End BulkTheorems.

(** ** The engine on the reference model of the target *)

Module TargetFacts.
Import Target Engine Runs EngineFacts.

Lemma forallb_seqZ (f : Z -> bool) (m n : Z) :
  forallb f (seqZ m n) = true <-> forall k, m <= k < m + n -> f k = true.
Proof.
  rewrite forallb_forall. split; intros Hf k Hk.
  - apply Hf, list_elem_of_In, elem_of_seqZ. exact Hk.
  - apply Hf. apply list_elem_of_In, elem_of_seqZ in Hk. exact Hk.
Qed.

Lemma page_size_pos : 0 < PAGE_SIZE.
Proof. reflexivity. Qed.

Lemma last_page_ge (address size : Z) :
  0 < size -> first_page address <= last_page address size.
Proof.
  intros Hs. unfold first_page, last_page.
  apply Z.div_le_mono; [apply page_size_pos | lia].
Qed.

Lemma forallb_pages (f : Z -> bool) (address size : Z) :
  forallb f (pages address size) = true <->
  forall page, in_region address size page = true -> f page = true.
Proof.
  unfold pages, in_region. rewrite forallb_seqZ.
  split; intros Hf page Hp; apply Hf.
  - apply andb_true_iff in Hp. destruct Hp as [H1 H2].
    apply Z.leb_le in H1, H2. lia.
  - apply andb_true_iff. split; apply Z.leb_le; lia.
Qed.

Lemma in_region_first (address size : Z) :
  0 < size -> in_region address size (first_page address) = true.
Proof.
  intros Hs. unfold in_region. apply andb_true_iff.
  split; apply Z.leb_le; [lia | apply last_page_ge; exact Hs].
Qed.

(** A range of one byte lies in one page. *)
Lemma in_region_byte (address page : Z) :
  in_region address 1 page = true -> page = first_page address.
Proof.
  unfold in_region, last_page, first_page.
  replace (address + 1 - 1) with address by lia.
  intros Hp. apply andb_true_iff in Hp. destruct Hp as [H1 H2].
  apply Z.leb_le in H1, H2. lia.
Qed.

Lemma can_protect_parts (m : Machine) (h address size : Z) :
  can_protect m h address size = true ->
  valid m h = true /\ 0 < size /\ in_range address size = true /\
  forall page, in_region address size page = true -> committed m page = true.
Proof.
  unfold can_protect. rewrite !andb_true_iff, forallb_pages, Z.ltb_lt. tauto.
Qed.

(** Whether a range can be protected depends on the open handles and on
    which of its pages are committed. *)
Lemma can_protect_ext (m m' : Machine) (h address size : Z) :
  handles m' = handles m ->
  (forall page, in_region address size page = true ->
     committed m' page = committed m page) ->
  can_protect m' h address size = can_protect m h address size.
Proof.
  intros Hh Hc. unfold can_protect, valid. rewrite Hh. f_equal.
  destruct (forallb (committed m) (pages address size)) eqn:E.
  - apply forallb_pages. intros page Hp. rewrite Hc by exact Hp.
    revert page Hp. apply forallb_pages. exact E.
  - destruct (forallb (committed m') (pages address size)) eqn:E'; [|reflexivity].
    rewrite <- E. symmetry. apply forallb_pages. intros page Hp.
    rewrite <- Hc by exact Hp. revert page Hp. apply forallb_pages. exact E'.
Qed.

(** The three calls of a protected write, on the model: the first
    [VirtualProtectEx] decides whether anything happens; after it the write
    fails only on an injected fault; the restoring call succeeds and gives
    every page of the range the protection the first page had. *)
Lemma protect_write_restore (m : Machine) (h address : Z) (data : list byte) :
  match protect m h address (vsize data) PAGE_EXECUTE_READWRITE with
  | (None, m1) => m1 = m /\ can_protect m h address (vsize data) = false
  | (Some old, m1) =>
      can_protect m h address (vsize data) = true /\
      protection m (first_page address) = Some old /\
      let '((ok, written), m2) := write m1 h address data in
      let '(_, m3) := protect m2 h address (vsize data) old in
      ok && (written =? vsize data) = no_fault m address (vsize data) /\
      memory m3 = (if no_fault m address (vsize data)
                   then poke address data (memory m) else memory m) /\
      handles m3 = handles m /\ exit_code m3 = exit_code m /\
      write_fault m3 = write_fault m /\
      forall page,
        protection m3 page =
        if in_region address (vsize data) page then Some old else protection m page
  end.
Proof.
  unfold protect at 1.
  destruct (can_protect m h address (vsize data)) eqn:Hcan; [|auto].
  destruct (can_protect_parts _ _ _ _ Hcan) as (Hv & Hs & Hr & Hc).
  pose proof (Hc _ (in_region_first address (vsize data) Hs)) as Hfirst.
  unfold committed in Hfirst.
  destruct (protection m (first_page address)) as [old|] eqn:Hold; [|discriminate].
  split; [reflexivity|]. split; [reflexivity|].
  set (m1 := set_protection _ m).
  assert (Hw : forallb (writable m1) (pages address (vsize data)) = true).
  { apply forallb_pages. intros page Hp. unfold writable, m1. simpl.
    rewrite Hp. reflexivity. }
  unfold write. replace (valid m1 h) with (valid m h) by reflexivity.
  rewrite Hv, Hr, Hw. cbn [andb].
  replace (no_fault m1 address (vsize data)) with (no_fault m address (vsize data))
    by reflexivity.
  destruct (no_fault m address (vsize data)) eqn:Hf.
  - set (m2 := set_memory _ m1).
    assert (Hcan2 : can_protect m2 h address (vsize data) = true).
    { rewrite <- Hcan. apply can_protect_ext; [reflexivity|].
      intros page Hp. unfold committed, m2, m1. simpl. rewrite Hp.
      symmetry. apply Hc. exact Hp. }
    unfold protect. rewrite Hcan2. simpl. rewrite Z.eqb_refl.
    repeat split. intros page. destruct (in_region address (vsize data) page); reflexivity.
  - assert (Hcan2 : can_protect m1 h address (vsize data) = true).
    { rewrite <- Hcan. apply can_protect_ext; [reflexivity|].
      intros page Hp. unfold committed, m1. simpl. rewrite Hp.
      symmetry. apply Hc. exact Hp. }
    unfold protect. rewrite Hcan2. simpl.
    repeat split. intros page. destruct (in_region address (vsize data) page); reflexivity.
Qed.

Lemma attached_machine (r : Run Machine) :
  attached r
  = valid (world r) (m_processHandle (self r)) && (exit_code (world r) =? STILL_ACTIVE).
Proof.
  unfold attached. simpl. unfold valid.
  destruct (m_processHandle (self r) =? 0); [reflexivity|]. simpl.
  destruct (existsb _ _); reflexivity.
Qed.

(** [writeProtectedMemory] on the model. *)
Lemma protectedWrite_machine (address : Z) (data : list byte) (r : Run Machine) :
  let m := world r in
  let h := m_processHandle (self r) in
  let n := vsize data in
  let res := protectedWrite address data r in
  let m' := world (snd res) in
  fst res = can_protect m h address n && no_fault m address n /\
  (fst res = true -> self (snd res) = self r) /\
  m_processHandle (self (snd res)) = h /\
  m_patternCache (self (snd res)) = m_patternCache (self r) /\
  emitted (snd res) = emitted r /\
  handles m' = handles m /\ exit_code m' = exit_code m /\
  write_fault m' = write_fault m /\
  memory m' = (if fst res then poke address data (memory m) else memory m) /\
  (forall page,
     protection m' page =
     if can_protect m h address n && in_region address n page
     then protection m (first_page address) else protection m page) /\
  calls (snd res)
  = calls r ++
    VirtualProtectEx_call address n PAGE_EXECUTE_READWRITE ::
    (if can_protect m h address n
     then [WriteProcessMemory_call address data;
           VirtualProtectEx_call address n
             (default 0 (protection m (first_page address)))]
     else []).
Proof.
  cbv zeta. unfold protectedWrite.
  pose proof (protect_write_restore (world r) (m_processHandle (self r)) address data) as P.
  change (VirtualProtectEx (world r) (m_processHandle (self r)) address (vsize data)
            PAGE_EXECUTE_READWRITE)
    with (protect (world r) (m_processHandle (self r)) address (vsize data)
            PAGE_EXECUTE_READWRITE).
  destruct (protect (world r) _ address _ _) as [[old|] m1].
  - destruct P as (Hcan & Hold & P).
    change (WriteProcessMemory m1 (m_processHandle (self r)) address data)
      with (write m1 (m_processHandle (self r)) address data).
    destruct (write m1 _ address data) as [[ok written] m2].
    change (VirtualProtectEx m2 (m_processHandle (self r)) address (vsize data) old)
      with (protect m2 (m_processHandle (self r)) address (vsize data) old).
    destruct (protect m2 _ address _ old) as [x m3].
    destruct P as (Hok & Hmem & Hh & He & Hf & Hp).
    simpl. rewrite Hcan, Hold, Hok. simpl.
    repeat split; auto;
      try (intros page; rewrite Hp;
           destruct (in_region address (vsize data) page); reflexivity).
  - destruct P as [-> Hcan]. simpl. rewrite Hcan. simpl.
    repeat split; auto; discriminate.
Qed.

(** [writeByte] on the model: it succeeds exactly when [can_poke] says so,
    stores the byte then and nothing otherwise, and leaves every access
    right as it was. *)
Lemma byteWrite_machine (address : Z) (value : byte) (r : Run Machine) :
  let res := byteWrite address value r in
  fst res = can_poke r address /\
  self (snd res) = self r /\
  emitted (snd res) = emitted r /\
  same_access (world r) (world (snd res)) /\
  memory (world (snd res))
  = (if can_poke r address then poke address [value] (memory (world r))
     else memory (world r)) /\
  (attached r = true ->
   exists later,
     calls (snd res) = calls r ++
       VirtualProtectEx_call address 1 PAGE_EXECUTE_READWRITE :: later).
Proof.
  cbv zeta. unfold byteWrite, can_poke. rewrite attached_machine.
  destruct (valid (world r) (m_processHandle (self r))
            && (exit_code (world r) =? STILL_ACTIVE)) eqn:Ha.
  2:{ simpl. repeat split; auto. discriminate. }
  pose proof (protect_write_restore (world r) (m_processHandle (self r)) address [value]) as P.
  change (vsize [value]) with 1 in P.
  change (VirtualProtectEx (world r) (m_processHandle (self r)) address 1
            PAGE_EXECUTE_READWRITE)
    with (protect (world r) (m_processHandle (self r)) address 1 PAGE_EXECUTE_READWRITE).
  assert (Hnf : no_fault (world r) address 1 = negb (write_fault (world r) address)).
  { unfold no_fault. simpl. rewrite Z.add_0_l. apply andb_true_r. }
  destruct (protect (world r) _ address 1 _) as [[old|] m1].
  - destruct P as (Hcan & Hold & P).
    change (WriteProcessMemory m1 (m_processHandle (self r)) address [value])
      with (write m1 (m_processHandle (self r)) address [value]).
    destruct (write m1 _ address [value]) as [[ok written] m2].
    change (VirtualProtectEx m2 (m_processHandle (self r)) address 1 old)
      with (protect m2 (m_processHandle (self r)) address 1 old).
    destruct (protect m2 _ address 1 old) as [x m3].
    destruct P as (Hok & Hmem & Hh & He & Hf & Hp).
    simpl. rewrite Hcan, Hok, Hnf in *. simpl.
    repeat split; auto.
    + intros page. rewrite Hp.
      destruct (in_region address 1 page) eqn:Hr; [|reflexivity].
      apply in_region_byte in Hr. subst page. symmetry. exact Hold.
    + intros a. rewrite Hf. reflexivity.
    + intros _. eexists. reflexivity.
  - destruct P as [-> Hcan]. simpl. rewrite Hcan. simpl.
    repeat split; auto. intros _. eexists. reflexivity.
Qed.

End TargetFacts.

(** ** Round trip, protection and bundles on the reference model *)

Module TargetTheorems.
Import Target Engine Runs EngineFacts TargetFacts.

(** Reading back a range that was just stored gives the stored bytes. *)
Lemma bytes_at_poke (data : list byte) :
  forall (address : Z) (mem : Z -> byte),
    map (poke address data mem) (seqZ address (vsize data)) = data.
Proof.
  induction data as [|b rest IH]; intros address mem.
  - reflexivity.
  - assert (Hs : vsize (b :: rest) = Z.succ (vsize rest)) by (unfold vsize; simpl; lia).
    rewrite Hs, seqZ_cons by (unfold vsize; lia).
    rewrite Z.pred_succ. simpl map. f_equal.
    + unfold poke. rewrite Hs.
      replace ((address <=? address) && (address <? address + Z.succ (vsize rest)))
        with true.
      * rewrite Z.sub_diag. reflexivity.
      * symmetry. apply andb_true_iff. split; [apply Z.leb_le | apply Z.ltb_lt];
          unfold vsize; lia.
    + transitivity (map (poke (Z.succ address) rest mem)
                      (seqZ (Z.succ address) (vsize rest))); [|apply IH].
      apply map_ext_in. intros x Hx.
      apply list_elem_of_In, elem_of_seqZ in Hx.
      unfold poke. rewrite Hs.
      replace ((address <=? x) && (x <? address + Z.succ (vsize rest))) with true
        by (symmetry; apply andb_true_iff; split; [apply Z.leb_le | apply Z.ltb_lt]; lia).
      replace ((Z.succ address <=? x) && (x <? Z.succ address + vsize rest)) with true
        by (symmetry; apply andb_true_iff; split; [apply Z.leb_le | apply Z.ltb_lt]; lia).
      unfold at_index.
      replace (Z.to_nat (x - address)) with (S (Z.to_nat (x - Z.succ address))) by lia.
      reflexivity.
Qed.

Lemma resolve_cached (patch : Patch.t) {World} `{Win32 World} (r : Run World) :
  fst (resolve patch r) <> 0 ->
  m_patternCache (self (snd (resolve patch r))) !! Patch.name patch
  = Some (fst (resolve patch r)).
Proof.
  unfold resolve.
  destruct (m_patternCache (self r) !! Patch.name patch) as [a|] eqn:Hc.
  - intros _. exact Hc.
  - destruct (PatternScanner.findPatternInModule _ _ _ _) as [a|]; simpl.
    + intros _. apply lookup_insert_eq.
    + intros Hz. contradiction.
Qed.

(** C1.  When a patch with original and patched bytes of equal length has
    been applied with success, removing it succeeds too, writes at the very
    site the apply wrote to (the address comes from the cache, no scan is
    made), and leaves at that site exactly the original bytes. *)
Theorem apply_then_remove_restores (patch : Patch.t) (r : Run Machine) :
  vsize (Patch.original patch) = vsize (Patch.patched patch) ->
  fst (fst (applyPatch patch r)) = true ->
  let applied := applyPatch patch r in
  let removed := removePatch (snd (fst applied)) (snd applied) in
  exists address old,
    m_patternCache (self (snd applied)) !! Patch.name patch = Some address /\
    let site := wrap64 (address + Patch.offset patch) in
    In (WriteProcessMemory_call site (Patch.patched patch)) (calls (snd applied)) /\
    fst (fst removed) = true /\
    calls (snd removed)
    = calls (snd applied) ++
      [VirtualProtectEx_call site (vsize (Patch.original patch)) PAGE_EXECUTE_READWRITE;
       WriteProcessMemory_call site (Patch.original patch);
       VirtualProtectEx_call site (vsize (Patch.original patch)) old] /\
    bytes_at (world (snd removed)) site (vsize (Patch.original patch))
    = Patch.original patch /\
    Patch.enabled (snd (fst removed)) = false.
Proof.
  intros Hlen Hok. cbv zeta.
  destruct (applyPatch patch r) as [[ok p1] r'] eqn:Eapply. simpl in Hok. subst ok.
  rewrite applyPatch_run in Eapply.
  destruct (attached r) eqn:Hatt; [|discriminate].
  pose proof (resolve_frame patch r) as (Hw1 & _ & Hh1).
  pose proof (resolve_cached patch r) as Hcache.
  destruct (resolve patch r) as [address r1] eqn:Eres. simpl in Hw1, Hh1, Hcache.
  destruct (address =? 0) eqn:Ez; [discriminate|].
  apply Z.eqb_neq in Ez. specialize (Hcache Ez).
  set (site := wrap64 (address + Patch.offset patch)) in *.
  pose proof (protectedWrite_machine site (Patch.patched patch) r1) as W1.
  cbv zeta in W1.
  destruct (protectedWrite site (Patch.patched patch) r1) as [ok2 r2] eqn:Ew.
  destruct ok2; [|discriminate]. injection Eapply as <- <-.
  simpl in W1.
  destruct W1 as (Hcan & Hself & Hh2 & Hc2 & _ & Hhs & Hex & Hwf & _ & Hprot & Hcalls).
  specialize (Hself eq_refl).
  symmetry in Hcan. apply andb_true_iff in Hcan. destruct Hcan as [Hcan Hnf].
  rewrite Hcan in Hprot, Hcalls. simpl in Hprot.
  (* the state the removal starts from *)
  set (r3 := signalled (patchApplied (Patch.name patch)) r2).
  assert (Hatt3 : attached r3 = true).
  { rewrite attached_machine in *. unfold r3. simpl. unfold valid in *.
    rewrite Hself, Hhs, Hex, Hh1, Hw1. exact Hatt. }
  assert (Hres3 : resolve (Patch.set_enabled true patch) r3 = (address, r3)).
  { unfold resolve, r3. simpl. rewrite Hself, Hcache. reflexivity. }
  assert (Hcan3 : can_protect (world r3) (m_processHandle (self r3)) site
                    (vsize (Patch.original patch)) = true).
  { rewrite Hlen. unfold r3. simpl. rewrite Hself. rewrite <- Hcan.
    apply can_protect_ext; [exact Hhs|].
    intros page Hp. unfold committed. rewrite Hprot, Hp.
    destruct (can_protect_parts _ _ _ _ Hcan) as (_ & Hs & _ & Hc).
    pose proof (Hc _ (in_region_first site _ Hs)) as Hf.
    pose proof (Hc _ Hp) as Hpg. unfold committed in Hf, Hpg.
    destruct (protection (world r1) (first_page site)); [|discriminate].
    destruct (protection (world r1) page); [reflexivity | discriminate]. }
  assert (Hnf3 : no_fault (world r3) site (vsize (Patch.original patch)) = true).
  { rewrite Hlen. unfold r3, no_fault. simpl. rewrite Hwf. exact Hnf. }
  pose proof (protectedWrite_machine site (Patch.original patch) r3) as W3.
  cbv zeta in W3. rewrite Hcan3, Hnf3 in W3.
  simpl. rewrite removePatch_run. fold r3. rewrite Hatt3, Hres3.
  apply Z.eqb_neq in Ez. rewrite Ez. simpl Patch.offset. simpl Patch.original.
  fold site.
  destruct (protectedWrite site (Patch.original patch) r3) as [ok4 r4] eqn:Ew4.
  simpl in W3.
  destruct W3 as (Hok4 & _ & _ & _ & _ & _ & _ & _ & Hmem4 & _ & Hcalls4).
  subst ok4. simpl.
  exists address, (default 0 (protection (world r3) (first_page site))).
  split; [unfold r3; simpl; rewrite Hself; exact Hcache|].
  split; [unfold r3; simpl; rewrite Hcalls; apply in_or_app; right; simpl; auto|].
  split; [reflexivity|].
  split; [exact Hcalls4|].
  split; [|reflexivity].
  unfold bytes_at. rewrite Hmem4. apply bytes_at_poke.
Qed.

(** What C3 asks of the single-byte write holds: [writeByte] leaves the
    protection of every page as it was, whether or not the write failed. *)
Lemma writeByte_restores_protection (address : Z) (value : byte) (r : Run Machine)
    (page : Z) :
  protection (world (snd (writeByte address value r))) page = protection (world r) page.
Proof.
  rewrite writeByte_run.
  pose proof (byteWrite_machine address value r) as B. cbv zeta in B.
  destruct B as (_ & _ & _ & (_ & _ & Hp & _) & _). apply Hp.
Qed.

(** The multi-byte write does so when every page of the range had the
    protection of the first one, in particular when the range lies in one
    page. *)
Lemma writeProtectedMemory_restores_uniform (address : Z) (data : list byte)
    (r : Run Machine) (page : Z) :
  uniform (world r) address (vsize data) ->
  protection (world (snd (writeProtectedMemory address data r))) page
  = protection (world r) page.
Proof.
  intros Hu. rewrite writeProtectedMemory_run.
  pose proof (protectedWrite_machine address data r) as W. cbv zeta in W.
  destruct W as (_ & _ & _ & _ & _ & _ & _ & _ & _ & Hp & _).
  rewrite Hp.
  destruct (can_protect _ _ _ _ && in_region address (vsize data) page) eqn:E;
    [|reflexivity].
  apply andb_true_iff in E. destruct E as [_ E]. symmetry. apply Hu. exact E.
Qed.

(** C3, where the code departs from it.  A two-byte write on the last byte
    of the code page and the first byte of the data page behind it, made
    directly and through [applyPatch]: the write succeeds, and afterwards
    the data page is no longer [PAGE_READWRITE] but has the protection of
    the code page, the only one [VirtualProtectEx] handed back. *)
Theorem writeProtectedMemory_straddling_pages :
  protection (world Demo.session) 0x140001 = Some PAGE_READWRITE /\
  (let res := writeProtectedMemory (Demo.base + 0xFF) [x90; x90] Demo.session in
   fst res = true /\
   protection (world (snd res)) 0x140001 = Some PAGE_EXECUTE_READ) /\
  (let res := applyPatch Demo.edge_patch Demo.session in
   fst (fst res) = true /\
   In (WriteProcessMemory_call (Demo.base + 0xFF) [x90; x90]) (calls (snd res)) /\
   protection (world (snd res)) 0x140001 = Some PAGE_EXECUTE_READ).
Proof. vm_compute. repeat split; auto. Qed.

End TargetTheorems.

(** ** Bundles on the reference model *)

Module BundleTheorems.
Import Target Engine Runs EngineFacts TargetFacts.

Lemma forallb_pointwise {A} (f g : A -> bool) (l : list A) :
  (forall a, f a = g a) -> forallb f l = forallb g l.
Proof. intros Hfg. induction l as [|a l IH]; simpl; [|rewrite Hfg, IH]; reflexivity. Qed.

Lemma existsb_pointwise {A} (f g : A -> bool) (l : list A) :
  (forall a, f a = g a) -> existsb f l = existsb g l.
Proof. intros Hfg. induction l as [|a l IH]; simpl; [|rewrite Hfg, IH]; reflexivity. Qed.

Lemma can_poke_same (r r1 : Run Machine) :
  same_access (world r) (world r1) -> self r1 = self r ->
  forall a, can_poke r1 a = can_poke r a.
Proof.
  intros (Hh & He & Hp & Hf) Hs a. unfold can_poke.
  rewrite Hs, He, Hf.
  rewrite (can_protect_ext (world r) (world r1)).
  - unfold valid. rewrite Hh. reflexivity.
  - exact Hh.
  - intros page _. unfold committed. rewrite Hp. reflexivity.
Qed.

Lemma attached_same (r r1 : Run Machine) :
  same_access (world r) (world r1) -> self r1 = self r -> attached r1 = attached r.
Proof.
  intros (Hh & He & _) Hs. rewrite !attached_machine. unfold valid.
  rewrite Hs, Hh, He. reflexivity.
Qed.

Lemma same_access_trans (m1 m2 m3 : Machine) :
  same_access m1 m2 -> same_access m2 m3 -> same_access m1 m3.
Proof.
  intros (Hh & He & Hp & Hf) (Hh' & He' & Hp' & Hf').
  repeat split; intros; congruence.
Qed.

Lemma poke_byte (address : Z) (value : byte) (mem : Z -> byte) (a : Z) :
  poke address [value] mem a = if address =? a then value else mem a.
Proof.
  unfold poke. change (vsize [value]) with 1.
  destruct (address =? a) eqn:E.
  - apply Z.eqb_eq in E. subst a.
    rewrite Z.leb_refl, Z.sub_diag.
    replace (address <? address + 1) with true by (symmetry; apply Z.ltb_lt; lia).
    reflexivity.
  - apply Z.eqb_neq in E.
    destruct (address <=? a) eqn:E1; [|reflexivity].
    destruct (a <? address + 1) eqn:E2; [|reflexivity].
    apply Z.leb_le in E1. apply Z.ltb_lt in E2. lia.
Qed.

(** The loop of a bundle: every address is tried; the flag stays set only
    when every write succeeded; a byte that could be written is written,
    whatever happened at the other addresses. *)
Lemma for_each_writeByte_machine (value : byte) (addresses : list Z) :
  forall (acc : bool) (r : Run Machine),
    attached r = true ->
    let res := for_each (fun addr => writeByte addr value) addresses acc r in
    fst res = acc && forallb (can_poke r) addresses /\
    same_access (world r) (world (snd res)) /\
    (forall a,
       memory (world (snd res)) a =
       if existsb (fun x => (x =? a) && can_poke r x) addresses
       then value else memory (world r) a) /\
    (forall a, In a addresses ->
       In (VirtualProtectEx_call a 1 PAGE_EXECUTE_READWRITE) (calls (snd res))) /\
    exists later, calls (snd res) = calls r ++ later.
Proof.
  induction addresses as [|x rest IH]; intros acc r Hatt; cbv zeta.
  - simpl. rewrite andb_true_r. repeat split; auto.
    + intros a [].
    + exists []. rewrite app_nil_r. reflexivity.
  - simpl for_each. unfold bind. rewrite writeByte_run.
    pose proof (byteWrite_machine x value r) as B. cbv zeta in B.
    destruct (byteWrite x value r) as [ok r1]. simpl in B.
    destruct B as (Hok & Hself & _ & Hsame & Hmem & Hcall).
    destruct (Hcall Hatt) as [later1 Hcalls1].
    assert (Hatt1 : attached r1 = true).
    { rewrite (attached_same r r1 Hsame Hself). exact Hatt. }
    specialize (IH (if ok then acc else false) r1 Hatt1). cbv zeta in IH.
    destruct IH as (Hres & Hsame' & Hmem' & Hcalls' & later & Hlater).
    split; [|split; [|split; [|split]]].
    + rewrite Hres. simpl.
      rewrite (forallb_pointwise (can_poke r1) (can_poke r))
        by (intros a; apply can_poke_same; assumption).
      subst ok. destruct (can_poke r x), acc; reflexivity.
    + exact (same_access_trans _ _ _ Hsame Hsame').
    + intros a. rewrite Hmem'. simpl.
      assert (Hex : existsb (fun y => (y =? a) && can_poke r1 y) rest
                    = existsb (fun y => (y =? a) && can_poke r y) rest).
      { apply existsb_pointwise. intros y.
        rewrite (can_poke_same r r1 Hsame Hself). reflexivity. }
      rewrite Hex.
      destruct (existsb (fun y => (y =? a) && can_poke r y) rest).
      * rewrite orb_true_r. reflexivity.
      * rewrite orb_false_r, Hmem.
        destruct (can_poke r x); [|rewrite andb_false_r; reflexivity].
        rewrite poke_byte, andb_true_r. reflexivity.
    + intros a [<-|Ha].
      * rewrite Hlater, Hcalls1. apply in_or_app. left. apply in_or_app. right.
        left. reflexivity.
      * apply Hcalls'. exact Ha.
    + exists ((VirtualProtectEx_call x 1 PAGE_EXECUTE_READWRITE :: later1) ++ later).
      rewrite Hlater, Hcalls1, <- app_assoc. reflexivity.
Qed.

(** Not attached, a bundle operation stops before its loop: no call is
    made, the failure is reported and the bundle is handed back as it was. *)
Lemma bundle_needs_attachment {World} `{Win32 World} (bundle : UnlockBundle.t)
    (r : Run World) :
  attached r = false ->
  enableBundle bundle r = ((false, bundle), failed "Not attached to process" r) /\
  disableBundle bundle r = ((false, bundle), failed "Not attached to process" r).
Proof.
  intros Hatt. rewrite enableBundle_run, disableBundle_run, Hatt. auto.
Qed.

(** The calls of one [writeByte] on the model, while attached: the request
    to relax the protection, and, when it is granted, the write and the
    request that restores the protection. *)
Lemma byteWrite_calls_machine (address : Z) (value : byte) (r : Run Machine) :
  attached r = true ->
  calls (snd (byteWrite address value r))
  = calls r ++
    VirtualProtectEx_call address 1 PAGE_EXECUTE_READWRITE ::
    (if can_protect (world r) (m_processHandle (self r)) address 1
     then [WriteProcessMemory_call address [value];
           VirtualProtectEx_call address 1
             (default 0 (protection (world r) (first_page address)))]
     else []).
Proof.
  intros Hatt. unfold byteWrite. rewrite Hatt.
  pose proof (protect_write_restore (world r) (m_processHandle (self r)) address [value]) as P.
  change (vsize [value]) with 1 in P.
  change (VirtualProtectEx (world r) (m_processHandle (self r)) address 1
            PAGE_EXECUTE_READWRITE)
    with (protect (world r) (m_processHandle (self r)) address 1 PAGE_EXECUTE_READWRITE).
  destruct (protect (world r) _ address 1 _) as [[old|] m1].
  - destruct P as (Hcan & Hold & _). rewrite Hcan, Hold.
    destruct (WriteProcessMemory m1 _ address [value]) as [[ok written] m2].
    destruct (VirtualProtectEx m2 _ address 1 old) as [x m3]. reflexivity.
  - destruct P as [_ Hcan]. rewrite Hcan. reflexivity.
Qed.

(** In the loop of a bundle the write is called at every address at which
    the protection can be relaxed, whatever happened at the addresses
    before it. *)
Lemma for_each_writeByte_calls (value : byte) (addresses : list Z) :
  forall (acc : bool) (r : Run Machine),
    attached r = true ->
    forall a, In a addresses ->
      can_protect (world r) (m_processHandle (self r)) a 1 = true ->
      In (WriteProcessMemory_call a [value])
         (calls (snd (for_each (fun addr => writeByte addr value) addresses acc r))).
Proof.
  induction addresses as [|x rest IH]; intros acc r Hatt a Ha Hcan; [destruct Ha|].
  simpl for_each. unfold bind. rewrite writeByte_run.
  pose proof (byteWrite_machine x value r) as B. cbv zeta in B.
  pose proof (byteWrite_calls_machine x value r Hatt) as C.
  destruct (byteWrite x value r) as [ok r1]. simpl in B, C.
  destruct B as (_ & Hself & _ & Hsame & _).
  assert (Hatt1 : attached r1 = true).
  { rewrite (attached_same r r1 Hsame Hself). exact Hatt. }
  pose proof (for_each_writeByte_machine value rest (if ok then acc else false) r1 Hatt1)
    as F.
  cbv zeta in F. destruct F as (_ & _ & _ & _ & later & Hlater).
  destruct Ha as [<-|Ha].
  - rewrite Hlater, C, Hcan. apply in_or_app. left. apply in_or_app. right.
    right. left. reflexivity.
  - apply IH; [exact Hatt1 | exact Ha |].
    rewrite Hself. rewrite <- Hcan.
    destruct Hsame as (Hh & _ & Hp & _).
    apply can_protect_ext; [exact Hh|].
    intros page _. unfold committed. rewrite Hp. reflexivity.
Qed.

(** C5.  While attached, [enableBundle] goes through every address of the
    bundle: at each it asks for the relaxed protection and, where that is
    granted, calls the write of [1].  It answers [true] and marks the
    bundle enabled exactly when the byte could be written at every
    address; when it cannot be written at one of them it answers [false],
    reports the failure and leaves the flag as it was, and all the same
    every address of the bundle at which the byte can be written holds
    [1] afterwards, also an address that comes after the failing one;
    the other bytes of the target are as before.  [disableBundle] does the
    same with [0] and the flag cleared. *)
Theorem bundle_flag_needs_every_write (bundle : UnlockBundle.t) (r : Run Machine) :
  attached r = true ->
  (let '((ok, bundle'), r') := enableBundle bundle r in
   ok = forallb (can_poke r) (UnlockBundle.addresses bundle) /\
   (forall a, In a (UnlockBundle.addresses bundle) ->
      In (VirtualProtectEx_call a 1 PAGE_EXECUTE_READWRITE) (calls r') /\
      (can_protect (world r) (m_processHandle (self r)) a 1 = true ->
       In (WriteProcessMemory_call a [x01]) (calls r'))) /\
   (if ok
    then bundle' = UnlockBundle.set_enabled true bundle /\
         emitted r' = emitted r ++ [bundleEnabled (UnlockBundle.name bundle)]
    else bundle' = bundle /\ reports_failure r r') /\
   (forall a, In a (UnlockBundle.addresses bundle) -> can_poke r a = true ->
      memory (world r') a = x01) /\
   (forall a, ~ In a (UnlockBundle.addresses bundle) \/ can_poke r a = false ->
      memory (world r') a = memory (world r) a)) /\
  (let '((ok, bundle'), r') := disableBundle bundle r in
   ok = forallb (can_poke r) (UnlockBundle.addresses bundle) /\
   (forall a, In a (UnlockBundle.addresses bundle) ->
      In (VirtualProtectEx_call a 1 PAGE_EXECUTE_READWRITE) (calls r') /\
      (can_protect (world r) (m_processHandle (self r)) a 1 = true ->
       In (WriteProcessMemory_call a [x00]) (calls r'))) /\
   (if ok
    then bundle' = UnlockBundle.set_enabled false bundle /\
         emitted r' = emitted r ++ [bundleDisabled (UnlockBundle.name bundle)]
    else bundle' = bundle /\ reports_failure r r') /\
   (forall a, In a (UnlockBundle.addresses bundle) -> can_poke r a = true ->
      memory (world r') a = x00) /\
   (forall a, ~ In a (UnlockBundle.addresses bundle) \/ can_poke r a = false ->
      memory (world r') a = memory (world r) a)).
Proof.
  intros Hatt. rewrite enableBundle_run, disableBundle_run, Hatt.
  assert (Hin : forall a, In a (UnlockBundle.addresses bundle) -> can_poke r a = true ->
            existsb (fun x => (x =? a) && can_poke r x) (UnlockBundle.addresses bundle)
            = true).
  { intros a Ha Hp. apply existsb_exists. exists a. split; [exact Ha|].
    rewrite Z.eqb_refl, Hp. reflexivity. }
  assert (Hout : forall a,
            ~ In a (UnlockBundle.addresses bundle) \/ can_poke r a = false ->
            existsb (fun x => (x =? a) && can_poke r x) (UnlockBundle.addresses bundle)
            = false).
  { intros a Ha. apply not_true_is_false. intros He.
    apply existsb_exists in He. destruct He as (x & Hx & Hxa).
    apply andb_true_iff in Hxa. destruct Hxa as [Hxa Hp].
    apply Z.eqb_eq in Hxa. subst x.
    destruct Ha as [Ha|Ha]; [contradiction | congruence]. }
  split.
  - pose proof (for_each_writeByte_machine x01 (UnlockBundle.addresses bundle) true r Hatt)
      as F.
    pose proof (for_each_writeByte_calls x01 (UnlockBundle.addresses bundle) true r Hatt)
      as W.
    pose proof (for_each_writeByte_frame x01 (UnlockBundle.addresses bundle) true r)
      as [He Hs].
    cbv zeta in F.
    destruct (for_each _ _ true r) as [ok r1]. simpl in F, W, He, Hs.
    destruct F as (Hok & _ & Hmem & Hcalls & _). simpl in Hok.
    destruct ok; simpl.
    + repeat split; auto.
      * rewrite He. reflexivity.
      * intros a Ha Hp. rewrite Hmem, (Hin a Ha Hp). reflexivity.
      * intros a Ha. rewrite Hmem, (Hout a Ha). reflexivity.
    + repeat split; auto.
      * exists ("Failed to enable bundle (partial): " +:+ UnlockBundle.name bundle).
        simpl. rewrite He. auto.
      * intros a Ha Hp. rewrite Hmem, (Hin a Ha Hp). reflexivity.
      * intros a Ha. rewrite Hmem, (Hout a Ha). reflexivity.
  - pose proof (for_each_writeByte_machine x00 (UnlockBundle.addresses bundle) true r Hatt)
      as F.
    pose proof (for_each_writeByte_calls x00 (UnlockBundle.addresses bundle) true r Hatt)
      as W.
    pose proof (for_each_writeByte_frame x00 (UnlockBundle.addresses bundle) true r)
      as [He Hs].
    cbv zeta in F.
    destruct (for_each _ _ true r) as [ok r1]. simpl in F, W, He, Hs.
    destruct F as (Hok & _ & Hmem & Hcalls & _). simpl in Hok.
    destruct ok; simpl.
    + repeat split; auto.
      * rewrite He. reflexivity.
      * intros a Ha Hp. rewrite Hmem, (Hin a Ha Hp). reflexivity.
      * intros a Ha. rewrite Hmem, (Hout a Ha). reflexivity.
    + repeat split; auto.
      * exists ("Failed to disable bundle (partial): " +:+ UnlockBundle.name bundle).
        simpl. rewrite He. auto.
      * intros a Ha Hp. rewrite Hmem, (Hin a Ha Hp). reflexivity.
      * intros a Ha. rewrite Hmem, (Hout a Ha). reflexivity.
Qed.

End BundleTheorems.

(** ** Items that cannot be selected one by one *)

Module UnlockTheorems.
Import Target Engine Runs EngineFacts.

(** C6, against the engine.  The item is not selectable, and yet
    [enableUnlock] and [disableUnlock] make the protected write at its
    address and report success: the engine does not look at [selectable]. *)
Lemma enableUnlock_ignores_selectable :
  UnlockItem.selectable Demo.steam_item = false /\
  (let res := enableUnlock Demo.steam_item Demo.session in
   fst (fst res) = true /\
   In (WriteProcessMemory_call (UnlockItem.address Demo.steam_item) [x01])
      (calls (snd res)) /\
   memory (world Demo.session) (UnlockItem.address Demo.steam_item) = x00 /\
   memory (world (snd res)) (UnlockItem.address Demo.steam_item) = x01) /\
  (let res := disableUnlock Demo.steam_item Demo.session in
   fst (fst res) = true /\
   In (WriteProcessMemory_call (UnlockItem.address Demo.steam_item) [x00])
      (calls (snd res))).
Proof. vm_compute. repeat split; auto. Qed.

Section Generic.
Context {World : Type} `{Win32 World}.

(** C6, as the code has it.  The request for one item arrives in the slot
    [onIndividualUnlockToggled]; for an item that is not selectable the
    slot calls neither [enableUnlock] nor [disableUnlock]: the run of the
    engine is what it was (no call, no signal, no change of the target),
    the item keeps its flag, and the checkbox is put back to unchecked. *)
Theorem unselectable_toggle_is_dropped (ui : MainWindow.t) (box itemPtr : nat)
    (item : UnlockItem.t) (checked : bool) (r : Run World) :
  MainWindow.unlockItem <$> MainWindow.checkboxes ui !! box = Some (Some itemPtr) ->
  MainWindow.unlockItems ui !! itemPtr = Some item ->
  UnlockItem.selectable item = false ->
  let '(ui', r') := MainWindow.onIndividualUnlockToggled (Some box) checked ui r in
  r' = r /\
  MainWindow.unlockItems ui' = MainWindow.unlockItems ui /\
  (attached r = true -> MainWindow.checkedOf ui' box = false).
Proof.
  intros Hbox Hitem Hsel. unfold MainWindow.onIndividualUnlockToggled.
  unfold bind at 1. rewrite isAttached_run.
  destruct (attached r); cbn [negb].
  - rewrite Hbox, Hitem, Hsel. simpl. split; [reflexivity|]. split; [reflexivity|].
    intros _. unfold MainWindow.checkedOf, MainWindow.setChecked. simpl.
    rewrite lookup_alter_eq.
    destruct (MainWindow.checkboxes ui !! box); [reflexivity | discriminate].
  - simpl. split; [reflexivity|]. split; [reflexivity|]. discriminate.
Qed.

End Generic.
End UnlockTheorems.

(** ** The scanner on the reference model, and the small target at work *)

Module Examples.
Import Target Engine Runs EngineFacts TargetFacts.
Import PatternScanner ScannerFacts.

Lemma vsize_bytes_at (m : Machine) (address size : Z) :
  0 <= size -> vsize (bytes_at m address size) = size.
Proof.
  intros Hs. unfold vsize, bytes_at. rewrite length_map, length_seqZ. lia.
Qed.

(** A window of the bytes of a range is the bytes of the smaller range. *)
Lemma bytes_at_window (m : Machine) (address size off n : Z) :
  0 <= off -> 0 <= n -> off + n <= size ->
  firstn (Z.to_nat n) (skipn (Z.to_nat off) (bytes_at m address size))
  = bytes_at m (address + off) n.
Proof.
  intros Hoff Hn Hle. unfold bytes_at.
  replace size with (off + (n + (size - off - n))) by lia.
  rewrite seqZ_app, seqZ_app by lia. rewrite !map_app.
  rewrite drop_app_length' by (rewrite length_map, length_seqZ; reflexivity).
  rewrite take_app_length' by (rewrite length_map, length_seqZ; reflexivity).
  reflexivity.
Qed.

(** A committed, readable range of the model is a readable range in the
    sense of the scanner, and it holds the bytes of the memory. *)
Lemma machine_readable_range (m : Machine) (h start size : Z) :
  valid m h = true -> in_range start size = true -> 0 <= size ->
  forallb (readable m) (pages start size) = true ->
  readable_range m h start (bytes_at m start size).
Proof.
  intros Hv Hr Hs Hp off n Hoff Hn Hle.
  rewrite vsize_bytes_at in Hle by exact Hs.
  rewrite bytes_at_window by lia.
  change (ReadProcessMemory m h (start + off) n) with (read m h (start + off) n).
  unfold read. rewrite Hv.
  unfold in_range in *. apply andb_true_iff in Hr. destruct Hr as [H1 H2].
  apply Z.leb_le in H1, H2.
  replace (0 <=? start + off) with true by (symmetry; apply Z.leb_le; lia).
  replace (start + off + n <=? 2 ^ 64) with true by (symmetry; apply Z.leb_le; lia).
  replace (forallb (readable m) (pages (start + off) n)) with true; [reflexivity|].
  symmetry. apply forallb_pages. intros page Hin.
  rewrite forallb_pages in Hp. apply Hp.
  unfold in_region, first_page, last_page in *.
  apply andb_true_iff in Hin. destruct Hin as [Ha Hb].
  apply Z.leb_le in Ha, Hb.
  assert (start / PAGE_SIZE <= (start + off) / PAGE_SIZE)
    by (apply Z.div_le_mono; [apply page_size_pos | lia]).
  assert ((start + off + n - 1) / PAGE_SIZE <= (start + size - 1) / PAGE_SIZE)
    by (apply Z.div_le_mono; [apply page_size_pos | lia]).
  apply andb_true_iff. split; apply Z.leb_le; lia.
Qed.

(** The scenario of the specification on the small target: the scan finds
    [74 4F], the patch writes two [NOP]s there, reading them back gives
    [90 90], and removing the patch restores [74 4F]. *)
Example scenario_patch :
  findPatternInModule Demo.machine Demo.handle "ffxv_s.exe" [x74; x4f]
  = Some (Demo.base + 0x5C) /\
  (let applied := applyPatch Demo.nop_patch Demo.session in
   fst (fst applied) = true /\
   fst (readMemory (Demo.base + 0x5C) 2 (snd applied)) = [x90; x90] /\
   let removed := removePatch (snd (fst applied)) (snd applied) in
   fst (fst removed) = true /\
   fst (readMemory (Demo.base + 0x5C) 2 (snd removed)) = [x74; x4f]).
Proof. vm_compute. repeat split. Qed.

(** The scenario of the specification for an unlock item. *)
Example scenario_unlock :
  let item := UnlockItem.mk "item" (Demo.base + 0x138) "" true false in
  let on := enableUnlock item Demo.session in
  fst (fst on) = true /\
  fst (readByte (Demo.base + 0x138) (snd on)) = x01 /\
  let off := disableUnlock (snd (fst on)) (snd on) in
  fst (fst off) = true /\
  fst (readByte (Demo.base + 0x138) (snd off)) = x00.
Proof. vm_compute. repeat split. Qed.

(** C7, against the code.  The first patch of the list fails to apply (its
    signature is not in the module); the second one is applied all the
    same: it is enabled afterwards and its bytes are in the target. *)
Lemma applyAllPatches_applies_after_failure :
  let res := applyAllPatches [Demo.absent_patch; Demo.nop_patch] Demo.session in
  fst (fst (applyPatch Demo.absent_patch Demo.session)) = false /\
  fst (fst res) = false /\
  map Patch.enabled (snd (fst res)) = [false; true] /\
  bytes_at (world (snd res)) (Demo.base + 0x5C) 2 = [x90; x90].
Proof. vm_compute. repeat split. Qed.

(** C9, against the code.  Two resolutions of the same named patch in one
    session, for a patch whose signature the module does not hold: each
    of them scans the module, through [findPatternAddress] and through
    [applyPatch] alike, and the cache stays empty. *)
Lemma absent_signature_scanned_twice :
  fst (isAttached Demo.session) = true /\
  scans Demo.session = 0%nat /\
  (let r1 := snd (findPatternAddress Demo.absent_patch Demo.session) in
   let r2 := snd (findPatternAddress Demo.absent_patch r1) in
   calls r2 = [findPatternInModule_call [xde; xad]; findPatternInModule_call [xde; xad]] /\
   scans r2 = 2%nat /\
   m_patternCache (self r2) = ∅) /\
  (let r1 := snd (applyPatch Demo.absent_patch Demo.session) in
   let r2 := snd (applyPatch Demo.absent_patch r1) in
   m_processHandle (self r2) = m_processHandle (self Demo.session) /\
   scans r2 = 2%nat).
Proof. vm_compute. repeat split. Qed.

(** C2, where the code departs from it.  The patch whose two bytes lie on
    the last byte of the code page and the first byte of the data page:
    [applyPatch] answers [true], hands the patch back enabled and emits
    [patchApplied], its last call asks for the protection of the code
    page on both pages, and the data page, which was [PAGE_READWRITE], is
    left [PAGE_EXECUTE_READ]: the patch is enabled and the protection of
    that page has not been restored.  [removePatch] of the enabled patch
    does the same. *)
Lemma applyPatch_enables_with_protection_changed :
  protection (world Demo.session) 0x140000 = Some PAGE_EXECUTE_READ /\
  protection (world Demo.session) 0x140001 = Some PAGE_READWRITE /\
  (let res := applyPatch Demo.edge_patch Demo.session in
   fst (fst res) = true /\
   Patch.enabled (snd (fst res)) = true /\
   emitted (snd res) = [patchApplied "Edge"] /\
   calls (snd res)
   = [findPatternInModule_call [x74; x4f];
      VirtualProtectEx_call (Demo.base + 0xFF) 2 PAGE_EXECUTE_READWRITE;
      WriteProcessMemory_call (Demo.base + 0xFF) [x90; x90];
      VirtualProtectEx_call (Demo.base + 0xFF) 2 PAGE_EXECUTE_READ] /\
   protection (world (snd res)) 0x140000 = Some PAGE_EXECUTE_READ /\
   protection (world (snd res)) 0x140001 = Some PAGE_EXECUTE_READ) /\
  (let res := removePatch (Patch.set_enabled true Demo.edge_patch) Demo.session in
   fst (fst res) = true /\
   Patch.enabled (snd (fst res)) = false /\
   protection (world (snd res)) 0x140001 = Some PAGE_EXECUTE_READ).
Proof. vm_compute. repeat split. Qed.

(** The bundle of two flags on the target where the write at the first
    flag is made to fail: [enableBundle] answers [false], the bundle is
    not enabled, one error is reported, the write was called at both
    addresses, the first flag is still [0] and the second, which comes
    after the failure, holds [1]. *)
Example enableBundle_writes_after_failure :
  let res := enableBundle Demo.bundle Scenario.faulty_session in
  map (can_poke Scenario.faulty_session) (UnlockBundle.addresses Demo.bundle)
  = [false; true] /\
  fst (fst res) = false /\
  UnlockBundle.enabled (snd (fst res)) = false /\
  emitted (snd res) = [errorOccurred "Failed to enable bundle (partial): Twitch drop"] /\
  List.filter (fun c => match c with WriteProcessMemory_call _ _ => true | _ => false end)
    (calls (snd res))
  = [WriteProcessMemory_call (Demo.base + 0x140) [x01];
     WriteProcessMemory_call (Demo.base + 0x141) [x01]] /\
  memory (world (snd res)) (Demo.base + 0x140) = x00 /\
  memory (world (snd res)) (Demo.base + 0x141) = x01.
Proof. vm_compute. repeat split. Qed.

(** The bulk apply on vectors of pointers.  On the vector that points to
    the patch with the absent signature, to the patch of the jump and to
    the first again, the first patch is tried and fails twice, the patch
    of the jump is applied between the two, and the answer is [false].
    On the vector that points to the patch of the jump twice the patch is
    applied once and skipped the second time. *)
Example applyAllPatches_by_pointer :
  (let res := ByPointer.bulk Patch.enabled applyPatch [1; 2; 1]%nat Scenario.patches
                Demo.session in
   fst (fst res) = (false, [1; 1]%nat) /\
   fst (fst (ByPointer.applyAllPatches [1; 2; 1]%nat Scenario.patches Demo.session))
   = false /\
   map (ByPointer.in_target Patch.enabled (snd (fst res))) [1; 2]%nat = [false; true] /\
   emitted (snd res)
   = [errorOccurred "Pattern not found: Unlock 0"; patchApplied "Unlock 1";
      errorOccurred "Pattern not found: Unlock 0"]) /\
  (let res := ByPointer.applyAllPatches [2; 2]%nat Scenario.patches Demo.session in
   fst (fst res) = true /\
   emitted (snd res) = [patchApplied "Unlock 1"] /\
   ByPointer.in_target Patch.enabled (snd (fst res)) 2%nat = true).
Proof. vm_compute. repeat split. Qed.

End Examples.
(** ** The theorems at work on the small target *)

Module Witnesses.
Import Target Engine Runs EngineFacts TargetFacts Examples.

(** Witness for C4: the module of the small target, which is readable as a
    whole. *)
Lemma findPattern_lowest_match_witness :
  exists r,
    PatternScanner.findPattern Demo.machine Demo.handle Demo.base
      (vsize (bytes_at Demo.machine Demo.base 0x200)) [x74; x4f] = Some r /\
    PatternScanner.lowest_match (bytes_at Demo.machine Demo.base 0x200) [x74; x4f]
      Demo.base r.
Proof.
  apply ScannerTheorems.findPattern_lowest_match.
  - discriminate.
  - discriminate.
  - vm_compute. discriminate.
  - vm_compute. discriminate.
  - vm_compute. discriminate.
  - apply machine_readable_range; vm_compute; congruence.
Defined.

(** Witness for C1: the patch that replaces the jump by two [NOP]s. *)
Lemma apply_then_remove_restores_witness :
  let applied := applyPatch Demo.nop_patch Demo.session in
  let removed := removePatch (snd (fst applied)) (snd applied) in
  exists address old,
    m_patternCache (self (snd applied)) !! "Unlock 1" = Some address /\
    let site := wrap64 (address + 0) in
    In (WriteProcessMemory_call site [x90; x90]) (calls (snd applied)) /\
    fst (fst removed) = true /\
    calls (snd removed)
    = calls (snd applied) ++
      [VirtualProtectEx_call site 2 PAGE_EXECUTE_READWRITE;
       WriteProcessMemory_call site [x74; x4f];
       VirtualProtectEx_call site 2 old] /\
    bytes_at (world (snd removed)) site 2 = [x74; x4f] /\
    Patch.enabled (snd (fst removed)) = false.
Proof.
  apply (TargetTheorems.apply_then_remove_restores Demo.nop_patch Demo.session).
  - reflexivity.
  - vm_compute. reflexivity.
Defined.

(** Witness for C5: the bundle of two flags in the data page, on the
    target where the write at the first of them is made to fail. *)
Lemma bundle_flag_needs_every_write_witness :
  (let '((ok, bundle'), r') := enableBundle Demo.bundle Scenario.faulty_session in
   ok = forallb (can_poke Scenario.faulty_session) (UnlockBundle.addresses Demo.bundle) /\
   (forall a, In a (UnlockBundle.addresses Demo.bundle) ->
      In (VirtualProtectEx_call a 1 PAGE_EXECUTE_READWRITE) (calls r') /\
      (can_protect (world Scenario.faulty_session)
         (m_processHandle (self Scenario.faulty_session)) a 1 = true ->
       In (WriteProcessMemory_call a [x01]) (calls r'))) /\
   (if ok
    then bundle' = UnlockBundle.set_enabled true Demo.bundle /\
         emitted r' = emitted Scenario.faulty_session
                      ++ [bundleEnabled (UnlockBundle.name Demo.bundle)]
    else bundle' = Demo.bundle /\ reports_failure Scenario.faulty_session r') /\
   (forall a, In a (UnlockBundle.addresses Demo.bundle) ->
      can_poke Scenario.faulty_session a = true -> memory (world r') a = x01) /\
   (forall a, ~ In a (UnlockBundle.addresses Demo.bundle)
              \/ can_poke Scenario.faulty_session a = false ->
      memory (world r') a = memory (world Scenario.faulty_session) a)) /\
  (let '((ok, bundle'), r') := disableBundle Demo.bundle Scenario.faulty_session in
   ok = forallb (can_poke Scenario.faulty_session) (UnlockBundle.addresses Demo.bundle) /\
   (forall a, In a (UnlockBundle.addresses Demo.bundle) ->
      In (VirtualProtectEx_call a 1 PAGE_EXECUTE_READWRITE) (calls r') /\
      (can_protect (world Scenario.faulty_session)
         (m_processHandle (self Scenario.faulty_session)) a 1 = true ->
       In (WriteProcessMemory_call a [x00]) (calls r'))) /\
   (if ok
    then bundle' = UnlockBundle.set_enabled false Demo.bundle /\
         emitted r' = emitted Scenario.faulty_session
                      ++ [bundleDisabled (UnlockBundle.name Demo.bundle)]
    else bundle' = Demo.bundle /\ reports_failure Scenario.faulty_session r') /\
   (forall a, In a (UnlockBundle.addresses Demo.bundle) ->
      can_poke Scenario.faulty_session a = true -> memory (world r') a = x00) /\
   (forall a, ~ In a (UnlockBundle.addresses Demo.bundle)
              \/ can_poke Scenario.faulty_session a = false ->
      memory (world r') a = memory (world Scenario.faulty_session) a)).
Proof.
  refine (BundleTheorems.bundle_flag_needs_every_write Demo.bundle
            Scenario.faulty_session _).
  vm_compute. reflexivity.
Defined.

(** Witness for C6: the checkbox of the item that cannot be selected. *)
Lemma unselectable_toggle_is_dropped_witness :
  let '(ui', r') :=
    MainWindow.onIndividualUnlockToggled (Some 1%nat) true Demo.window Demo.session in
  r' = Demo.session /\
  MainWindow.unlockItems ui' = MainWindow.unlockItems Demo.window /\
  (attached Demo.session = true -> MainWindow.checkedOf ui' 1%nat = false).
Proof.
  refine (UnlockTheorems.unselectable_toggle_is_dropped Demo.window 1%nat 10%nat
            Demo.steam_item true Demo.session _ _ _).
  - vm_compute. reflexivity.
  - vm_compute. reflexivity.
  - reflexivity.
Defined.

(** Witness for C7: a list whose first patch fails to resolve. *)
Lemma applyAllPatches_continues_after_failure_witness :
  applyAllPatches ([] ++ Demo.absent_patch :: [Demo.nop_patch]) Demo.session =
  let done := applyAllPatches [] Demo.session in
  let attempt := applyPatch Demo.absent_patch (snd done) in
  let rest := applyAllPatches [Demo.nop_patch] (snd attempt) in
  ((false, snd (fst done) ++ snd (fst attempt) :: snd (fst rest)), snd rest).
Proof.
  refine (BulkTheorems.applyAllPatches_continues_after_failure [] [Demo.nop_patch]
            Demo.absent_patch Demo.session _ _).
  - reflexivity.
  - vm_compute. reflexivity.
Defined.

(** Witness for C9: the patch of the jump and the patch whose signature is
    absent, then a detach and a new attach. *)
Lemma cache_serves_second_resolution_witness :
  (let r1 := snd (findPatternAddress Demo.nop_patch Demo.session) in
   let r2 := snd (findPatternAddress Demo.nop_patch r1) in
   fst (findPatternAddress Demo.nop_patch r1)
   = fst (findPatternAddress Demo.nop_patch Demo.session) /\
   calls r2 = calls r1 /\
   scans r2 = (scans Demo.session + 1)%nat) /\
  (let r1 := snd (findPatternAddress Demo.absent_patch Demo.session) in
   let r2 := snd (findPatternAddress Demo.absent_patch r1) in
   fst (findPatternAddress Demo.absent_patch Demo.session) = 0 /\
   fst (findPatternAddress Demo.absent_patch r1) = 0 /\
   m_patternCache (self r2) = m_patternCache (self Demo.session) /\
   calls r2 = calls Demo.session
              ++ [findPatternInModule_call (Patch.pattern Demo.absent_patch);
                  findPatternInModule_call (Patch.pattern Demo.absent_patch)] /\
   scans r2 = (scans Demo.session + 2)%nat) /\
  m_patternCache (self (snd (detach Demo.session))) = ∅ /\
  (let r1 := snd (detach Demo.session) in
   let r2 := snd (attachToProcess "ffxv_s.exe" r1) in
   calls (snd (findPatternAddress Demo.nop_patch r2))
   = calls r2 ++ [findPatternInModule_call [x74; x4f]]).
Proof.
  destruct (SessionTheorems.cache_serves_second_resolution Demo.nop_patch Demo.session)
    as (A & _ & B & _ & D).
  destruct (SessionTheorems.cache_serves_second_resolution Demo.absent_patch Demo.session)
    as (_ & U & _).
  split; [|split; [|split]].
  - destruct A as (A1 & A2 & _ & A4); [vm_compute; discriminate|].
    split; [exact A1|]. split; [exact A2|]. apply A4. vm_compute. reflexivity.
  - apply U; vm_compute; reflexivity.
  - apply B. vm_compute. discriminate.
  - apply (D "ffxv_s.exe"); [vm_compute; discriminate | vm_compute; reflexivity].
Defined.

(** Witness for C10: an attach to a process that does not run. *)
Lemma attach_detaches_first_witness :
  let '(ok, r') := attachToProcess "notepad.exe" Demo.session in
  exists laterCalls laterSignals,
    calls r' = calls Demo.session
              ++ CloseHandle_call (m_processHandle (self Demo.session)) :: laterCalls /\
    Forall (fun c => exists pid, c = OpenProcess_call pid) laterCalls /\
    emitted r' = emitted Demo.session ++ processDetached :: laterSignals /\
    m_patternCache (self r') = ∅ /\
    (ok = false ->
       m_processHandle (self r') = 0 /\ attached r' = false /\
       fst (isAttached r') = false).
Proof.
  refine (SessionTheorems.attach_detaches_first "notepad.exe" Demo.session _).
  vm_compute. discriminate.
Defined.

(** Witness for C8: a vector that holds the pointer to the patch whose
    signature is absent twice, with the patch of the jump between. *)
Lemma bulk_operations_best_effort_witness :
  let '(((ok, failed), objects'), r') :=
    ByPointer.bulk Patch.enabled applyPatch [1; 2; 1]%nat Scenario.patches Demo.session in
  ByPointer.applyAllPatches [1; 2; 1]%nat Scenario.patches Demo.session
  = ((ok, objects'), r') /\
  ok = bool_decide (failed = []) /\
  sublist failed [1; 2; 1]%nat /\
  (forall q, ~ In q [1; 2; 1]%nat -> objects' !! q = Scenario.patches !! q) /\
  (forall q, is_Some (objects' !! q) <-> is_Some (Scenario.patches !! q)) /\
  (forall p, In p [1; 2; 1]%nat ->
     ByPointer.in_target Patch.enabled objects' p = false -> In p failed) /\
  (List.NoDup [1; 2; 1]%nat ->
   failed = List.filter (fun p => negb (ByPointer.in_target Patch.enabled objects' p))
              [1; 2; 1]%nat) /\
  exists new,
    emitted r' = emitted Demo.session ++ new /\
    length (List.filter is_error new) = length failed.
Proof.
  assert (Hvalid : Forall (fun p => is_Some (Scenario.patches !! p)) [1; 2; 1]%nat).
  { constructor; [exists Demo.absent_patch; vm_compute; reflexivity|].
    constructor; [exists Demo.nop_patch; vm_compute; reflexivity|].
    constructor; [exists Demo.absent_patch; vm_compute; reflexivity|].
    constructor. }
  pose proof (proj1 BulkTheorems.bulk_operations_best_effort [1; 2; 1]%nat
                Scenario.patches Demo.session Hvalid) as W.
  exact W.
Defined.

End Witnesses.

(** * Further properties of the engine *)

(** ** Attaching and detaching *)

Module SessionExtras.
Import Engine Runs EngineFacts Accessors.

Section Generic.
Context {World : Type} `{Win32 World}.

(** What [detach] leaves: the run itself without a handle, else the
    handle closed and the signal emitted; never a handle. *)
Lemma detach_effect (r : Run World) :
  (if m_processHandle (self r) =? 0 then snd (detach r) = r
   else
     world (snd (detach r)) = CloseHandle (world r) (m_processHandle (self r)) /\
     emitted (snd (detach r)) = emitted r ++ [processDetached]) /\
  m_processHandle (self (snd (detach r))) = 0.
Proof.
  rewrite detach_run.
  destruct (m_processHandle (self r) =? 0) eqn:E; simpl.
  - apply Z.eqb_eq in E. auto.
  - auto.
Qed.

(** X1.  [detach] on an engine that holds a handle closes it, clears the
    process id, the process name and the cache, and emits
    [processDetached]; without a handle it does nothing.  Either way the
    last error message is kept, the engine is not attached afterwards, and
    a second [detach] changes nothing. *)
Theorem detach_resets (r : Run World) :
  let r' := snd (detach r) in
  (if m_processHandle (self r) =? 0 then r' = r
   else
     world r' = CloseHandle (world r) (m_processHandle (self r)) /\
     getProcessId r' = 0 /\ getProcessName r' = "" /\
     m_patternCache (self r') = ∅ /\
     emitted r' = emitted r ++ [processDetached] /\
     calls r' = calls r ++ [CloseHandle_call (m_processHandle (self r))]) /\
  m_processHandle (self r') = 0 /\
  getLastError r' = getLastError r /\
  fst (isAttached r') = false /\
  detach r' = (tt, r').
Proof.
  cbv zeta. rewrite isAttached_run, !detach_run.
  destruct (m_processHandle (self r) =? 0) eqn:E; simpl.
  - apply Z.eqb_eq in E. unfold attached. rewrite E. simpl.
    repeat split; auto.
  - repeat split.
Qed.

(** What [attachToProcess] starts from once it has dropped the old session. *)
Lemma attach_after_detach (processName : string) (r : Run World) :
  attachToProcess processName r
  = attachToProcess processName (snd (detach r)).
Proof.
  destruct (m_processHandle (self r) =? 0) eqn:E.
  - rewrite detach_run, E. reflexivity.
  - unfold attachToProcess. unfold bind at 1 2. unfold get_self at 1.
    cbn [fst snd]. rewrite E. cbn [negb].
    symmetry. unfold bind at 1 2. unfold get_self at 1. cbn [fst snd].
    rewrite detach_run, E. cbn [snd self m_processHandle]. reflexivity.
Qed.

(** [attachToProcess] on an engine without a handle, call by call. *)
Lemma attach_fresh_run (processName : string) (r : Run World) :
  m_processHandle (self r) = 0 ->
  attachToProcess processName r =
  let keep msg :=
    mkEditor 0 (m_processId (self r)) (m_processName (self r)) msg
      (m_patternCache (self r)) in
  let notFound := "Process not found: " +:+ processName in
  match CreateToolhelp32Snapshot (world r) with
  | None =>
      (false, mkRun (world r) (keep notFound)
                (emitted r ++ [errorOccurred "Failed to create process snapshot"])
                (calls r))
  | Some entries =>
      let pid := firstProcess processName entries in
      if pid =? 0 then (false, mkRun (world r) (keep notFound) (emitted r) (calls r))
      else
        let (handle, w1) := OpenProcess (world r) pid in
        let opened := calls r ++ [OpenProcess_call pid] in
        if handle =? 0 then
          let msg := "Failed to open process. Run as administrator? Error: "
                     +:+ pretty (GetLastError w1) in
          (false, mkRun w1 (keep msg) (emitted r ++ [errorOccurred msg]) opened)
        else
          (true, mkRun w1 (mkEditor handle pid processName (m_lastError (self r)) ∅)
                   (emitted r ++ [processAttached processName pid]) opened)
  end.
Proof.
  intros Hh. unfold attachToProcess, findProcessByName. run. run. rewrite ?Hh.
  cbn [negb Z.eqb].
  destruct (CreateToolhelp32Snapshot (world r)) as [entries|];
    cbn [fst snd world self emitted calls].
  - destruct (firstProcess processName entries =? 0); [rewrite ?Hh; reflexivity|].
    destruct (OpenProcess (world r) _) as [handle w1].
    cbn [fst snd world self emitted calls].
    destruct (handle =? 0) eqn:Eh; [|reflexivity].
    apply Z.eqb_eq in Eh. subst handle. reflexivity.
  - rewrite ?Hh. reflexivity.
Qed.

(** X2.  A successful [attachToProcess] leaves a non-null handle, the id of
    the process it found, the name it was asked for and an empty cache,
    and its last signal is [processAttached] with that name and id; a
    failed one, whatever the engine held before, leaves a null handle, so
    that the engine is not attached. *)
Theorem attach_outcome (processName : string) (r : Run World) :
  let '(ok, r') := attachToProcess processName r in
  if ok then
    m_processHandle (self r') <> 0 /\ getProcessId r' <> 0 /\
    getProcessName r' = processName /\ m_patternCache (self r') = ∅ /\
    (exists before,
       emitted r' = before ++ [processAttached processName (getProcessId r')]) /\
    (exists before, calls r' = before ++ [OpenProcess_call (getProcessId r')])
  else m_processHandle (self r') = 0 /\ fst (isAttached r') = false.
Proof.
  rewrite attach_after_detach.
  pose proof (detach_effect r) as (_ & Hh).
  rewrite (attach_fresh_run processName _ Hh). cbv zeta.
  set (r0 := snd (detach r)) in *.
  destruct (CreateToolhelp32Snapshot (world r0)) as [entries|].
  - destruct (firstProcess processName entries =? 0) eqn:Ep.
    + rewrite isAttached_run. split; reflexivity.
    + destruct (OpenProcess (world r0) _) as [handle w1].
      destruct (handle =? 0) eqn:Eh.
      * rewrite isAttached_run. split; reflexivity.
      * apply Z.eqb_neq in Ep, Eh. unfold getProcessId, getProcessName. simpl.
        repeat split; auto; eexists; reflexivity.
  - rewrite isAttached_run. split; reflexivity.
Qed.

(** X3.  The signals of [attachToProcess]: [processDetached] first when it
    held a handle; then an error when no snapshot of the processes can be
    made, nothing at all when no process has the name, an error that
    carries the system error code when the process cannot be opened, and
    [processAttached] on success.  It answers [true] in the last case
    only. *)
Theorem attach_signals (processName : string) (r : Run World) :
  let h := m_processHandle (self r) in
  let w0 := if h =? 0 then world r else CloseHandle (world r) h in
  let outcome :=
    match CreateToolhelp32Snapshot w0 with
    | None => (false, [errorOccurred "Failed to create process snapshot"])
    | Some entries =>
        let pid := firstProcess processName entries in
        if pid =? 0 then (false, [])
        else
          let (handle, w1) := OpenProcess w0 pid in
          if handle =? 0 then
            (false,
             [errorOccurred ("Failed to open process. Run as administrator? Error: "
                             +:+ pretty (GetLastError w1))])
          else (true, [processAttached processName pid])
    end in
  fst (attachToProcess processName r) = fst outcome /\
  emitted (snd (attachToProcess processName r))
  = emitted r ++ (if h =? 0 then [] else [processDetached]) ++ snd outcome.
Proof.
  cbv zeta. rewrite attach_after_detach.
  pose proof (detach_effect r) as (Hd & Hh).
  rewrite (attach_fresh_run processName _ Hh). cbv zeta.
  destruct (m_processHandle (self r) =? 0) eqn:E.
  - rewrite Hd. simpl.
    destruct (CreateToolhelp32Snapshot (world r)) as [entries|]; simpl.
    + destruct (firstProcess processName entries =? 0); simpl.
      * rewrite app_nil_r. auto.
      * destruct (OpenProcess (world r) _) as [handle w1].
        destruct (handle =? 0); simpl; auto.
    + auto.
  - destruct Hd as (Hw & He). rewrite Hw.
    destruct (CreateToolhelp32Snapshot _) as [entries|]; simpl.
    + destruct (firstProcess processName entries =? 0); simpl.
      * rewrite He. auto.
      * destruct (OpenProcess _ _) as [handle w1].
        destruct (handle =? 0); simpl; rewrite He, <- app_assoc; auto.
    + rewrite He, <- app_assoc. auto.
Qed.

(** X4.  [findProcessByName] answers with the id of the first process of
    the snapshot whose image name is the wanted one up to the case of the
    letters, and with [0] when the snapshot has no such process; it
    changes nothing and emits nothing then. *)
Theorem findProcessByName_first_match (processName : string) (r : Run World)
    (entries : list (string * Z)) :
  CreateToolhelp32Snapshot (world r) = Some entries ->
  (forall before szExeFile pid after,
     entries = before ++ (szExeFile, pid) :: after ->
     forallb (fun e => negb (wcsicmp_eq (fst e) processName)) before = true ->
     wcsicmp_eq szExeFile processName = true ->
     findProcessByName processName r = (wrap32 pid, r)) /\
  (forallb (fun e => negb (wcsicmp_eq (fst e) processName)) entries = true ->
   findProcessByName processName r = (0, r)).
Proof.
  intros Hs.
  assert (Hrun : findProcessByName processName r = (firstProcess processName entries, r)).
  { unfold findProcessByName. run. rewrite Hs. reflexivity. }
  rewrite Hrun. split.
  - intros before szExeFile pid after -> Hbefore Hmatch. f_equal. clear Hs Hrun.
    induction before as [|[n p] before IH]; simpl in *.
    + rewrite Hmatch. reflexivity.
    + apply andb_true_iff in Hbefore. destruct Hbefore as [Hn Hrest].
      apply negb_true_iff in Hn. rewrite Hn. apply IH. exact Hrest.
  - intros Hnone. f_equal. clear Hs Hrun.
    induction entries as [|[n p] entries IH]; simpl in *; [reflexivity|].
    apply andb_true_iff in Hnone. destruct Hnone as [Hn Hrest].
    apply negb_true_iff in Hn. rewrite Hn. apply IH. exact Hrest.
Qed.

End Generic.
End SessionExtras.

(** ** Toggles, operations without a target, and repeated bulk runs *)

Module OperationExtras.
Import Engine Runs EngineFacts Accessors.

Section Generic.
Context {World : Type} `{Win32 World}.

(** An operation that reports its outcome, run as a toggle. *)
Lemma toggle_outcome {A} (flag : A -> bool) (set : bool -> A -> A)
    (off on : A -> M World (bool * A)) (x : A) (r : Run World) :
  (forall y r0, match on y r0 with
                | ((true, y'), _) => y' = set true y
                | ((false, y'), r') => y' = y /\ reports_failure r0 r'
                end) ->
  (forall y r0, match off y r0 with
                | ((true, y'), _) => y' = set false y
                | ((false, y'), r') => y' = y /\ reports_failure r0 r'
                end) ->
  match (if flag x then off x else on x) r with
  | ((true, x'), _) => x' = set (negb (flag x)) x
  | ((false, x'), r') => x' = x /\ reports_failure r r'
  end.
Proof.
  intros Hon Hoff. destruct (flag x); [apply Hoff | apply Hon].
Qed.

Lemma applyPatch_outcome (patch : Patch.t) (r : Run World) :
  match applyPatch patch r with
  | ((true, patch'), _) => patch' = Patch.set_enabled true patch
  | ((false, patch'), r') => patch' = patch /\ reports_failure r r'
  end.
Proof.
  rewrite applyPatch_run.
  destruct (attached r); [|split; [reflexivity | eexists; split; reflexivity]].
  pose proof (resolve_frame patch r) as (_ & He & _).
  destruct (resolve patch r) as [address r1]. simpl in He.
  destruct (address =? 0).
  { split; [reflexivity|]. eexists. simpl. rewrite He. split; reflexivity. }
  pose proof (protectedWrite_emitted (wrap64 (address + Patch.offset patch))
                (Patch.patched patch) r1) as Hw.
  destruct (protectedWrite _ _ r1) as [[|] r2]; simpl in Hw; [reflexivity|].
  split; [reflexivity|]. eexists. simpl. rewrite Hw, He. split; reflexivity.
Qed.

Lemma removePatch_outcome (patch : Patch.t) (r : Run World) :
  match removePatch patch r with
  | ((true, patch'), _) => patch' = Patch.set_enabled false patch
  | ((false, patch'), r') => patch' = patch /\ reports_failure r r'
  end.
Proof.
  rewrite removePatch_run.
  destruct (attached r); [|split; [reflexivity | eexists; split; reflexivity]].
  pose proof (resolve_frame patch r) as (_ & He & _).
  destruct (resolve patch r) as [address r1]. simpl in He.
  destruct (address =? 0).
  { split; [reflexivity|]. eexists. simpl. rewrite He. split; reflexivity. }
  pose proof (protectedWrite_emitted (wrap64 (address + Patch.offset patch))
                (Patch.original patch) r1) as Hw.
  destruct (protectedWrite _ _ r1) as [[|] r2]; simpl in Hw; [reflexivity|].
  split; [reflexivity|]. eexists. simpl. rewrite Hw, He. split; reflexivity.
Qed.

Lemma enableUnlock_outcome (item : UnlockItem.t) (r : Run World) :
  match enableUnlock item r with
  | ((true, item'), _) => item' = UnlockItem.set_enabled true item
  | ((false, item'), r') => item' = item /\ reports_failure r r'
  end.
Proof.
  rewrite enableUnlock_run.
  destruct (attached r); [|split; [reflexivity | eexists; split; reflexivity]].
  pose proof (byteWrite_frame (UnlockItem.address item) x01 r) as [He _].
  destruct (byteWrite _ _ r) as [[|] r1]; simpl in He; [reflexivity|].
  split; [reflexivity|]. eexists. simpl. rewrite He. split; reflexivity.
Qed.

Lemma disableUnlock_outcome (item : UnlockItem.t) (r : Run World) :
  match disableUnlock item r with
  | ((true, item'), _) => item' = UnlockItem.set_enabled false item
  | ((false, item'), r') => item' = item /\ reports_failure r r'
  end.
Proof.
  rewrite disableUnlock_run.
  destruct (attached r); [|split; [reflexivity | eexists; split; reflexivity]].
  pose proof (byteWrite_frame (UnlockItem.address item) x00 r) as [He _].
  destruct (byteWrite _ _ r) as [[|] r1]; simpl in He; [reflexivity|].
  split; [reflexivity|]. eexists. simpl. rewrite He. split; reflexivity.
Qed.

Lemma enableBundle_outcome (bundle : UnlockBundle.t) (r : Run World) :
  match enableBundle bundle r with
  | ((true, bundle'), _) => bundle' = UnlockBundle.set_enabled true bundle
  | ((false, bundle'), r') => bundle' = bundle /\ reports_failure r r'
  end.
Proof.
  rewrite enableBundle_run.
  destruct (attached r); [|split; [reflexivity | eexists; split; reflexivity]].
  pose proof (for_each_writeByte_frame x01 (UnlockBundle.addresses bundle) true r) as [He _].
  destruct (for_each _ _ true r) as [[|] r1]; simpl in He; [reflexivity|].
  split; [reflexivity|]. eexists. simpl. rewrite He. split; reflexivity.
Qed.

Lemma disableBundle_outcome (bundle : UnlockBundle.t) (r : Run World) :
  match disableBundle bundle r with
  | ((true, bundle'), _) => bundle' = UnlockBundle.set_enabled false bundle
  | ((false, bundle'), r') => bundle' = bundle /\ reports_failure r r'
  end.
Proof.
  rewrite disableBundle_run.
  destruct (attached r); [|split; [reflexivity | eexists; split; reflexivity]].
  pose proof (for_each_writeByte_frame x00 (UnlockBundle.addresses bundle) true r) as [He _].
  destruct (for_each _ _ true r) as [[|] r1]; simpl in He; [reflexivity|].
  split; [reflexivity|]. eexists. simpl. rewrite He. split; reflexivity.
Qed.

(** X5.  A toggle that succeeds hands the object back with its flag
    inverted and nothing else changed; a toggle that fails hands it back
    as it was and reports one error.  This holds for [togglePatch],
    [toggleUnlock] and [toggleBundle]. *)
Theorem toggle_inverts_or_reports (r : Run World) :
  (forall patch,
     match togglePatch patch r with
     | ((true, patch'), _) =>
         patch' = Patch.set_enabled (negb (Patch.enabled patch)) patch
     | ((false, patch'), r') => patch' = patch /\ reports_failure r r'
     end) /\
  (forall item,
     match toggleUnlock item r with
     | ((true, item'), _) =>
         item' = UnlockItem.set_enabled (negb (UnlockItem.enabled item)) item
     | ((false, item'), r') => item' = item /\ reports_failure r r'
     end) /\
  (forall bundle,
     match toggleBundle bundle r with
     | ((true, bundle'), _) =>
         bundle' = UnlockBundle.set_enabled (negb (UnlockBundle.enabled bundle)) bundle
     | ((false, bundle'), r') => bundle' = bundle /\ reports_failure r r'
     end).
Proof.
  split; [|split].
  - intros patch.
    apply (toggle_outcome Patch.enabled Patch.set_enabled removePatch applyPatch).
    + apply applyPatch_outcome.
    + apply removePatch_outcome.
  - intros item.
    apply (toggle_outcome UnlockItem.enabled UnlockItem.set_enabled
             disableUnlock enableUnlock).
    + apply enableUnlock_outcome.
    + apply disableUnlock_outcome.
  - intros bundle.
    apply (toggle_outcome UnlockBundle.enabled UnlockBundle.set_enabled
             disableBundle enableBundle).
    + apply enableBundle_outcome.
    + apply disableBundle_outcome.
Qed.

(** X6.  When [isAttached] answers [false] (no handle, or a target that
    has exited), the six operations fail with the message
    [Not attached to process] and hand their object back unchanged,
    [writeByte] answers [false] and [readByte] answers [0]; none of them
    makes a call on the target. *)
Theorem detached_operations_refuse (r : Run World) :
  fst (isAttached r) = false ->
  let refused := failed "Not attached to process" r in
  (forall patch, applyPatch patch r = ((false, patch), refused)) /\
  (forall patch, removePatch patch r = ((false, patch), refused)) /\
  (forall item, enableUnlock item r = ((false, item), refused)) /\
  (forall item, disableUnlock item r = ((false, item), refused)) /\
  (forall bundle, enableBundle bundle r = ((false, bundle), refused)) /\
  (forall bundle, disableBundle bundle r = ((false, bundle), refused)) /\
  (forall address value, writeByte address value r = (false, r)) /\
  (forall address, readByte address r = (x00, r)) /\
  world refused = world r /\ calls refused = calls r.
Proof.
  rewrite isAttached_run. simpl. intros Ha. cbv zeta.
  repeat split; intros.
  - rewrite applyPatch_run, Ha. reflexivity.
  - rewrite removePatch_run, Ha. reflexivity.
  - rewrite enableUnlock_run, Ha. reflexivity.
  - rewrite disableUnlock_run, Ha. reflexivity.
  - rewrite enableBundle_run, Ha. reflexivity.
  - rewrite disableBundle_run, Ha. reflexivity.
  - rewrite writeByte_run. unfold byteWrite. rewrite Ha. reflexivity.
  - unfold readByte. unfold bind at 1. rewrite isAttached_run, Ha. reflexivity.
Qed.

(** The loop of a bulk method over items that are all in the target state. *)
Lemma bulk_settled {A} (inTarget : A -> bool) (op : A -> M World (bool * A))
    (items : list A) (r : Run World) :
  forallb inTarget items = true -> bulk inTarget op items r = ((true, items), r).
Proof.
  induction items as [|x rest IH]; simpl; intros Hall; [reflexivity|].
  apply andb_true_iff in Hall. destruct Hall as [Hx Hrest].
  rewrite Hx, (IH Hrest). reflexivity.
Qed.

Lemma for_each_ref_settled {A} (inTarget : A -> bool) (op body : A -> M World (bool * A))
    (items : list A) (r : Run World) :
  (forall x r, body x r = if inTarget x then ((true, x), r) else op x r) ->
  forallb inTarget items = true ->
  for_each_ref body items true r = ((true, items), r).
Proof.
  intros Hbody Hall.
  rewrite (BulkTheorems.for_each_ref_bulk inTarget op body Hbody).
  rewrite (bulk_settled inTarget op items r Hall). reflexivity.
Qed.

Lemma for_each_ref_stable {A} (inTarget : A -> bool) (op body : A -> M World (bool * A))
    (items : list A) (r : Run World) :
  (forall x r, body x r = if inTarget x then ((true, x), r) else op x r) ->
  reporting inTarget op ->
  let run := for_each_ref body items true r in
  fst (fst run) = true ->
  forallb inTarget (snd (fst run)) = true /\
  for_each_ref body (snd (fst run)) true (snd run) = ((true, snd (fst run)), snd run).
Proof.
  intros Hbody Hop. cbv zeta.
  pose proof (BulkTheorems.bulk_reports inTarget op Hop items r) as Hb.
  rewrite (BulkTheorems.for_each_ref_bulk inTarget op body Hbody).
  destruct (bulk inTarget op items r) as [[ok items'] r'].
  destruct Hb as (_ & Hok & _). simpl. intros ->.
  split; [auto|]. apply (for_each_ref_settled inTarget op); auto.
Qed.

(** X7.  A bulk operation over a collection whose objects are all in the
    target state already (enabled for the operations that enable, disabled
    for the others) answers [true] and does nothing: no call on the
    target, no signal, no change of the objects or of the engine.  The
    empty collection is the smallest case. *)
Theorem bulk_nothing_to_do (r : Run World) :
  (forall patches, forallb Patch.enabled patches = true ->
     applyAllPatches patches r = ((true, patches), r)) /\
  (forall patches, forallb (fun p => negb (Patch.enabled p)) patches = true ->
     removeAllPatches patches r = ((true, patches), r)) /\
  (forall items, forallb UnlockItem.enabled items = true ->
     enableAllUnlocks items r = ((true, items), r)) /\
  (forall items, forallb (fun i => negb (UnlockItem.enabled i)) items = true ->
     disableAllUnlocks items r = ((true, items), r)) /\
  (forall bundles, forallb UnlockBundle.enabled bundles = true ->
     enableAllBundles bundles r = ((true, bundles), r)) /\
  (forall bundles, forallb (fun b => negb (UnlockBundle.enabled b)) bundles = true ->
     disableAllBundles bundles r = ((true, bundles), r)).
Proof.
  repeat split; intros xs Hall.
  - apply (for_each_ref_settled Patch.enabled applyPatch); [|exact Hall].
    intros x r0. destruct (Patch.enabled x); reflexivity.
  - apply (for_each_ref_settled (fun p => negb (Patch.enabled p)) removePatch);
      [|exact Hall].
    intros x r0. destruct (Patch.enabled x); reflexivity.
  - apply (for_each_ref_settled UnlockItem.enabled enableUnlock); [|exact Hall].
    intros x r0. destruct (UnlockItem.enabled x); reflexivity.
  - apply (for_each_ref_settled (fun i => negb (UnlockItem.enabled i)) disableUnlock);
      [|exact Hall].
    intros x r0. destruct (UnlockItem.enabled x); reflexivity.
  - apply (for_each_ref_settled UnlockBundle.enabled enableBundle); [|exact Hall].
    intros x r0. destruct (UnlockBundle.enabled x); reflexivity.
  - apply (for_each_ref_settled (fun b => negb (UnlockBundle.enabled b)) disableBundle);
      [|exact Hall].
    intros x r0. destruct (UnlockBundle.enabled x); reflexivity.
Qed.

(** X8.  A bulk operation that answered [true] has left every object of the
    collection in the target state, and running it again on the result
    does nothing and answers [true] again. *)
Theorem bulk_success_is_stable (r : Run World) :
  (forall patches, let run := applyAllPatches patches r in
     fst (fst run) = true ->
     forallb Patch.enabled (snd (fst run)) = true /\
     applyAllPatches (snd (fst run)) (snd run) = ((true, snd (fst run)), snd run)) /\
  (forall patches, let run := removeAllPatches patches r in
     fst (fst run) = true ->
     forallb (fun p => negb (Patch.enabled p)) (snd (fst run)) = true /\
     removeAllPatches (snd (fst run)) (snd run) = ((true, snd (fst run)), snd run)) /\
  (forall items, let run := enableAllUnlocks items r in
     fst (fst run) = true ->
     forallb UnlockItem.enabled (snd (fst run)) = true /\
     enableAllUnlocks (snd (fst run)) (snd run) = ((true, snd (fst run)), snd run)) /\
  (forall items, let run := disableAllUnlocks items r in
     fst (fst run) = true ->
     forallb (fun i => negb (UnlockItem.enabled i)) (snd (fst run)) = true /\
     disableAllUnlocks (snd (fst run)) (snd run) = ((true, snd (fst run)), snd run)) /\
  (forall bundles, let run := enableAllBundles bundles r in
     fst (fst run) = true ->
     forallb UnlockBundle.enabled (snd (fst run)) = true /\
     enableAllBundles (snd (fst run)) (snd run) = ((true, snd (fst run)), snd run)) /\
  (forall bundles, let run := disableAllBundles bundles r in
     fst (fst run) = true ->
     forallb (fun b => negb (UnlockBundle.enabled b)) (snd (fst run)) = true /\
     disableAllBundles (snd (fst run)) (snd run) = ((true, snd (fst run)), snd run)).
Proof.
  split; [|split; [|split; [|split; [|split]]]]; intros xs.
  - apply (for_each_ref_stable Patch.enabled applyPatch);
      [|apply BulkTheorems.applyPatch_reporting].
    intros x r0. destruct (Patch.enabled x); reflexivity.
  - apply (for_each_ref_stable (fun p => negb (Patch.enabled p)) removePatch);
      [|apply BulkTheorems.removePatch_reporting].
    intros x r0. destruct (Patch.enabled x); reflexivity.
  - apply (for_each_ref_stable UnlockItem.enabled enableUnlock);
      [|apply BulkTheorems.enableUnlock_reporting].
    intros x r0. destruct (UnlockItem.enabled x); reflexivity.
  - apply (for_each_ref_stable (fun i => negb (UnlockItem.enabled i)) disableUnlock);
      [|apply BulkTheorems.disableUnlock_reporting].
    intros x r0. destruct (UnlockItem.enabled x); reflexivity.
  - apply (for_each_ref_stable UnlockBundle.enabled enableBundle);
      [|apply BulkTheorems.enableBundle_reporting].
    intros x r0. destruct (UnlockBundle.enabled x); reflexivity.
  - apply (for_each_ref_stable (fun b => negb (UnlockBundle.enabled b)) disableBundle);
      [|apply BulkTheorems.disableBundle_reporting].
    intros x r0. destruct (UnlockBundle.enabled x); reflexivity.
Qed.

End Generic.
End OperationExtras.

(** ** Further properties of the scanner *)

Module ScannerExtras.
Import PatternScanner ScannerFacts ModuleLookup.

Section Generic.
Context {World : Type} `{Win32 World}.

Lemma wrap64_range (z : Z) : 0 <= wrap64 z < 2 ^ 64.
Proof. unfold wrap64. apply Z.mod_pos_bound. lia. Qed.

(** A window that lies in the bytes read does not see what is left in the
    buffer behind them. *)
Lemma fill_window (buffer data : list byte) (i p : nat) :
  (i + p <= length data)%nat ->
  firstn p (skipn i (fill buffer data)) = firstn p (skipn i data).
Proof.
  intros Hle. unfold fill.
  rewrite skipn_app, firstn_app.
  replace (p - length (skipn i data))%nat with 0%nat
    by (rewrite length_skipn; lia).
  rewrite firstn_O, app_nil_r. reflexivity.
Qed.

Lemma scanChunks_sound (w : World) (h start size : Z) (pattern : list byte) (fuel : nat) :
  forall (buffer : list byte) (offset a : Z),
    0 <= offset ->
    scanChunks fuel w h start size pattern buffer offset = Some (Some a) ->
    exists offset' data i,
      0 <= offset' < size /\
      ReadProcessMemory w h (wrap64 (start + offset'))
        (Z.min (CHUNK_SIZE + vsize pattern) (size - offset')) = Some data /\
      0 <= i /\ i + vsize pattern <= vsize data /\
      firstn (length pattern) (skipn (Z.to_nat i) data) = pattern /\
      a = wrap64 (start + offset' + i).
Proof.
  induction fuel as [|fuel IH]; intros buffer offset a Hoff; simpl;
    destruct (offset <? size) eqn:Elt; try discriminate.
  apply Z.ltb_lt in Elt.
  destruct (ReadProcessMemory w h (wrap64 (start + offset)) _) as [data|] eqn:Eread.
  - pose proof (searchChunk_spec (fill buffer data) (vsize data) pattern
                  (Z.to_nat (vsize data - vsize pattern + 1)) 0) as Hs.
    destruct (searchChunk _ _ _ _ 0) as [i|].
    + intros [= <-]. destruct Hs as ([Hi Hcount] & Hm & _).
      assert (Hle : i + vsize pattern <= vsize data) by lia.
      apply matchPattern_bytes in Hm.
      apply matchBytes_spec in Hm;
        [| lia | unfold fill, vsize in *; rewrite length_app; lia].
      rewrite Z.add_0_r in Hm.
      exists offset, data, i. repeat split; auto; try lia.
      rewrite <- (fill_window buffer); [exact Hm|]. unfold vsize in Hle. lia.
    + apply IH. apply wrap64_range.
  - apply IH. apply wrap64_range.
Qed.

(** X9.  An address that [findPattern] returns is the address of bytes it
    has read: some chunk of the range was read with success, the signature
    lies in the bytes of that read, wholly inside them, and the address is
    the one of that place.  What is left in the buffer from an earlier
    chunk is never taken for a match. *)
Theorem findPattern_sound (w : World) (processHandle startAddress searchSize : Z)
    (pattern : list byte) (a : Z) :
  findPattern w processHandle startAddress searchSize pattern = Some (Some a) ->
  processHandle <> 0 /\ pattern <> [] /\
  exists offset data i,
    0 <= offset < searchSize /\
    ReadProcessMemory w processHandle (wrap64 (startAddress + offset))
      (Z.min (CHUNK_SIZE + vsize pattern) (searchSize - offset)) = Some data /\
    0 <= i /\ i + vsize pattern <= vsize data /\
    firstn (length pattern) (skipn (Z.to_nat i) data) = pattern /\
    a = wrap64 (startAddress + offset + i).
Proof.
  unfold findPattern.
  destruct (processHandle =? 0) eqn:Eh; [discriminate|].
  destruct (vsize pattern =? 0) eqn:Ep; [discriminate|]. simpl.
  intros Hscan. apply Z.eqb_neq in Eh, Ep.
  split; [exact Eh|]. split; [intros ->; apply Ep; reflexivity|].
  eapply scanChunks_sound; [|exact Hscan]. lia.
Qed.

(** X10.  [findPattern] finds nothing, and says so, without a handle, for
    the empty signature, for an empty range, and when every read of the
    target fails: an unreadable chunk is skipped and the loop goes on to
    the end of the range. *)
Theorem findPattern_nothing_to_find (w : World) (processHandle startAddress searchSize : Z)
    (pattern : list byte) :
  (processHandle = 0 -> findPattern w processHandle startAddress searchSize pattern = Some None) /\
  (pattern = [] -> findPattern w processHandle startAddress searchSize pattern = Some None) /\
  (searchSize <= 0 ->
   findPattern w processHandle startAddress searchSize pattern = Some None) /\
  (0 <= searchSize -> searchSize + CHUNK_SIZE <= 2 ^ 64 ->
   (forall address size, ReadProcessMemory w processHandle address size = None) ->
   findPattern w processHandle startAddress searchSize pattern = Some None).
Proof.
  repeat split.
  - intros ->. reflexivity.
  - intros ->. unfold findPattern. rewrite orb_true_r. reflexivity.
  - intros Hsize. unfold findPattern.
    destruct (_ || _); [reflexivity|].
    destruct (chunkCount searchSize); simpl;
      replace (0 <? searchSize) with false by (symmetry; apply Z.ltb_ge; lia);
      reflexivity.
  - intros H0 Hroom Hread.
    pose proof (ScannerTheorems.findPattern_returns w processHandle startAddress
                  searchSize pattern H0 Hroom) as Hret.
    destruct (findPattern w processHandle startAddress searchSize pattern)
      as [[a|]|] eqn:E; [|reflexivity|congruence].
    unfold findPattern in E. destruct (_ || _); [discriminate|].
    apply scanChunks_sound in E; [|lia].
    destruct E as (offset & data & i & _ & Hr & _).
    rewrite Hread in Hr. discriminate.
Qed.

Lemma findModule_first (w : World) (h : Z) (moduleName : string) (before after : list Z)
    (hModule : Z) (modName : string) (lpBaseOfDll SizeOfImage : Z) :
  forallb (fun m => negb (is_module w h moduleName m)) before = true ->
  GetModuleBaseNameW w h hModule = Some modName ->
  wcsicmp_eq modName moduleName = true ->
  GetModuleInformation w h hModule = Some (lpBaseOfDll, SizeOfImage) ->
  findModule w h moduleName (before ++ hModule :: after)
  = Some (wrap64 lpBaseOfDll, wrap32 SizeOfImage).
Proof.
  intros Hbefore Hname Hcmp Hinfo.
  induction before as [|m before IH]; simpl.
  - rewrite Hname, Hcmp, Hinfo. reflexivity.
  - simpl in Hbefore. apply andb_true_iff in Hbefore. destruct Hbefore as [Hm Hrest].
    apply negb_true_iff in Hm. unfold is_module in Hm.
    destruct (GetModuleBaseNameW w h m) as [n|]; [|apply IH; exact Hrest].
    destruct (wcsicmp_eq n moduleName); [|apply IH; exact Hrest].
    destruct (GetModuleInformation w h m) as [[b s]|]; [discriminate|].
    apply IH; exact Hrest.
Qed.

Lemma findModule_none (w : World) (h : Z) (moduleName : string) (modules : list Z) :
  forallb (fun m => negb (is_module w h moduleName m)) modules = true ->
  findModule w h moduleName modules = None.
Proof.
  induction modules as [|m modules IH]; simpl; [reflexivity|].
  intros Hall. apply andb_true_iff in Hall. destruct Hall as [Hm Hrest].
  apply negb_true_iff in Hm. unfold is_module in Hm.
  destruct (GetModuleBaseNameW w h m) as [n|]; [|apply IH; exact Hrest].
  destruct (wcsicmp_eq n moduleName); [|apply IH; exact Hrest].
  destruct (GetModuleInformation w h m) as [[b s]|]; [discriminate|].
  apply IH; exact Hrest.
Qed.

Lemma findModule_base (w : World) (h : Z) (moduleName : string) (modules : list Z)
    (baseAddress moduleSize : Z) :
  findModule w h moduleName modules = Some (baseAddress, moduleSize) ->
  0 <= baseAddress < 2 ^ 64.
Proof.
  induction modules as [|m modules IH]; simpl; [discriminate|].
  destruct (GetModuleBaseNameW w h m) as [n|]; [|exact IH].
  destruct (wcsicmp_eq n moduleName); [|exact IH].
  destruct (GetModuleInformation w h m) as [[b s]|]; [|exact IH].
  intros [= <- _]. apply wrap64_range.
Qed.

(** X11.  With no more modules than the array of [getModuleInfo] holds,
    the function answers with the base and the size of the first module
    of the enumeration that has the wanted name, up to the case of the
    letters, and whose information can be queried; modules before it that
    have another name, no name, or no information are passed over.  It
    answers nothing when the enumeration fails or no module is of that
    kind. *)
Theorem getModuleInfo_first_match (w : World) (processHandle : Z) (moduleName : string) :
  (EnumProcessModulesEx w processHandle = None ->
   getModuleInfo w processHandle moduleName = None) /\
  (forall modules,
     EnumProcessModulesEx w processHandle = Some modules ->
     (length modules <= 1024)%nat ->
     (forallb (fun m => negb (is_module w processHandle moduleName m)) modules = true ->
      getModuleInfo w processHandle moduleName = None) /\
     (forall before hModule after modName lpBaseOfDll SizeOfImage,
        modules = before ++ hModule :: after ->
        forallb (fun m => negb (is_module w processHandle moduleName m)) before = true ->
        GetModuleBaseNameW w processHandle hModule = Some modName ->
        wcsicmp_eq modName moduleName = true ->
        GetModuleInformation w processHandle hModule = Some (lpBaseOfDll, SizeOfImage) ->
        getModuleInfo w processHandle moduleName
        = Some (wrap64 lpBaseOfDll, wrap32 SizeOfImage))).
Proof.
  split.
  - intros He. unfold getModuleInfo. rewrite He. reflexivity.
  - intros modules He Hlen. unfold getModuleInfo. rewrite He.
    rewrite firstn_all2 by exact Hlen. split.
    + apply findModule_none.
    + intros before hModule after modName b s -> Hbefore Hname Hcmp Hinfo.
      eapply findModule_first; eauto.
Qed.

(** X12.  [findPatternInModule] on a module that is readable as a whole:
    it answers with the address of the lowest occurrence of the signature
    in the image of the module, and with nothing when the image does not
    hold the signature; it answers nothing as well when the module is not
    found. *)
Theorem findPatternInModule_lowest_match (w : World) (processHandle : Z)
    (moduleName : string) (pattern image : list byte) (baseAddress : Z) :
  (getModuleInfo w processHandle moduleName = None ->
   findPatternInModule w processHandle moduleName pattern = None) /\
  (getModuleInfo w processHandle moduleName = Some (baseAddress, vsize image) ->
   processHandle <> 0 -> pattern <> [] ->
   baseAddress + vsize image <= 2 ^ 64 ->
   readable_range w processHandle baseAddress image ->
   lowest_match image pattern baseAddress
     (findPatternInModule w processHandle moduleName pattern)).
Proof.
  split.
  - intros Hm. unfold findPatternInModule. rewrite Hm. reflexivity.
  - intros Hm Hh Hp Hend Hread.
    assert (Hbase : 0 <= baseAddress < 2 ^ 64).
    { unfold getModuleInfo in Hm.
      destruct (EnumProcessModulesEx w processHandle); [|discriminate].
      eapply findModule_base; eauto. }
    assert (Hsize : 0 <= vsize image < 2 ^ 32).
    { unfold getModuleInfo in Hm.
      destruct (EnumProcessModulesEx w processHandle); [|discriminate].
      eapply ScannerTheorems.findModule_size; eauto. }
    assert (Hroom : vsize image + CHUNK_SIZE <= 2 ^ 64).
    { unfold CHUNK_SIZE. lia. }
    unfold findPatternInModule. rewrite Hm. unfold findPattern.
    replace (processHandle =? 0) with false by (symmetry; apply Z.eqb_neq; exact Hh).
    replace (vsize pattern =? 0) with false.
    2:{ symmetry. apply Z.eqb_neq. unfold vsize. intros E.
        apply Hp. apply length_zero_iff_nil. lia. }
    simpl.
    destruct (scanChunks_spec w processHandle baseAddress image pattern Hp
                (proj1 Hbase) Hend Hroom Hread (chunkCount (vsize image))
                (repeat x00 (Z.to_nat (CHUNK_SIZE + vsize pattern))) 0)
      as (r & Hr & Hlow).
    + lia.
    + apply ScannerTheorems.chunkCount_enough. lia.
    + intros k [Hk _]. exact Hk.
    + rewrite Hr. exact Hlow.
Qed.

(** X13.  [matchPattern] on a buffer of which [dataSize] bytes count, for an
    [offset] whose sum with the length of the signature does not wrap
    around: it answers [true] exactly when the signature, placed at
    [offset], ends within those bytes and every byte of it equals the byte
    of the buffer at its place.  In particular a signature that would
    reach beyond [dataSize] is not a match, whatever the buffer holds
    there. *)
Theorem matchPattern_exact (data : list byte) (dataSize : Z) (pattern : list byte)
    (offset : Z) :
  0 <= offset -> offset + vsize pattern < 2 ^ 64 -> dataSize <= vsize data ->
  matchPattern data dataSize pattern offset = true <->
  offset + vsize pattern <= dataSize /\
  firstn (length pattern) (skipn (Z.to_nat offset) data) = pattern.
Proof.
  intros Hoff Hsum Hsize. apply matchPattern_spec; assumption.
Qed.

End Generic.
End ScannerExtras.

(** ** What the operations keep of the session *)

Module SessionInvariant.
Import Engine Runs EngineFacts Session.

Section Generic.
Context {World : Type} `{Win32 World}.

Lemma continues_refl (r : Run World) : continues r r.
Proof. repeat split; reflexivity. Qed.

Lemma continues_trans (r1 r2 r3 : Run World) :
  continues r1 r2 -> continues r2 r3 -> continues r1 r3.
Proof.
  intros (A1 & A2 & A3 & A4) (B1 & B2 & B3 & B4). repeat split; try congruence.
  etransitivity; eauto.
Qed.

Lemma continues_failed (msg : string) (r : Run World) : continues r (failed msg r).
Proof. repeat split; reflexivity. Qed.

Lemma continues_signalled (s : Signal) (r : Run World) : continues r (signalled s r).
Proof. repeat split; reflexivity. Qed.

Lemma continues_resolve (patch : Patch.t) (r : Run World) :
  continues r (snd (resolve patch r)).
Proof.
  unfold resolve.
  destruct (m_patternCache (self r) !! Patch.name patch) eqn:Hc; [apply continues_refl|].
  destruct (PatternScanner.findPatternInModule _ _ _ _); [|repeat split; reflexivity].
  repeat split; try reflexivity. simpl. apply insert_subseteq. exact Hc.
Qed.

Lemma continues_protectedWrite (address : Z) (data : list byte) (r : Run World) :
  continues r (snd (protectedWrite address data r)).
Proof.
  unfold protectedWrite.
  destruct (VirtualProtectEx _ _ _ _ _) as [[old|] w1]; [|repeat split; reflexivity].
  destruct (WriteProcessMemory _ _ _ _) as [[ok written] w2].
  destruct (VirtualProtectEx _ _ _ _ _) as [? w3]. repeat split; reflexivity.
Qed.

Lemma continues_byteWrite (address : Z) (value : byte) (r : Run World) :
  continues r (snd (byteWrite address value r)).
Proof.
  unfold byteWrite. destruct (attached r); [|apply continues_refl].
  destruct (VirtualProtectEx _ _ _ _ _) as [[old|] w1]; [|repeat split; reflexivity].
  destruct (WriteProcessMemory _ _ _ _) as [[ok written] w2].
  destruct (VirtualProtectEx _ _ _ _ _) as [? w3]. repeat split; reflexivity.
Qed.

Lemma continues_for_each {A} (body : A -> M World bool) (items : list A) :
  (forall x r, continues r (snd (body x r))) ->
  forall acc r, continues r (snd (for_each body items acc r)).
Proof.
  intros Hbody. induction items as [|x rest IH]; intros acc r; simpl.
  - apply continues_refl.
  - unfold bind at 1. specialize (Hbody x r).
    destruct (body x r) as [ok r1]. simpl in Hbody.
    eapply continues_trans; [exact Hbody|]. apply IH.
Qed.

Lemma continues_for_each_ref {A} (body : A -> M World (bool * A)) (items : list A) :
  (forall x r, continues r (snd (body x r))) ->
  forall acc r, continues r (snd (for_each_ref body items acc r)).
Proof.
  intros Hbody. induction items as [|x rest IH]; intros acc r; simpl.
  - apply continues_refl.
  - unfold bind at 1. specialize (Hbody x r).
    destruct (body x r) as [[ok x'] r1]. simpl in Hbody.
    unfold bind at 1. specialize (IH (if ok then acc else false) r1).
    destruct (for_each_ref body rest _ r1) as [[res rest'] r2].
    simpl in *. eapply continues_trans; eauto.
Qed.

Lemma continues_applyPatch (patch : Patch.t) (r : Run World) :
  continues r (snd (applyPatch patch r)).
Proof.
  rewrite applyPatch_run. destruct (attached r); [|apply continues_failed].
  pose proof (continues_resolve patch r) as H1.
  destruct (resolve patch r) as [address r1]. simpl in H1.
  destruct (address =? 0).
  { eapply continues_trans; [exact H1 | apply continues_failed]. }
  pose proof (continues_protectedWrite (wrap64 (address + Patch.offset patch))
                (Patch.patched patch) r1) as H2.
  destruct (protectedWrite _ _ r1) as [[|] r2]; simpl in H2;
    (eapply continues_trans; [exact H1|]); (eapply continues_trans; [exact H2|]).
  - apply continues_signalled.
  - apply continues_failed.
Qed.

Lemma continues_removePatch (patch : Patch.t) (r : Run World) :
  continues r (snd (removePatch patch r)).
Proof.
  rewrite removePatch_run. destruct (attached r); [|apply continues_failed].
  pose proof (continues_resolve patch r) as H1.
  destruct (resolve patch r) as [address r1]. simpl in H1.
  destruct (address =? 0).
  { eapply continues_trans; [exact H1 | apply continues_failed]. }
  pose proof (continues_protectedWrite (wrap64 (address + Patch.offset patch))
                (Patch.original patch) r1) as H2.
  destruct (protectedWrite _ _ r1) as [[|] r2]; simpl in H2;
    (eapply continues_trans; [exact H1|]); (eapply continues_trans; [exact H2|]).
  - apply continues_signalled.
  - apply continues_failed.
Qed.

Lemma continues_writeByte (address : Z) (value : byte) (r : Run World) :
  continues r (snd (writeByte address value r)).
Proof. rewrite writeByte_run. apply continues_byteWrite. Qed.

Lemma continues_enableUnlock (item : UnlockItem.t) (r : Run World) :
  continues r (snd (enableUnlock item r)).
Proof.
  rewrite enableUnlock_run. destruct (attached r); [|apply continues_failed].
  pose proof (continues_byteWrite (UnlockItem.address item) x01 r) as H1.
  destruct (byteWrite _ _ r) as [[|] r1]; simpl in H1;
    (eapply continues_trans; [exact H1|]).
  - apply continues_signalled.
  - apply continues_failed.
Qed.

Lemma continues_disableUnlock (item : UnlockItem.t) (r : Run World) :
  continues r (snd (disableUnlock item r)).
Proof.
  rewrite disableUnlock_run. destruct (attached r); [|apply continues_failed].
  pose proof (continues_byteWrite (UnlockItem.address item) x00 r) as H1.
  destruct (byteWrite _ _ r) as [[|] r1]; simpl in H1;
    (eapply continues_trans; [exact H1|]).
  - apply continues_signalled.
  - apply continues_failed.
Qed.

Lemma continues_enableBundle (bundle : UnlockBundle.t) (r : Run World) :
  continues r (snd (enableBundle bundle r)).
Proof.
  rewrite enableBundle_run. destruct (attached r); [|apply continues_failed].
  pose proof (continues_for_each (fun addr => writeByte addr x01)
                (UnlockBundle.addresses bundle)
                (fun x r0 => continues_writeByte x x01 r0) true r) as H1.
  destruct (for_each _ _ true r) as [[|] r1]; simpl in H1;
    (eapply continues_trans; [exact H1|]).
  - apply continues_signalled.
  - apply continues_failed.
Qed.

Lemma continues_disableBundle (bundle : UnlockBundle.t) (r : Run World) :
  continues r (snd (disableBundle bundle r)).
Proof.
  rewrite disableBundle_run. destruct (attached r); [|apply continues_failed].
  pose proof (continues_for_each (fun addr => writeByte addr x00)
                (UnlockBundle.addresses bundle)
                (fun x r0 => continues_writeByte x x00 r0) true r) as H1.
  destruct (for_each _ _ true r) as [[|] r1]; simpl in H1;
    (eapply continues_trans; [exact H1|]).
  - apply continues_signalled.
  - apply continues_failed.
Qed.

(** X14.  No operation on patches, unlock items or bundles, single, toggled
    or in bulk, and no byte access, ends the session or forgets an address:
    afterwards the engine holds the same handle, process id and process
    name, and every address that was in the cache is still there with the
    same value.  Only [detach] and [attachToProcess] change these. *)
Theorem operations_keep_session (r : Run World) :
  (forall patch, continues r (snd (applyPatch patch r)) /\
                 continues r (snd (removePatch patch r)) /\
                 continues r (snd (togglePatch patch r))) /\
  (forall item, continues r (snd (enableUnlock item r)) /\
                continues r (snd (disableUnlock item r)) /\
                continues r (snd (toggleUnlock item r))) /\
  (forall bundle, continues r (snd (enableBundle bundle r)) /\
                  continues r (snd (disableBundle bundle r)) /\
                  continues r (snd (toggleBundle bundle r))) /\
  (forall patches, continues r (snd (applyAllPatches patches r)) /\
                   continues r (snd (removeAllPatches patches r))) /\
  (forall items, continues r (snd (enableAllUnlocks items r)) /\
                 continues r (snd (disableAllUnlocks items r))) /\
  (forall bundles, continues r (snd (enableAllBundles bundles r)) /\
                   continues r (snd (disableAllBundles bundles r))) /\
  (forall address value, continues r (snd (writeByte address value r))) /\
  (forall address, snd (readByte address r) = r).
Proof.
  split; [|split; [|split; [|split; [|split; [|split; [|split]]]]]].
  - intros patch. split; [|split].
    + apply continues_applyPatch.
    + apply continues_removePatch.
    + unfold togglePatch. destruct (Patch.enabled patch);
        [apply continues_removePatch | apply continues_applyPatch].
  - intros item. split; [|split].
    + apply continues_enableUnlock.
    + apply continues_disableUnlock.
    + unfold toggleUnlock. destruct (UnlockItem.enabled item);
        [apply continues_disableUnlock | apply continues_enableUnlock].
  - intros bundle. split; [|split].
    + apply continues_enableBundle.
    + apply continues_disableBundle.
    + unfold toggleBundle. destruct (UnlockBundle.enabled bundle);
        [apply continues_disableBundle | apply continues_enableBundle].
  - intros patches. split; apply continues_for_each_ref; intros x r0;
      destruct (Patch.enabled x); simpl;
      first [apply continues_refl | apply continues_applyPatch
            | apply continues_removePatch].
  - intros items. split; apply continues_for_each_ref; intros x r0;
      destruct (UnlockItem.enabled x); simpl;
      first [apply continues_refl | apply continues_enableUnlock
            | apply continues_disableUnlock].
  - intros bundles. split; apply continues_for_each_ref; intros x r0;
      destruct (UnlockBundle.enabled x); simpl;
      first [apply continues_refl | apply continues_enableBundle
            | apply continues_disableBundle].
  - intros address value. apply continues_writeByte.
  - intros address. unfold readByte. unfold bind at 1. rewrite isAttached_run.
    destruct (attached r); simpl; [|reflexivity].
    unfold bind, get_self, query, ret. simpl.
    destruct (ReadProcessMemory _ _ _ _) as [[|v l]|]; reflexivity.
Qed.

End Generic.
End SessionInvariant.

(** ** Further properties on the reference model *)

Module TargetExtras.
Import Target Engine Runs EngineFacts TargetFacts Accessors.

Lemma pages_byte (address : Z) : pages address 1 = [first_page address].
Proof.
  unfold pages, last_page, first_page.
  replace (address + 1 - 1) with address by lia.
  replace (address / PAGE_SIZE - address / PAGE_SIZE + 1) with 1 by lia.
  reflexivity.
Qed.

Lemma poke_outside (address : Z) (data : list byte) (mem : Z -> byte) (a : Z) :
  ~ (address <= a < address + vsize data) -> poke address data mem a = mem a.
Proof.
  intros Hout. unfold poke.
  destruct (address <=? a) eqn:E1; [|reflexivity].
  destruct (a <? address + vsize data) eqn:E2; [|reflexivity].
  apply Z.leb_le in E1. apply Z.ltb_lt in E2. lia.
Qed.

Lemma readByte_machine (address : Z) (r : Run Machine) :
  valid (world r) (m_processHandle (self r)) = true ->
  exit_code (world r) = STILL_ACTIVE ->
  in_range address 1 = true ->
  readable (world r) (first_page address) = true ->
  readByte address r = (memory (world r) address, r).
Proof.
  intros Hv He Hr Hp. unfold readByte. unfold bind at 1.
  rewrite isAttached_run, attached_machine, Hv, He. simpl.
  unfold bind, get_self, query, ret. simpl. unfold read.
  rewrite Hv, Hr, pages_byte. simpl. rewrite Hp. reflexivity.
Qed.

(** X15.  [writeByte] on the model changes at most the byte at its
    address: every other byte, every page protection, the open handles and
    the engine are as before.  When it answers [true] the byte holds the
    value, and a [readByte] of the address gives it back if the page can
    be read; when it answers [false] the byte is unchanged too. *)
Theorem writeByte_then_readByte (address : Z) (value : byte) (r : Run Machine) :
  let res := writeByte address value r in
  same_access (world r) (world (snd res)) /\
  self (snd res) = self r /\ emitted (snd res) = emitted r /\
  (forall a, a <> address -> memory (world (snd res)) a = memory (world r) a) /\
  (if fst res
   then memory (world (snd res)) address = value /\
        (readable (world r) (first_page address) = true ->
         readByte address (snd res) = (value, snd res))
   else memory (world (snd res)) address = memory (world r) address).
Proof.
  cbv zeta. rewrite writeByte_run.
  pose proof (byteWrite_machine address value r) as B. cbv zeta in B.
  destruct (byteWrite address value r) as [ok r'] eqn:E. simpl in *.
  destruct B as (Hok & Hself & Hem & Hsame & Hmem & _).
  split; [exact Hsame|]. split; [exact Hself|]. split; [exact Hem|].
  split.
  - intros a Ha. rewrite Hmem. destruct (can_poke r address); [|reflexivity].
    rewrite BundleTheorems.poke_byte.
    destruct (address =? a) eqn:Ea; [apply Z.eqb_eq in Ea; congruence | reflexivity].
  - subst ok. destruct (can_poke r address) eqn:Hc.
    + assert (Hval : memory (world r') address = value).
      { rewrite Hmem, BundleTheorems.poke_byte, Z.eqb_refl. reflexivity. }
      split; [exact Hval|]. intros Hread. rewrite <- Hval at 1.
      unfold can_poke in Hc.
      apply andb_true_iff in Hc. destruct Hc as [Hc _].
      apply andb_true_iff in Hc. destruct Hc as [Hc Hcan].
      apply andb_true_iff in Hc. destruct Hc as [Hv Hex].
      apply Z.eqb_eq in Hex.
      destruct (can_protect_parts _ _ _ _ Hcan) as (_ & _ & Hrange & _).
      destruct Hsame as (Hhs & Hex' & Hprot & _).
      apply readByte_machine.
      * unfold valid in *. rewrite Hself, Hhs. exact Hv.
      * rewrite Hex'. exact Hex.
      * exact Hrange.
      * unfold readable in *. rewrite Hprot. exact Hread.
    + rewrite Hmem. reflexivity.
Qed.

(** The protected write at the site of a patch, on the model. *)
Lemma site_write_machine (patch : Patch.t) (data : list byte) (r : Run Machine) :
  let address := fst (resolve patch r) in
  let r1 := snd (resolve patch r) in
  let site := wrap64 (address + Patch.offset patch) in
  let res := protectedWrite site data r1 in
  let m := world r in
  let m' := world (snd res) in
  let h := m_processHandle (self r) in
  fst res = can_protect m h site (vsize data) && no_fault m site (vsize data) /\
  handles m' = handles m /\ exit_code m' = exit_code m /\
  write_fault m' = write_fault m /\
  (forall page, committed m' page = committed m page) /\
  (forall page,
     protection m' page =
     if can_protect m h site (vsize data) && in_region site (vsize data) page
     then protection m (first_page site) else protection m page) /\
  memory m' = (if fst res then poke site data (memory m) else memory m) /\
  m_processHandle (self (snd res)) = h /\
  m_patternCache (self (snd res)) = m_patternCache (self r1).
Proof.
  cbv zeta.
  pose proof (resolve_frame patch r) as (Hw & _ & Hh).
  destruct (resolve patch r) as [address r1]. simpl in *.
  set (site := wrap64 (address + Patch.offset patch)).
  pose proof (protectedWrite_machine site data r1) as W. cbv zeta in W.
  destruct (protectedWrite site data r1) as [ok r2]. simpl in *.
  rewrite Hw, Hh in W.
  destruct W as (Hok & _ & Hh2 & Hc2 & _ & Hhs & Hex & Hwf & Hmem & Hprot & _).
  repeat split; auto.
  - intros page. unfold committed. rewrite Hprot.
    destruct (can_protect _ _ _ _) eqn:Hcan; [|reflexivity].
    destruct (in_region site (vsize data) page) eqn:Hin; [|reflexivity]. simpl.
    destruct (can_protect_parts _ _ _ _ Hcan) as (_ & Hs & _ & Hc).
    pose proof (Hc _ (in_region_first site _ Hs)) as Hf.
    pose proof (Hc _ Hin) as Hpg. unfold committed in Hf, Hpg.
    destruct (protection (world r) (first_page site)); [|discriminate].
    destruct (protection (world r) page); [reflexivity | discriminate].
Qed.

Lemma readMemory_machine (address size : Z) (r : Run Machine) :
  valid (world r) (m_processHandle (self r)) = true ->
  in_range address size = true ->
  forallb (readable (world r)) (pages address size) = true ->
  readMemory address size r = (bytes_at (world r) address size, r).
Proof.
  intros Hv Hr Hp. unfold readMemory, bind, get_self, query, ret. simpl.
  unfold read. rewrite Hv, Hr, Hp. reflexivity.
Qed.

(** What a patch write leaves in the target: shared by apply and remove. *)
Lemma patch_write_outcome (patch : Patch.t) (data : list byte) (r : Run Machine) :
  let site := wrap64 (fst (resolve patch r) + Patch.offset patch) in
  let res := protectedWrite site data (snd (resolve patch r)) in
  (forall a, ~ (site <= a < site + vsize data) ->
     memory (world (snd res)) a = memory (world r) a) /\
  (if fst res
   then bytes_at (world (snd res)) site (vsize data) = data /\
        (readable (world r) (first_page site) = true ->
         readMemory site (vsize data) (snd res) = (data, snd res))
   else forall a, memory (world (snd res)) a = memory (world r) a).
Proof.
  cbv zeta.
  pose proof (site_write_machine patch data r) as S. cbv zeta in S.
  set (site := wrap64 (fst (resolve patch r) + Patch.offset patch)) in *.
  destruct (protectedWrite site data (snd (resolve patch r))) as [ok r2]. simpl in *.
  destruct S as (Hok & Hhs & Hex & Hwf & Hcom & Hprot & Hmem & Hh & _).
  split.
  - intros a Ha. rewrite Hmem. destruct ok; [|reflexivity].
    apply poke_outside. exact Ha.
  - destruct ok; [|intros a; rewrite Hmem; reflexivity].
    assert (Hbytes : bytes_at (world r2) site (vsize data) = data).
    { unfold bytes_at. rewrite Hmem. apply TargetTheorems.bytes_at_poke. }
    split; [exact Hbytes|]. intros Hread.
    symmetry in Hok. apply andb_true_iff in Hok. destruct Hok as [Hcan _].
    destruct (can_protect_parts _ _ _ _ Hcan) as (Hv & _ & Hrange & _).
    rewrite <- Hbytes at 2. apply readMemory_machine.
    + unfold valid in *. rewrite Hh, Hhs. exact Hv.
    + exact Hrange.
    + apply forallb_pages. intros page Hp. unfold readable in *.
      rewrite Hprot, Hcan, Hp. exact Hread.
Qed.

(** X16.  What [applyPatch] and [removePatch] do to the memory of the
    target: success or failure, they touch no byte outside the bytes of
    the patch at its site (the resolved address plus the offset); when
    they succeed the site holds the patched bytes (the original bytes for
    a removal), and [readMemory] at the site gives them back when the
    first page of the site can be read. *)
Theorem patch_writes_only_its_site (patch : Patch.t) (r : Run Machine) :
  let site := wrap64 (fst (findPatternAddress patch r) + Patch.offset patch) in
  (let res := applyPatch patch r in
   let data := Patch.patched patch in
   (forall a, ~ (site <= a < site + vsize data) ->
      memory (world (snd res)) a = memory (world r) a) /\
   (fst (fst res) = true ->
    bytes_at (world (snd res)) site (vsize data) = data /\
    (readable (world r) (first_page site) = true ->
     fst (readMemory site (vsize data) (snd res)) = data))) /\
  (let res := removePatch patch r in
   let data := Patch.original patch in
   (forall a, ~ (site <= a < site + vsize data) ->
      memory (world (snd res)) a = memory (world r) a) /\
   (fst (fst res) = true ->
    bytes_at (world (snd res)) site (vsize data) = data /\
    (readable (world r) (first_page site) = true ->
     fst (readMemory site (vsize data) (snd res)) = data))).
Proof.
  cbv zeta. rewrite findPatternAddress_run.
  pose proof (resolve_frame patch r) as (Hw & _ & _).
  split.
  - rewrite applyPatch_run.
    pose proof (patch_write_outcome patch (Patch.patched patch) r) as P.
    cbv zeta in P.
    destruct (attached r); [|simpl; split; [auto | discriminate]].
    destruct (resolve patch r) as [address r1]. simpl in *.
    destruct (address =? 0); [simpl; rewrite Hw; split; [auto | discriminate]|].
    destruct (protectedWrite _ _ r1) as [[|] r2]; simpl in *.
    + destruct P as (P1 & P2 & P3). split; [exact P1|]. intros _. split; [exact P2|].
      intros Hr. unfold readMemory, bind, get_self, query, ret in *. simpl in *.
      specialize (P3 Hr).
      destruct (read (world r2) (m_processHandle (self r2)) _ _); simpl in *;
        congruence.
    + split; [apply P | discriminate].
  - rewrite removePatch_run.
    pose proof (patch_write_outcome patch (Patch.original patch) r) as P.
    cbv zeta in P.
    destruct (attached r); [|simpl; split; [auto | discriminate]].
    destruct (resolve patch r) as [address r1]. simpl in *.
    destruct (address =? 0); [simpl; rewrite Hw; split; [auto | discriminate]|].
    destruct (protectedWrite _ _ r1) as [[|] r2]; simpl in *.
    + destruct P as (P1 & P2 & P3). split; [exact P1|]. intros _. split; [exact P2|].
      intros Hr. unfold readMemory, bind, get_self, query, ret in *. simpl in *.
      specialize (P3 Hr).
      destruct (read (world r2) (m_processHandle (self r2)) _ _); simpl in *;
        congruence.
    + split; [apply P | discriminate].
Qed.

(** X17.  When the pages that hold the site of a patch all have the same
    protection, in particular when the site lies in one page, [applyPatch]
    and [removePatch] leave the protection of every page of the target as
    it was, whether they succeed or fail. *)
Theorem patch_keeps_uniform_protection (patch : Patch.t) (r : Run Machine) :
  let site := wrap64 (fst (findPatternAddress patch r) + Patch.offset patch) in
  (uniform (world r) site (vsize (Patch.patched patch)) ->
   forall page,
     protection (world (snd (applyPatch patch r))) page = protection (world r) page) /\
  (uniform (world r) site (vsize (Patch.original patch)) ->
   forall page,
     protection (world (snd (removePatch patch r))) page = protection (world r) page).
Proof.
  cbv zeta. rewrite findPatternAddress_run.
  pose proof (resolve_frame patch r) as (Hw & _ & _).
  split; intros Hu page.
  - rewrite applyPatch_run.
    pose proof (site_write_machine patch (Patch.patched patch) r) as S. cbv zeta in S.
    destruct (attached r); [|reflexivity].
    destruct (resolve patch r) as [address r1]. simpl in *.
    destruct (address =? 0); [simpl; rewrite Hw; reflexivity|].
    destruct S as (_ & _ & _ & _ & _ & Hprot & _).
    assert (Hp : protection (world (snd (protectedWrite
                   (wrap64 (address + Patch.offset patch)) (Patch.patched patch) r1))) page
                 = protection (world r) page).
    { rewrite Hprot. destruct (can_protect _ _ _ _); [|reflexivity]. simpl.
      destruct (in_region _ _ page) eqn:Hin; [|reflexivity].
      symmetry. apply Hu. exact Hin. }
    destruct (protectedWrite _ _ r1) as [[|] r2]; exact Hp.
  - rewrite removePatch_run.
    pose proof (site_write_machine patch (Patch.original patch) r) as S. cbv zeta in S.
    destruct (attached r); [|reflexivity].
    destruct (resolve patch r) as [address r1]. simpl in *.
    destruct (address =? 0); [simpl; rewrite Hw; reflexivity|].
    destruct S as (_ & _ & _ & _ & _ & Hprot & _).
    assert (Hp : protection (world (snd (protectedWrite
                   (wrap64 (address + Patch.offset patch)) (Patch.original patch) r1))) page
                 = protection (world r) page).
    { rewrite Hprot. destruct (can_protect _ _ _ _); [|reflexivity]. simpl.
      destruct (in_region _ _ page) eqn:Hin; [|reflexivity].
      symmetry. apply Hu. exact Hin. }
    destruct (protectedWrite _ _ r1) as [[|] r2]; exact Hp.
Qed.

End TargetExtras.

(** ** Round trips on the reference model *)

Module RoundTrips.
Import Target Engine Runs EngineFacts TargetFacts TargetExtras Accessors.

Lemma at_index_bytes_at (m : Machine) (address size i : Z) :
  0 <= i < size -> at_index (bytes_at m address size) i = memory m (address + i).
Proof.
  intros Hi. unfold at_index, bytes_at.
  rewrite nth_lookup.
  change (map (memory m) (seqZ address size)) with (memory m <$> seqZ address size).
  rewrite list_lookup_fmap, lookup_seqZ_lt by lia.
  simpl. f_equal. lia.
Qed.

(** Storing at a place the bytes it holds changes nothing. *)
Lemma poke_same (m : Machine) (address : Z) (data : list byte) (mem : Z -> byte) (a : Z) :
  bytes_at m address (vsize data) = data ->
  address <= a < address + vsize data ->
  poke address data mem a = memory m a.
Proof.
  intros Hb Ha. unfold poke.
  replace ((address <=? a) && (a <? address + vsize data)) with true
    by (symmetry; apply andb_true_iff; split; [apply Z.leb_le | apply Z.ltb_lt]; lia).
  rewrite <- Hb at 1. rewrite at_index_bytes_at by lia. f_equal. lia.
Qed.

(** X18.  A patch whose original and patched bytes have the same length,
    applied with success and then removed: the removal succeeds, the patch
    comes back disabled, and no byte outside the site has changed.  When
    the site held the original bytes of the patch before, the whole memory
    of the target is what it was before the patch was applied. *)
Theorem patch_round_trip_restores_memory (patch : Patch.t) (r : Run Machine) :
  vsize (Patch.original patch) = vsize (Patch.patched patch) ->
  fst (fst (applyPatch patch r)) = true ->
  let site := wrap64 (fst (findPatternAddress patch r) + Patch.offset patch) in
  let applied := applyPatch patch r in
  let removed := removePatch (snd (fst applied)) (snd applied) in
  fst (fst removed) = true /\
  snd (fst removed) = Patch.set_enabled false patch /\
  (forall a, ~ (site <= a < site + vsize (Patch.original patch)) ->
     memory (world (snd removed)) a = memory (world r) a) /\
  (bytes_at (world r) site (vsize (Patch.original patch)) = Patch.original patch ->
   forall a, memory (world (snd removed)) a = memory (world r) a).
Proof.
  intros Hlen Hok. cbv zeta. rewrite findPatternAddress_run.
  destruct (applyPatch patch r) as [[ok p1] r'] eqn:Eapply. simpl in Hok. subst ok.
  rewrite applyPatch_run in Eapply.
  destruct (attached r) eqn:Hatt; [|discriminate].
  pose proof (resolve_frame patch r) as (Hw1 & _ & Hh1).
  pose proof (TargetTheorems.resolve_cached patch r) as Hcache.
  pose proof (site_write_machine patch (Patch.patched patch) r) as S1. cbv zeta in S1.
  destruct (resolve patch r) as [address r1] eqn:Eres. simpl in Hw1, Hh1, Hcache, S1.
  destruct (address =? 0) eqn:Ez; [discriminate|].
  apply Z.eqb_neq in Ez. specialize (Hcache Ez). simpl fst.
  set (site := wrap64 (address + Patch.offset patch)) in *.
  destruct (protectedWrite site (Patch.patched patch) r1) as [ok2 r2] eqn:Ew.
  destruct ok2; [|discriminate]. injection Eapply as <- <-.
  simpl in S1.
  destruct S1 as (Hcan & Hhs & Hex & Hwf & Hcom & _ & Hmem & Hh2 & Hc2).
  symmetry in Hcan. apply andb_true_iff in Hcan. destruct Hcan as [Hcan Hnf].
  set (r3 := signalled (patchApplied (Patch.name patch)) r2).
  assert (Hatt3 : attached r3 = true).
  { rewrite attached_machine in *. unfold r3. simpl. unfold valid in *.
    rewrite Hh2, Hhs, Hex. exact Hatt. }
  assert (Hres3 : resolve (Patch.set_enabled true patch) r3 = (address, r3)).
  { unfold resolve, r3. simpl. rewrite Hc2, Hcache. reflexivity. }
  pose proof (site_write_machine (Patch.set_enabled true patch) (Patch.original patch) r3)
    as S3.
  cbv zeta in S3. rewrite Hres3 in S3. simpl in S3. fold site in S3.
  assert (Hcan3 : can_protect (world r2) (m_processHandle (self r2)) site
                    (vsize (Patch.original patch)) = true).
  { rewrite Hlen, Hh2, <- Hcan.
    apply can_protect_ext; [exact Hhs|]. intros page _. apply Hcom. }
  assert (Hnf3 : no_fault (world r2) site (vsize (Patch.original patch)) = true).
  { rewrite Hlen. unfold no_fault. rewrite Hwf. exact Hnf. }
  rewrite Hcan3, Hnf3 in S3.
  simpl. rewrite removePatch_run. fold r3. rewrite Hatt3, Hres3.
  apply Z.eqb_neq in Ez. rewrite Ez. simpl Patch.offset. simpl Patch.original.
  fold site.
  destruct (protectedWrite site (Patch.original patch) r3) as [ok4 r4] eqn:Ew4.
  simpl in S3. destruct S3 as (Hok4 & _ & _ & _ & _ & _ & Hmem4 & _).
  subst ok4. simpl in *.
  split; [reflexivity|]. split; [destruct patch; reflexivity|].
  split.
  - intros a Ha. rewrite Hmem4, Hmem.
    rewrite poke_outside by exact Ha.
    apply poke_outside. rewrite <- Hlen. exact Ha.
  - intros Hbytes a. rewrite Hmem4, Hmem.
    destruct (Z_le_dec site a) as [H1|H1];
      [destruct (Z_lt_dec a (site + vsize (Patch.original patch))) as [H2|H2]|].
    + rewrite <- Hw1. apply poke_same; [rewrite Hw1; exact Hbytes | lia].
    + rewrite poke_outside by lia. apply poke_outside. lia.
    + rewrite poke_outside by lia. apply poke_outside. lia.
Qed.

(** X19.  An unlock item that was enabled with success can be disabled
    again: [disableUnlock] succeeds, the byte at the address of the item,
    which held [1], holds [0], no other byte of the target and no access
    right has changed, and the two signals have been emitted in order.
    The byte is set to [0] whatever it held before the item was enabled. *)
Theorem enable_then_disable_unlock (item : UnlockItem.t) (r : Run Machine) :
  fst (fst (enableUnlock item r)) = true ->
  let on := enableUnlock item r in
  let off := disableUnlock (snd (fst on)) (snd on) in
  memory (world (snd on)) (UnlockItem.address item) = x01 /\
  fst (fst off) = true /\
  snd (fst off) = UnlockItem.set_enabled false item /\
  memory (world (snd off)) (UnlockItem.address item) = x00 /\
  (forall a, a <> UnlockItem.address item ->
     memory (world (snd off)) a = memory (world r) a) /\
  same_access (world r) (world (snd off)) /\
  emitted (snd off)
  = emitted r ++ [unlockEnabled (UnlockItem.name item);
                  unlockDisabled (UnlockItem.name item)].
Proof.
  intros Hok. cbv zeta.
  destruct (enableUnlock item r) as [[ok i1] r'] eqn:Eon. simpl in Hok. subst ok.
  rewrite enableUnlock_run in Eon.
  destruct (attached r) eqn:Hatt; [|discriminate].
  pose proof (byteWrite_machine (UnlockItem.address item) x01 r) as B1. cbv zeta in B1.
  destruct (byteWrite (UnlockItem.address item) x01 r) as [ok1 r1] eqn:E1.
  destruct ok1; [|discriminate]. injection Eon as <- <-. simpl in B1.
  destruct B1 as (Hpoke & Hself & Hem & Hsame & Hmem & _).
  rewrite <- Hpoke in Hmem.
  set (r2 := signalled (unlockEnabled (UnlockItem.name item)) r1).
  assert (Hatt2 : attached r2 = true).
  { rewrite <- Hatt. apply (BundleTheorems.attached_same r r2); [exact Hsame | exact Hself]. }
  assert (Hpoke2 : can_poke r2 (UnlockItem.address item) = true).
  { rewrite Hpoke. apply (BundleTheorems.can_poke_same r r2); [exact Hsame | exact Hself]. }
  simpl. rewrite disableUnlock_run. fold r2. rewrite Hatt2.
  pose proof (byteWrite_machine (UnlockItem.address item) x00 r2) as B2. cbv zeta in B2.
  simpl UnlockItem.address. simpl UnlockItem.name.
  destruct (byteWrite (UnlockItem.address item) x00 r2) as [ok2 r3] eqn:E2.
  simpl in B2. destruct B2 as (Hok2 & _ & Hem2 & Hsame2 & Hmem2 & _).
  rewrite Hpoke2 in Hok2, Hmem2. subst ok2. simpl.
  split; [rewrite Hmem, BundleTheorems.poke_byte, Z.eqb_refl; reflexivity|].
  split; [reflexivity|]. split; [destruct item; reflexivity|].
  split; [rewrite Hmem2, BundleTheorems.poke_byte, Z.eqb_refl; reflexivity|].
  split.
  { intros a Ha. rewrite Hmem2, BundleTheorems.poke_byte.
    destruct (UnlockItem.address item =? a) eqn:Ea;
      [apply Z.eqb_eq in Ea; congruence|].
    simpl. rewrite Hmem, BundleTheorems.poke_byte, Ea. reflexivity. }
  split.
  { apply (BundleTheorems.same_access_trans _ (world r1)); [exact Hsame | exact Hsame2]. }
  rewrite Hem2. simpl. rewrite Hem, <- app_assoc. reflexivity.
Qed.

(** X20.  A bundle that was enabled with success can be disabled again:
    [disableBundle] succeeds, every address of the bundle, which held [1],
    holds [0], and no byte at another address has changed. *)
Theorem enable_then_disable_bundle (bundle : UnlockBundle.t) (r : Run Machine) :
  fst (fst (enableBundle bundle r)) = true ->
  let on := enableBundle bundle r in
  let off := disableBundle (snd (fst on)) (snd on) in
  (forall a, In a (UnlockBundle.addresses bundle) -> memory (world (snd on)) a = x01) /\
  fst (fst off) = true /\
  snd (fst off) = UnlockBundle.set_enabled false bundle /\
  (forall a, In a (UnlockBundle.addresses bundle) -> memory (world (snd off)) a = x00) /\
  (forall a, ~ In a (UnlockBundle.addresses bundle) ->
     memory (world (snd off)) a = memory (world r) a) /\
  same_access (world r) (world (snd off)).
Proof.
  intros Hok. cbv zeta.
  destruct (enableBundle bundle r) as [[ok b1] r'] eqn:Eon. simpl in Hok. subst ok.
  rewrite enableBundle_run in Eon.
  destruct (attached r) eqn:Hatt; [|discriminate].
  pose proof (BundleTheorems.for_each_writeByte_machine x01
                (UnlockBundle.addresses bundle) true r Hatt) as B1.
  pose proof (for_each_writeByte_frame x01 (UnlockBundle.addresses bundle) true r)
    as [_ Hself].
  cbv zeta in B1.
  destruct (for_each _ _ true r) as [ok1 r1] eqn:E1.
  destruct ok1; [|discriminate]. injection Eon as <- <-. simpl in B1, Hself.
  destruct B1 as (Hall & Hsame & Hmem & _).
  symmetry in Hall.
  set (r2 := signalled (bundleEnabled (UnlockBundle.name bundle)) r1).
  assert (Hatt2 : attached r2 = true).
  { rewrite <- Hatt. apply (BundleTheorems.attached_same r r2); [exact Hsame | exact Hself]. }
  assert (Hsame_poke : forall a, can_poke r2 a = can_poke r a).
  { apply (BundleTheorems.can_poke_same r r2); [exact Hsame | exact Hself]. }
  assert (Hin : forall a, In a (UnlockBundle.addresses bundle) ->
                  forall p, (forall x, p x = can_poke r x) ->
                  existsb (fun x => (x =? a) && p x) (UnlockBundle.addresses bundle) = true).
  { intros a Ha p Hp. apply existsb_exists. exists a. split; [exact Ha|].
    rewrite Z.eqb_refl, Hp. simpl.
    rewrite forallb_forall in Hall. apply Hall. exact Ha. }
  assert (Hout : forall a, ~ In a (UnlockBundle.addresses bundle) ->
                  forall p : Z -> bool,
                  existsb (fun x => (x =? a) && p x) (UnlockBundle.addresses bundle) = false).
  { intros a Ha p. apply not_true_is_false. intros He.
    apply existsb_exists in He. destruct He as (x & Hx & Hxa).
    apply andb_true_iff in Hxa. destruct Hxa as [Hxa _].
    apply Z.eqb_eq in Hxa. subst x. contradiction. }
  simpl. rewrite disableBundle_run. fold r2. rewrite Hatt2.
  pose proof (BundleTheorems.for_each_writeByte_machine x00
                (UnlockBundle.addresses bundle) true r2 Hatt2) as B2.
  cbv zeta in B2. simpl UnlockBundle.addresses. simpl UnlockBundle.name.
  destruct (for_each _ _ true r2) as [ok2 r3] eqn:E2. simpl in B2.
  destruct B2 as (Hall2 & Hsame2 & Hmem2 & _).
  assert (Hok2 : ok2 = true).
  { rewrite Hall2. simpl. rewrite <- Hall.
    apply BundleTheorems.forallb_pointwise. exact Hsame_poke. }
  rewrite Hok2. simpl.
  split.
  { intros a Ha. rewrite Hmem, (Hin a Ha (can_poke r)); auto. }
  split; [reflexivity|]. split; [destruct bundle; reflexivity|].
  split.
  { intros a Ha. rewrite Hmem2, (Hin a Ha (can_poke r2)); auto. }
  split.
  { intros a Ha. rewrite Hmem2, (Hout a Ha). simpl. rewrite Hmem, (Hout a Ha). reflexivity. }
  apply (BundleTheorems.same_access_trans _ (world r1)); [exact Hsame | exact Hsame2].
Qed.

(** X21.  On the model, a successful [attachToProcess] leaves the engine
    with a handle that is open in the target, and [isAttached] answers
    whether the target still runs; after [detach] that handle is closed
    and [isAttached] answers [false].  Neither touches the memory of the
    target or the protection of its pages. *)
Theorem attach_opens_detach_closes (processName : string) (r : Run Machine) :
  fst (attachToProcess processName r) = true ->
  let r1 := snd (attachToProcess processName r) in
  let r2 := snd (detach r1) in
  valid (world r1) (m_processHandle (self r1)) = true /\
  fst (isAttached r1) = (exit_code (world r) =? STILL_ACTIVE) /\
  valid (world r2) (m_processHandle (self r1)) = false /\
  fst (isAttached r2) = false /\
  memory (world r2) = memory (world r) /\ protection (world r2) = protection (world r) /\
  memory (world r1) = memory (world r) /\ protection (world r1) = protection (world r).
Proof.
  cbv zeta. rewrite SessionExtras.attach_after_detach.
  pose proof (SessionExtras.detach_effect r) as (Hd & Hh).
  assert (Hkeep : memory (world (snd (detach r))) = memory (world r) /\
                  protection (world (snd (detach r))) = protection (world r) /\
                  exit_code (world (snd (detach r))) = exit_code (world r)).
  { destruct (m_processHandle (self r) =? 0); [rewrite Hd; auto|].
    destruct Hd as (Hw & _). rewrite Hw. simpl. auto. }
  destruct Hkeep as (Km & Kp & Ke). rewrite <- Km, <- Kp, <- Ke.
  set (r0 := snd (detach r)) in *. clearbody r0. clear Hd Km Kp Ke.
  rewrite (SessionExtras.attach_fresh_run processName r0 Hh). cbv zeta.
  destruct (CreateToolhelp32Snapshot (world r0)) as [entries|]; [|discriminate].
  destruct (firstProcess processName entries =? 0); [discriminate|].
  simpl OpenProcess. cbv beta iota.
  set (pid := firstProcess processName entries).
  destruct (grant (world r0) pid =? 0) eqn:Eg; [discriminate|].
  intros _. rewrite !isAttached_run, detach_run. simpl. rewrite Eg.
  rewrite !attached_machine. simpl. unfold valid. simpl.
  rewrite Eg, Z.eqb_refl. simpl.
  repeat split.
  apply not_true_is_false. intros He.
  apply existsb_exists in He. destruct He as (x & Hx & Hxe).
  apply filter_In in Hx. destruct Hx as [_ Hx].
  apply Z.eqb_eq in Hxe. subst x. rewrite Z.eqb_refl in Hx. discriminate.
Qed.

End RoundTrips.

(** ** The slot of an item checkbox, for an item that can be selected *)

Module SlotExtras.
Import Engine Runs EngineFacts.

Section Generic.
Context {World : Type} `{Win32 World}.

Lemma checkedOf_setChecked (ui : MainWindow.t) (box other : nat) (b : bool) :
  MainWindow.checkedOf (MainWindow.setChecked box b ui) other
  = if bool_decide (other = box)
    then match MainWindow.checkboxes ui !! box with Some _ => b | None => false end
    else MainWindow.checkedOf ui other.
Proof.
  unfold MainWindow.checkedOf, MainWindow.setChecked. simpl.
  destruct (bool_decide (other = box)) eqn:E.
  - apply bool_decide_eq_true in E. subst other. rewrite lookup_alter_eq.
    destruct (MainWindow.checkboxes ui !! box); reflexivity.
  - apply bool_decide_eq_false in E. rewrite lookup_alter_ne by congruence.
    reflexivity.
Qed.

Lemma forallb_in_pointwise {A} (f g : A -> bool) (l : list A) :
  (forall a, In a l -> f a = g a) -> forallb f l = forallb g l.
Proof.
  induction l as [|x l IH]; simpl; intros Hfg; [reflexivity|].
  rewrite (Hfg x) by auto. rewrite IH by auto. reflexivity.
Qed.

(** X22.  For an item that can be selected, while attached, the slot
    [onIndividualUnlockToggled] runs [enableUnlock] (checkbox checked) or
    [disableUnlock] (unchecked) on the item exactly once and keeps what
    the engine made of the item.  It does not look at the answer of the
    engine: the checkbox of the item stays as the user left it also when
    the operation failed.  Afterwards the master checkbox is checked
    exactly when every category checkbox is. *)
Theorem selectable_toggle_reaches_engine (ui : MainWindow.t) (box itemPtr : nat)
    (item : UnlockItem.t) (checked : bool) (r : Run World) :
  fst (isAttached r) = true ->
  MainWindow.unlockItem <$> MainWindow.checkboxes ui !! box = Some (Some itemPtr) ->
  MainWindow.unlockItems ui !! itemPtr = Some item ->
  UnlockItem.selectable item = true ->
  let op := if checked then enableUnlock item else disableUnlock item in
  let master := MainWindow.m_unlockAllCheck ui in
  let '(ui', r') := MainWindow.onIndividualUnlockToggled (Some box) checked ui r in
  r' = snd (op r) /\
  MainWindow.unlockItems ui'
  = <[itemPtr := snd (fst (op r))]> (MainWindow.unlockItems ui) /\
  (box <> master -> MainWindow.categoryOf ui box <> Some box ->
   MainWindow.checkedOf ui' box = MainWindow.checkedOf ui box) /\
  (is_Some (MainWindow.checkboxes ui !! master) ->
   ~ In master (MainWindow.m_allCategoryChecks ui) ->
   MainWindow.checkedOf ui' master
   = forallb (MainWindow.checkedOf ui') (MainWindow.m_allCategoryChecks ui)).
Proof.
  intros Hatt Hbox Hitem Hsel. cbv zeta.
  rewrite isAttached_run in Hatt. simpl in Hatt.
  unfold MainWindow.onIndividualUnlockToggled.
  unfold bind at 1. rewrite isAttached_run, Hatt. cbn [negb].
  rewrite Hbox, Hitem, Hsel. cbn [negb].
  unfold bind at 1.
  destruct ((if checked then enableUnlock item else disableUnlock item) r)
    as [[ok item'] r1]. unfold ret. simpl fst. simpl snd.
  set (ui1 := MainWindow.set_item itemPtr item' ui).
  assert (Hcat1 : MainWindow.categoryOf ui1 box = MainWindow.categoryOf ui box)
    by reflexivity.
  set (ui2 := match MainWindow.categoryOf ui1 box with
              | Some catPtr => MainWindow.setChecked catPtr _ ui1
              | None => ui1
              end).
  assert (Hitems2 : MainWindow.unlockItems ui2 = MainWindow.unlockItems ui1).
  { unfold ui2. destruct (MainWindow.categoryOf ui1 box); reflexivity. }
  assert (Hcats2 : MainWindow.m_allCategoryChecks ui2 = MainWindow.m_allCategoryChecks ui).
  { unfold ui2. destruct (MainWindow.categoryOf ui1 box); reflexivity. }
  assert (Hmaster2 : MainWindow.m_unlockAllCheck ui2 = MainWindow.m_unlockAllCheck ui).
  { unfold ui2. destruct (MainWindow.categoryOf ui1 box); reflexivity. }
  assert (Hdom2 : forall c, is_Some (MainWindow.checkboxes ui !! c) ->
                    is_Some (MainWindow.checkboxes ui2 !! c)).
  { intros c Hc. unfold ui2. destruct (MainWindow.categoryOf ui1 box) as [catPtr|];
      [|exact Hc].
    simpl. destruct (decide (c = catPtr)) as [->|Hne].
    - rewrite lookup_alter_eq. destruct Hc as [x Hx]. rewrite Hx. eexists. reflexivity.
    - rewrite lookup_alter_ne by congruence. exact Hc. }
  rewrite Hmaster2, Hcats2.
  split; [reflexivity|]. split; [exact Hitems2|]. split.
  - intros Hnm Hnc. rewrite checkedOf_setChecked.
    rewrite bool_decide_eq_false_2 by exact Hnm.
    unfold ui2. rewrite Hcat1.
    destruct (MainWindow.categoryOf ui box) as [catPtr|] eqn:Ec; [|reflexivity].
    rewrite checkedOf_setChecked.
    rewrite bool_decide_eq_false_2 by congruence. reflexivity.
  - intros Hm Hnin. rewrite checkedOf_setChecked.
    rewrite bool_decide_eq_true_2 by reflexivity.
    destruct (Hdom2 _ Hm) as [c Hc]. rewrite Hc.
    apply forallb_in_pointwise. intros a Ha.
    rewrite checkedOf_setChecked.
    rewrite bool_decide_eq_false_2; [reflexivity|].
    intros ->. contradiction.
Qed.

End Generic.
End SlotExtras.

(** ** The further properties at work on the small target *)

Module MoreWitnesses.
Import Target Engine Runs EngineFacts TargetFacts Examples Accessors.
Import PatternScanner.

(** The process of the game is the second of the snapshot, its name in
    capitals; no process is called [notepad.exe]. *)
Lemma findProcessByName_first_match_witness :
  findProcessByName "ffxv_s.exe" Demo.fresh = (wrap32 4242, Demo.fresh) /\
  findProcessByName "notepad.exe" Demo.fresh = (0, Demo.fresh).
Proof.
  split.
  - refine (proj1 (SessionExtras.findProcessByName_first_match "ffxv_s.exe" Demo.fresh
                     [("explorer.exe", 812); ("FFXV_S.EXE", 4242)] eq_refl)
              [("explorer.exe", 812)] "FFXV_S.EXE" 4242 [] eq_refl _ _);
      vm_compute; reflexivity.
  - refine (proj2 (SessionExtras.findProcessByName_first_match "notepad.exe" Demo.fresh
                     [("explorer.exe", 812); ("FFXV_S.EXE", 4242)] eq_refl) _);
      vm_compute; reflexivity.
Defined.

(** The engine before it has attached. *)
Lemma detached_operations_refuse_witness :
  let refused := failed "Not attached to process" Demo.fresh in
  (forall patch, applyPatch patch Demo.fresh = ((false, patch), refused)) /\
  (forall patch, removePatch patch Demo.fresh = ((false, patch), refused)) /\
  (forall item, enableUnlock item Demo.fresh = ((false, item), refused)) /\
  (forall item, disableUnlock item Demo.fresh = ((false, item), refused)) /\
  (forall bundle, enableBundle bundle Demo.fresh = ((false, bundle), refused)) /\
  (forall bundle, disableBundle bundle Demo.fresh = ((false, bundle), refused)) /\
  (forall address value, writeByte address value Demo.fresh = (false, Demo.fresh)) /\
  (forall address, readByte address Demo.fresh = (x00, Demo.fresh)) /\
  world refused = world Demo.fresh /\ calls refused = calls Demo.fresh.
Proof.
  refine (OperationExtras.detached_operations_refuse Demo.fresh _).
  vm_compute. reflexivity.
Defined.

(** Collections of one object that is in the target state. *)
Lemma bulk_nothing_to_do_witness :
  applyAllPatches [Patch.set_enabled true Demo.nop_patch] Demo.session
  = ((true, [Patch.set_enabled true Demo.nop_patch]), Demo.session) /\
  removeAllPatches [Demo.nop_patch] Demo.session
  = ((true, [Demo.nop_patch]), Demo.session) /\
  enableAllUnlocks [UnlockItem.set_enabled true Scenario.item] Demo.session
  = ((true, [UnlockItem.set_enabled true Scenario.item]), Demo.session) /\
  disableAllUnlocks [Scenario.item] Demo.session
  = ((true, [Scenario.item]), Demo.session) /\
  enableAllBundles [UnlockBundle.set_enabled true Demo.bundle] Demo.session
  = ((true, [UnlockBundle.set_enabled true Demo.bundle]), Demo.session) /\
  disableAllBundles [Demo.bundle] Demo.session
  = ((true, [Demo.bundle]), Demo.session).
Proof.
  destruct (OperationExtras.bulk_nothing_to_do Demo.session) as (A & B & C & D & E & F).
  split; [refine (A [_] _); reflexivity|].
  split; [refine (B [_] _); reflexivity|].
  split; [refine (C [_] _); reflexivity|].
  split; [refine (D [_] _); reflexivity|].
  split; [refine (E [_] _); reflexivity|].
  refine (F [_] _); reflexivity.
Defined.

(** Bulk runs that succeed on the small target. *)
Lemma bulk_success_is_stable_witness :
  (let run := applyAllPatches [Demo.nop_patch] Demo.session in
   forallb Patch.enabled (snd (fst run)) = true /\
   applyAllPatches (snd (fst run)) (snd run) = ((true, snd (fst run)), snd run)) /\
  (let run := removeAllPatches [Patch.set_enabled true Demo.nop_patch] Demo.session in
   forallb (fun p => negb (Patch.enabled p)) (snd (fst run)) = true /\
   removeAllPatches (snd (fst run)) (snd run) = ((true, snd (fst run)), snd run)) /\
  (let run := enableAllUnlocks [Scenario.item] Demo.session in
   forallb UnlockItem.enabled (snd (fst run)) = true /\
   enableAllUnlocks (snd (fst run)) (snd run) = ((true, snd (fst run)), snd run)) /\
  (let run := disableAllUnlocks [UnlockItem.set_enabled true Scenario.item]
                Demo.session in
   forallb (fun i => negb (UnlockItem.enabled i)) (snd (fst run)) = true /\
   disableAllUnlocks (snd (fst run)) (snd run) = ((true, snd (fst run)), snd run)) /\
  (let run := enableAllBundles [Demo.bundle] Demo.session in
   forallb UnlockBundle.enabled (snd (fst run)) = true /\
   enableAllBundles (snd (fst run)) (snd run) = ((true, snd (fst run)), snd run)) /\
  (let run := disableAllBundles [UnlockBundle.set_enabled true Demo.bundle]
                Demo.session in
   forallb (fun b => negb (UnlockBundle.enabled b)) (snd (fst run)) = true /\
   disableAllBundles (snd (fst run)) (snd run) = ((true, snd (fst run)), snd run)).
Proof.
  destruct (OperationExtras.bulk_success_is_stable Demo.session)
    as (A & B & C & D & E & F).
  split; [refine (A [Demo.nop_patch] _); vm_compute; reflexivity|].
  split; [refine (B [Patch.set_enabled true Demo.nop_patch] _); vm_compute; reflexivity|].
  split; [refine (C [Scenario.item] _); vm_compute; reflexivity|].
  split; [refine (D [UnlockItem.set_enabled true Scenario.item] _);
          vm_compute; reflexivity|].
  split; [refine (E [Demo.bundle] _); vm_compute; reflexivity|].
  refine (F [UnlockBundle.set_enabled true Demo.bundle] _); vm_compute; reflexivity.
Defined.

(** The jump of the small target, found by the scan. *)
Lemma findPattern_sound_witness :
  Demo.handle <> 0 /\ [x74; x4f] <> [] /\
  exists offset data i,
    0 <= offset < 0x200 /\
    ReadProcessMemory Demo.machine Demo.handle (wrap64 (Demo.base + offset))
      (Z.min (CHUNK_SIZE + vsize [x74; x4f]) (0x200 - offset)) = Some data /\
    0 <= i /\ i + vsize [x74; x4f] <= vsize data /\
    firstn (length [x74; x4f]) (skipn (Z.to_nat i) data) = [x74; x4f] /\
    Demo.base + 0x5C = wrap64 (Demo.base + offset + i).
Proof.
  refine (ScannerExtras.findPattern_sound Demo.machine Demo.handle Demo.base 0x200
            [x74; x4f] (Demo.base + 0x5C) _).
  vm_compute. reflexivity.
Defined.

(** No handle, no signature, no range, and a handle that is not open. *)
Lemma findPattern_nothing_to_find_witness :
  findPattern Demo.machine 0 Demo.base 0x200 [x74; x4f] = Some None /\
  findPattern Demo.machine Demo.handle Demo.base 0x200 [] = Some None /\
  findPattern Demo.machine Demo.handle Demo.base 0 [x74; x4f] = Some None /\
  findPattern Demo.machine 0x999 Demo.base 0x200 [x74; x4f] = Some None.
Proof.
  split; [|split; [|split]].
  - refine (proj1 (ScannerExtras.findPattern_nothing_to_find Demo.machine 0 Demo.base
                     0x200 [x74; x4f]) _). reflexivity.
  - refine (proj1 (proj2 (ScannerExtras.findPattern_nothing_to_find Demo.machine
                            Demo.handle Demo.base 0x200 [])) _). reflexivity.
  - refine (proj1 (proj2 (proj2 (ScannerExtras.findPattern_nothing_to_find Demo.machine
                                   Demo.handle Demo.base 0 [x74; x4f]))) _).
    vm_compute. discriminate.
  - refine (proj2 (proj2 (proj2 (ScannerExtras.findPattern_nothing_to_find Demo.machine
                                   0x999 Demo.base 0x200 [x74; x4f]))) _ _ _).
    + vm_compute. discriminate.
    + vm_compute. discriminate.
    + intros address size. reflexivity.
Defined.

(** The module of the game is the second one loaded; its name is asked for
    in another case. *)
Lemma getModuleInfo_first_match_witness :
  getModuleInfo Scenario.two_modules 0 "ffxv_s.exe" = None /\
  getModuleInfo Scenario.two_modules Demo.handle "other.dll" = None /\
  getModuleInfo Scenario.two_modules Demo.handle "FFXV_s.EXE"
  = Some (wrap64 Demo.base, wrap32 0x200).
Proof.
  split; [|split].
  - refine (proj1 (ScannerExtras.getModuleInfo_first_match Scenario.two_modules 0
                     "ffxv_s.exe") _). reflexivity.
  - refine (proj1 (proj2 (ScannerExtras.getModuleInfo_first_match Scenario.two_modules
                            Demo.handle "other.dll")
                     [0x7FF0000; Demo.base] eq_refl _) _).
    + simpl. lia.
    + vm_compute. reflexivity.
  - refine (proj2 (proj2 (ScannerExtras.getModuleInfo_first_match Scenario.two_modules
                            Demo.handle "FFXV_s.EXE")
                     [0x7FF0000; Demo.base] eq_refl _)
              [0x7FF0000] Demo.base [] "ffxv_s.exe" Demo.base 0x200 eq_refl _ _ _ _).
    + simpl. lia.
    + vm_compute. reflexivity.
    + vm_compute. reflexivity.
    + vm_compute. reflexivity.
    + vm_compute. reflexivity.
Defined.

(** The module of the small target, which is readable as a whole. *)
Lemma findPatternInModule_lowest_match_witness :
  findPatternInModule Demo.machine Demo.handle "other.dll" [x74; x4f] = None /\
  lowest_match (bytes_at Demo.machine Demo.base 0x200) [x74; x4f] Demo.base
    (findPatternInModule Demo.machine Demo.handle "ffxv_s.exe" [x74; x4f]).
Proof.
  split.
  - refine (proj1 (ScannerExtras.findPatternInModule_lowest_match Demo.machine
                     Demo.handle "other.dll" [x74; x4f] [] 0) _).
    vm_compute. reflexivity.
  - refine (proj2 (ScannerExtras.findPatternInModule_lowest_match Demo.machine
                     Demo.handle "ffxv_s.exe" [x74; x4f]
                     (bytes_at Demo.machine Demo.base 0x200) Demo.base) _ _ _ _ _).
    + vm_compute. reflexivity.
    + discriminate.
    + discriminate.
    + vm_compute. discriminate.
    + apply machine_readable_range; vm_compute; congruence.
Defined.

(** The patch of the jump: the site holds its original bytes. *)
Lemma patch_round_trip_restores_memory_witness :
  let site := wrap64 (fst (findPatternAddress Demo.nop_patch Demo.session)
                      + Patch.offset Demo.nop_patch) in
  let applied := applyPatch Demo.nop_patch Demo.session in
  let removed := removePatch (snd (fst applied)) (snd applied) in
  fst (fst removed) = true /\
  snd (fst removed) = Patch.set_enabled false Demo.nop_patch /\
  (forall a, ~ (site <= a < site + vsize (Patch.original Demo.nop_patch)) ->
     memory (world (snd removed)) a = memory (world Demo.session) a) /\
  (bytes_at (world Demo.session) site (vsize (Patch.original Demo.nop_patch))
   = Patch.original Demo.nop_patch ->
   forall a, memory (world (snd removed)) a = memory (world Demo.session) a).
Proof.
  refine (RoundTrips.patch_round_trip_restores_memory Demo.nop_patch Demo.session _ _).
  - reflexivity.
  - vm_compute. reflexivity.
Defined.

Lemma enable_then_disable_unlock_witness :
  let on := enableUnlock Scenario.item Demo.session in
  let off := disableUnlock (snd (fst on)) (snd on) in
  memory (world (snd on)) (UnlockItem.address Scenario.item) = x01 /\
  fst (fst off) = true /\
  snd (fst off) = UnlockItem.set_enabled false Scenario.item /\
  memory (world (snd off)) (UnlockItem.address Scenario.item) = x00 /\
  (forall a, a <> UnlockItem.address Scenario.item ->
     memory (world (snd off)) a = memory (world Demo.session) a) /\
  same_access (world Demo.session) (world (snd off)) /\
  emitted (snd off)
  = emitted Demo.session ++ [unlockEnabled (UnlockItem.name Scenario.item);
                             unlockDisabled (UnlockItem.name Scenario.item)].
Proof.
  refine (RoundTrips.enable_then_disable_unlock Scenario.item Demo.session _).
  vm_compute. reflexivity.
Defined.

Lemma enable_then_disable_bundle_witness :
  let on := enableBundle Demo.bundle Demo.session in
  let off := disableBundle (snd (fst on)) (snd on) in
  (forall a, In a (UnlockBundle.addresses Demo.bundle) ->
     memory (world (snd on)) a = x01) /\
  fst (fst off) = true /\
  snd (fst off) = UnlockBundle.set_enabled false Demo.bundle /\
  (forall a, In a (UnlockBundle.addresses Demo.bundle) ->
     memory (world (snd off)) a = x00) /\
  (forall a, ~ In a (UnlockBundle.addresses Demo.bundle) ->
     memory (world (snd off)) a = memory (world Demo.session) a) /\
  same_access (world Demo.session) (world (snd off)).
Proof.
  refine (RoundTrips.enable_then_disable_bundle Demo.bundle Demo.session _).
  vm_compute. reflexivity.
Defined.

(** The engine attaches to the game of the small target. *)
Lemma attach_opens_detach_closes_witness :
  let r1 := snd (attachToProcess "ffxv_s.exe" Demo.fresh) in
  let r2 := snd (detach r1) in
  valid (world r1) (m_processHandle (self r1)) = true /\
  fst (isAttached r1) = (exit_code (world Demo.fresh) =? STILL_ACTIVE) /\
  valid (world r2) (m_processHandle (self r1)) = false /\
  fst (isAttached r2) = false /\
  memory (world r2) = memory (world Demo.fresh) /\
  protection (world r2) = protection (world Demo.fresh) /\
  memory (world r1) = memory (world Demo.fresh) /\
  protection (world r1) = protection (world Demo.fresh).
Proof.
  refine (RoundTrips.attach_opens_detach_closes "ffxv_s.exe" Demo.fresh _).
  vm_compute. reflexivity.
Defined.

(** The checkbox of the item that can be selected, checked by the user. *)
Lemma selectable_toggle_reaches_engine_witness :
  let op := if true then enableUnlock Scenario.item else disableUnlock Scenario.item in
  let master := MainWindow.m_unlockAllCheck Scenario.window in
  let '(ui', r') :=
    MainWindow.onIndividualUnlockToggled (Some 1%nat) true Scenario.window Demo.session in
  r' = snd (op Demo.session) /\
  MainWindow.unlockItems ui'
  = <[10%nat := snd (fst (op Demo.session))]> (MainWindow.unlockItems Scenario.window) /\
  (1%nat <> master -> MainWindow.categoryOf Scenario.window 1%nat <> Some 1%nat ->
   MainWindow.checkedOf ui' 1%nat = MainWindow.checkedOf Scenario.window 1%nat) /\
  (is_Some (MainWindow.checkboxes Scenario.window !! master) ->
   ~ In master (MainWindow.m_allCategoryChecks Scenario.window) ->
   MainWindow.checkedOf ui' master
   = forallb (MainWindow.checkedOf ui') (MainWindow.m_allCategoryChecks Scenario.window)).
Proof.
  refine (SlotExtras.selectable_toggle_reaches_engine Scenario.window 1%nat 10%nat
            Scenario.item true Demo.session _ _ _ _).
  - vm_compute. reflexivity.
  - vm_compute. reflexivity.
  - vm_compute. reflexivity.
  - reflexivity.
Defined.

(** The site of the patch of the jump lies in the code page. *)
Lemma patch_keeps_uniform_protection_witness :
  (forall page,
     protection (world (snd (applyPatch Demo.nop_patch Demo.session))) page
     = protection (world Demo.session) page) /\
  (forall page,
     protection (world (snd (removePatch Demo.nop_patch Demo.session))) page
     = protection (world Demo.session) page).
Proof.
  assert (Hu : uniform (world Demo.session)
                 (wrap64 (fst (findPatternAddress Demo.nop_patch Demo.session)
                          + Patch.offset Demo.nop_patch)) 2).
  { intros page Hp. f_equal.
    replace (wrap64 (fst (findPatternAddress Demo.nop_patch Demo.session)
                     + Patch.offset Demo.nop_patch)) with (Demo.base + 0x5C) in *
      by (vm_compute; reflexivity).
    apply andb_true_iff in Hp. destruct Hp as [H1 H2].
    apply Z.leb_le in H1, H2.
    replace (first_page (Demo.base + 0x5C)) with 0x140000 in * by (vm_compute; reflexivity).
    replace (last_page (Demo.base + 0x5C) 2) with 0x140000 in H2 by (vm_compute; reflexivity).
    lia. }
  split.
  - refine (proj1 (TargetExtras.patch_keeps_uniform_protection Demo.nop_patch
                     Demo.session) _). exact Hu.
  - refine (proj2 (TargetExtras.patch_keeps_uniform_protection Demo.nop_patch
                     Demo.session) _). exact Hu.
Defined.

(** The jump in a buffer of four bytes of which three count: it is matched
    at index 1 and not at index 2, where it would end behind them. *)
Lemma matchPattern_exact_witness :
  (matchPattern [x00; x74; x4f; x4f] 3 [x74; x4f] 1 = true <->
   1 + vsize [x74; x4f] <= 3 /\
   firstn (length [x74; x4f]) (skipn (Z.to_nat 1) [x00; x74; x4f; x4f]) = [x74; x4f]) /\
  (matchPattern [x00; x74; x4f; x4f] 3 [x4f; x4f] 2 = true <->
   2 + vsize [x4f; x4f] <= 3 /\
   firstn (length [x4f; x4f]) (skipn (Z.to_nat 2) [x00; x74; x4f; x4f]) = [x4f; x4f]).
Proof.
  split.
  - refine (ScannerExtras.matchPattern_exact [x00; x74; x4f; x4f] 3 [x74; x4f] 1 _ _ _).
    + lia.
    + vm_compute. reflexivity.
    + vm_compute. discriminate.
  - refine (ScannerExtras.matchPattern_exact [x00; x74; x4f; x4f] 3 [x4f; x4f] 2 _ _ _).
    + lia.
    + vm_compute. reflexivity.
    + vm_compute. discriminate.
Defined.

End MoreWitnesses.
